(** * Whalrus: ballot conversion, scoring and rule evaluation

    A shallow embedding of the conversion and scoring pipeline of Whalrus
    (ballots, scales, converters to levels, the Bucklin scorer, profile
    loading in [Rule] / [Matrix] and Majority Judgment), followed by the
    properties established about it.

    Conventions of the embedding:
    - candidates are hashable Python objects; they are modelled as strings;
    - Python sets of candidates are [gset string], dictionaries keyed by
      candidates are [gmap string _];
    - an [int] is a [Z]; a [float] is modelled by the rational it stands
      for, a canonical rational [Qc], and the arithmetic of the code by
      field arithmetic.  This is what the code computes as long as no
      operation rounds, as in the documented examples; where a statement
      needs more than the expression that the code evaluates, it is made
      under conditions that keep the arithmetic exact (int weights), and
      the module [binary64] evaluates the same expressions on binary64
      floats, with their rounding, where the two part;
    - a call that may raise returns a [result], the exception being data. *)

From Stdlib Require Import QArith Qcanon Floats.
From stdpp Require Import base numbers strings gmap sets list sorting.

Local Open Scope Qc_scope.

(** A decimal float literal denotes the nearest binary64 float, as it does
    in Python. *)
Set Warnings "-inexact-float".

(** ** Exceptions and fallible computations *)

Inductive exn : Set :=
| TypeError
| AttributeError
| ZeroDivisionError
| ValueError
| KeyError
| IndexError
| ParseException
| NotImplementedError.

Inductive result (A : Type) : Type :=
| Ok (a : A)
| Raise (e : exn).

Arguments Ok {A} a.
Arguments Raise {A} e.

Global Instance exn_eq_dec : EqDecision exn.
Proof. solve_decision. Defined.

Global Instance result_eq_dec {A : Type} `{EqDecision A}
  : EqDecision (result A).
Proof. solve_decision. Defined.

(** [result] is the error monad; stdpp's [x ← r; k] is its sequencing. *)
Global Instance result_ret : MRet result := λ A a, Ok a.

Global Instance result_bind : MBind result := λ A B k r,
  match r with
  | Ok a => k a
  | Raise e => Raise e
  end.

(** [try: r except (TypeError, AttributeError): h] *)
Definition except_TypeError_AttributeError {A : Type}
    (r : result A) (h : result A) : result A :=
  match r with
  | Raise TypeError | Raise AttributeError => h
  | _ => r
  end.

(** [try: r except (TypeError, ParseException): h] *)
Definition except_TypeError_ParseException {A : Type}
    (r : result A) (h : result A) : result A :=
  match r with
  | Raise TypeError | Raise ParseException => h
  | _ => r
  end.

(** Evaluation of a dictionary comprehension [{c: f c v for c, v in items}]
    whose body may raise: entries are evaluated in turn and the first
    failure aborts the comprehension.  (Python iterates a dictionary in
    insertion order and a set in hash order; here both are iterated in the
    order of [map_to_list] and [elements].) *)
Fixpoint comprehension {A B : Type}
    (f : string → A → result B) (items : list (string * A))
    : result (gmap string B) :=
  match items with
  | [] => Ok ∅
  | (c, v) :: items' =>
      y ← f c v; m ← comprehension f items'; Ok (<[c := y]> m)
  end.

Definition dict_comprehension {A B : Type}
    (f : string → A → result B) (d : gmap string A) : result (gmap string B) :=
  comprehension f (map_to_list d).

Definition set_comprehension {B : Type}
    (f : string → result B) (X : gset string) : result (gmap string B) :=
  comprehension (λ c _, f c) ((λ c, (c, ())) <$> elements X).

(** ** Evaluations (levels) *)

(** The values a voter may attach to a candidate: Python ints, floats and
    verbal appreciations. *)
Inductive level : Set :=
| LInt (z : Z)
| LFloat (q : Qc)
| LStr (s : string).

Global Instance level_eq_dec : EqDecision level.
Proof. solve_decision. Defined.

(** [isinstance(v, numbers.Number)] and [isinstance(v, int)] *)
Definition is_number (v : level) : bool :=
  match v with LInt _ | LFloat _ => true | LStr _ => false end.

Definition is_int (v : level) : bool :=
  match v with LInt _ => true | _ => false end.

(** The numeric value of a number; arithmetic on a string operand raises
    [TypeError]. *)
Definition number (v : level) : result Qc :=
  match v with
  | LInt z => Ok (Qc_of_Z z)
  | LFloat q => Ok q
  | LStr _ => Raise TypeError
  end.

(** [a - b] *)
Definition py_sub (a b : level) : result Qc :=
  x ← number a; y ← number b; Ok (x - y).

(** [a / b] (true division) *)
Definition py_truediv (a b : Qc) : result Qc :=
  if decide (b = 0) then Raise ZeroDivisionError else Ok (a / b).

(** [a == b] on evaluations: numbers compare by value. *)
Definition py_eqb (a b : level) : bool :=
  match a, b with
  | LStr s, LStr t => bool_decide (s = t)
  | LStr _, _ | _, LStr _ => false
  | LInt x, LInt y => bool_decide (x = y)
  | LInt x, LFloat q | LFloat q, LInt x => bool_decide (Qc_of_Z x = q)
  | LFloat p, LFloat q => bool_decide (p = q)
  end.

(** [a < b], the natural ordering of Python values: numbers by value,
    strings lexicographically, [TypeError] across the two kinds. *)
Definition py_lt (a b : level) : result bool :=
  match a, b with
  | LStr s, LStr t => Ok (String.ltb s t)
  | LStr _, _ | _, LStr _ => Raise TypeError
  | _, _ => x ← number a; y ← number b; Ok (bool_decide (x < y))
  end.

(** [min(values)] and [max(values)]: a left-to-right scan that keeps the
    first extremal value; [ValueError] on an empty sequence. *)
Fixpoint py_min_from (cur : level) (l : list level) : result level :=
  match l with
  | [] => Ok cur
  | w :: l' => b ← py_lt w cur; py_min_from (if b : bool then w else cur) l'
  end.

Definition py_min (l : list level) : result level :=
  match l with
  | [] => Raise ValueError
  | v :: l' => py_min_from v l'
  end.

Fixpoint py_max_from (cur : level) (l : list level) : result level :=
  match l with
  | [] => Ok cur
  | w :: l' => b ← py_lt cur w; py_max_from (if b : bool then w else cur) l'
  end.

Definition py_max (l : list level) : result level :=
  match l with
  | [] => Raise ValueError
  | v :: l' => py_max_from v l'
  end.

(** [set(values)]: one representative per class of [==]. *)
Fixpoint py_set (l : list level) : list level :=
  match l with
  | [] => []
  | v :: l' => v :: filter (λ w, py_eqb v w = false) (py_set l')
  end.

(** [sorted(values)]: a stable sort by the natural ordering; it raises
    [TypeError] as soon as a number meets a string. *)
Fixpoint py_insert (v : level) (l : list level) : result (list level) :=
  match l with
  | [] => Ok [v]
  | w :: l' =>
      b ← py_lt w v;
      if b : bool then r ← py_insert v l'; Ok (w :: r) else Ok (v :: l)
  end.

Fixpoint py_sorted (l : list level) : result (list level) :=
  match l with
  | [] => Ok []
  | v :: l' => r ← py_sorted l'; py_insert v r
  end.

(** ** Scales *)

(** Modelled from the spec: the scales other than [ScaleInterval], that is
    [Scale], [ScaleRange], [ScaleFromList] and [ScaleFromSet], whose files
    are missing.  [ScaleBase] is the base scale without bounds, [ScaleRange]
    an integer range, [ScaleFromList] an ordered list of labels compared by
    index, and [ScaleFromSet] the list scale obtained by sorting a set of
    values by their natural ordering (its constructor is
    [ScaleFromSet_init]).  [ScaleInterval] is [scale/ScaleInterval.py]: it
    stores the two bounds it is given and is bounded. *)
Inductive Scale : Type :=
| ScaleBase
| ScaleInterval (low high : level)
| ScaleRange (low high : level)
| ScaleFromList (levels : list level)
| ScaleFromSet (levels : list level).

Global Instance Scale_eq_dec : EqDecision Scale.
Proof. solve_decision. Defined.

Module Scale_.

Definition is_bounded (s : Scale) : bool :=
  match s with
  | ScaleBase => false
  | _ => true
  end.

(** [isinstance(s, ScaleFromList)]; a [ScaleFromSet] is a list scale. *)
Definition is_ScaleFromList (s : Scale) : bool :=
  match s with
  | ScaleFromList _ | ScaleFromSet _ => true
  | _ => false
  end.

(** [s.levels] *)
Definition levels (s : Scale) : result (list level) :=
  match s with
  | ScaleFromList l | ScaleFromSet l => Ok l
  | _ => Raise AttributeError
  end.

(** [s.low] and [s.high]; a list scale is bounded by its first and last
    labels, the base scale defines no bound. *)
Definition low (s : Scale) : result level :=
  match s with
  | ScaleBase => Raise AttributeError
  | ScaleInterval l _ | ScaleRange l _ => Ok l
  | ScaleFromList l | ScaleFromSet l =>
      match l with
      | [] => Raise IndexError
      | v :: _ => Ok v
      end
  end.

Definition high (s : Scale) : result level :=
  match s with
  | ScaleBase => Raise AttributeError
  | ScaleInterval _ h | ScaleRange _ h => Ok h
  | ScaleFromList l | ScaleFromSet l =>
      match last l with
      | None => Raise IndexError
      | Some v => Ok v
      end
  end.

(** [s.as_dict[v]] on a list scale: the index of label [v]. *)
Fixpoint index_from (i : nat) (v : level) (l : list level) : option nat :=
  match l with
  | [] => None
  | w :: l' =>
      match index_from (S i) v l' with
      | Some j => Some j
      | None => if py_eqb w v then Some i else None
      end
  end.

Definition as_dict (s : Scale) (v : level) : result nat :=
  l ← levels s;
  match index_from 0 v l with
  | Some i => Ok i
  | None => Raise KeyError
  end.

(** [s.is_numeric] on a list scale *)
Definition is_numeric (s : Scale) : result bool :=
  l ← levels s; Ok (forallb is_number l).

End Scale_.

(** [ScaleFromSet(values)] *)
Definition ScaleFromSet_init (values : list level) : result Scale :=
  l ← py_sorted (py_set values); Ok (ScaleFromSet l).

(** ** Ballots *)

(** *** [BallotOrder] *)

(** Modelled from the spec: the class [BallotOrder], whose file is missing.
    An order ballot is a sequence of indifference classes, most
    preferred first, together with the candidates that were available to
    the voter.  Restriction drops the excluded candidates from every class,
    drops the classes that become empty and intersects the declared set.
    The Borda score of an ordered candidate is the number of candidates it
    strictly dominates plus half a point per candidate it is tied with;
    unordered candidates count as dominated when [unordered_give_points]
    is set, and share a common lowest rank. *)
Module BallotOrder.

Record t : Type := mk {
  as_weak_order : list (gset string);
  candidates : gset string
}.

Definition candidates_in_b (b : t) : gset string :=
  ⋃ (as_weak_order b).

Definition candidates_not_in_b (b : t) : gset string :=
  candidates b ∖ candidates_in_b b.

(** [len(b)]: the number of candidates the ballot mentions. *)
Definition len (b : t) : nat := size (candidates_in_b b).

Definition restrict (b : t) (cands : option (gset string)) : t :=
  match cands with
  | None => b
  | Some cs =>
      mk (filter (λ cl, cl ≠ ∅) ((λ cl, cl ∩ cs) <$> as_weak_order b))
         (candidates b ∩ cs)
  end.

(** Points of the members of each class of [w], given that [below]
    candidates are ranked under all of [w]. *)
Fixpoint borda_classes (w : list (gset string)) (below : nat)
    : gmap string Qc :=
  match w with
  | [] => ∅
  | cl :: w' =>
      let dominated := (size (⋃ w') + below)%nat in
      let pts := Qc_of_Z (Z.of_nat dominated)
                 + Qc_of_Z (Z.of_nat (size cl) - 1) / 2 in
      gset_to_gmap pts cl ∪ borda_classes w' below
  end.

Definition borda_weak_order (w : list (gset string)) (cands : gset string)
    (unordered_give_points : bool) : gmap string Qc :=
  let unordered := cands ∖ ⋃ w in
  let n := size unordered in
  borda_classes w (if unordered_give_points then n else 0%nat)
  ∪ gset_to_gmap
      (if unordered_give_points then Qc_of_Z (Z.of_nat n - 1) / 2 else 0)
      unordered.

Definition borda (b : t) (unordered_give_points : bool) : gmap string Qc :=
  borda_weak_order (as_weak_order b) (candidates b) unordered_give_points.

End BallotOrder.

(** *** [BallotLevels] ([ballots/BallotLevels.py]) *)
Module BallotLevels.

Record t : Type := mk {
  as_dict : gmap string level;
  candidates : gset string;
  _input_scale : option Scale
}.

(** [BallotLevels(b, candidates, scale)]; the declared candidates default
    to the candidates that the ballot mentions. *)
Definition __init__ (b : gmap string level)
    (cands : option (gset string)) (scale : option Scale) : t :=
  mk b (default (dom b) cands) scale.

Definition candidates_in_b (b : t) : gset string := dom (as_dict b).

Definition keys (b : t) : list string := (map_to_list (as_dict b)).*1.
Definition values (b : t) : list level := (map_to_list (as_dict b)).*2.
Definition items (b : t) : list (string * level) := map_to_list (as_dict b).

Definition len (b : t) : nat := size (as_dict b).

(** [b[item]] *)
Definition __getitem__ (b : t) (item : string) : result level :=
  match as_dict b !! item with
  | Some v => Ok v
  | None => Raise KeyError
  end.

(** The [scale] property: the scale given at construction, or else a
    scale inferred from the evaluations. *)
Definition scale (b : t) : result Scale :=
  match _input_scale b with
  | None =>
      if decide (len b = 0%nat) then ScaleFromSet_init []
      else if forallb is_int (values b) then
        lo ← py_min (values b); hi ← py_max (values b);
        Ok (ScaleRange lo hi)
      else if forallb is_number (values b) then
        lo ← py_min (values b); hi ← py_max (values b);
        Ok (ScaleInterval lo hi)
      else ScaleFromSet_init (values b)
  | Some s => Ok s
  end.

(** [as_weak_order]: one class per distinct evaluation, best first. *)
Definition as_weak_order (b : t) : result (list (gset string)) :=
  vs ← py_sorted (py_set (values b));
  Ok ((λ v, dom (filter (λ kv, py_eqb kv.2 v = true) (as_dict b)))
        <$> reverse vs).

(** [restrict(candidates)], called without any other keyword argument. *)
Definition restrict (b : t) (cands : option (gset string)) : result t :=
  match cands with
  | None => Ok b
  | Some cs =>
      s ← scale b;
      Ok (__init__ (filter (λ kv, kv.1 ∈ cs) (as_dict b))
                   (Some (candidates b ∩ cs)) (Some s))
  end.

(** [borda], inherited from [BallotOrder]. *)
Definition borda (b : t) (unordered_give_points : bool)
    : result (gmap string Qc) :=
  w ← as_weak_order b;
  Ok (BallotOrder.borda_weak_order w (candidates b) unordered_give_points).

End BallotLevels.

(** *** Priorities *)

(** The order of names, for the priorities that sort candidates. *)
Definition name_le (a b : string) : Prop := String.leb a b = true.

Global Instance name_le_dec : RelDecision name_le :=
  λ a b, decide (String.leb a b = true).

(** Modelled from the spec: the class [Priority], whose file is missing.
    A priority is an injected tie-break policy: from a set of candidates it
    chooses one ([reverse] selects from the other end), or fails.
    [UNAMBIGUOUS] chooses only in a set of one candidate; [ASCENDING]
    chooses the least name. *)
Module Priority.

Record t : Type := mk {
  choice : gset string → bool → result (option string)
}.

Definition UNAMBIGUOUS : t :=
  mk (λ X _,
        match elements X with
        | [] => Ok None
        | [c] => Ok (Some c)
        | _ => Raise ValueError
        end).

Definition ASCENDING : t :=
  mk (λ X reverse,
        let l := merge_sort name_le (elements X) in
        Ok (if reverse then last l else head l)).

End Priority.

(** *** One-name ballots *)

(** Modelled from the spec: the classes [BallotOneName], [BallotPlurality]
    and [BallotVeto], whose files are missing.  Each holds a single
    candidate (or [None]) plus the declared candidates.  Restriction keeps
    the held candidate when it remains available, and otherwise asks the
    priority for a replacement among the remaining candidates (a veto
    ballot asks for the least liked one). *)
Module BallotOneName.

Record t : Type := mk {
  candidate : option string;
  candidates : gset string
}.

(** [BallotOneName(x)] on a bare name. *)
Definition __init__ (x : string) (cands : option (gset string)) : t :=
  mk (Some x) (default {[ x ]} cands).

Definition restrict (b : t) (cands : option (gset string))
    (priority : Priority.t) (reverse : bool) : result t :=
  match cands with
  | None => Ok b
  | Some cs =>
      match candidate b with
      | None => Ok (mk None (candidates b ∩ cs))
      | Some c =>
          if decide (c ∈ cs) then Ok (mk (Some c) (candidates b ∩ cs))
          else
            c' ← Priority.choice priority (candidates b ∩ cs) reverse;
            Ok (mk c' (candidates b ∩ cs))
      end
  end.

End BallotOneName.

(** The family of ballots. [BallotLevels] is a subclass of [BallotOrder];
    [BallotPlurality] and [BallotVeto] are subclasses of [BallotOneName];
    [OtherBallot] stands for an instance of [Ballot] of no known subclass. *)
Inductive Ballot : Type :=
| Order (b : BallotOrder.t)
| Levels (b : BallotLevels.t)
| OneName (b : BallotOneName.t)
| Plurality (b : BallotOneName.t)
| Veto (b : BallotOneName.t)
| OtherBallot (candidates : gset string).

Global Instance BallotOrder_eq_dec : EqDecision BallotOrder.t.
Proof. solve_decision. Defined.

Global Instance BallotLevels_eq_dec : EqDecision BallotLevels.t.
Proof. solve_decision. Defined.

Global Instance BallotOneName_eq_dec : EqDecision BallotOneName.t.
Proof. solve_decision. Defined.

Global Instance Ballot_eq_dec : EqDecision Ballot.
Proof. solve_decision. Defined.

Definition Ballot_candidates (b : Ballot) : gset string :=
  match b with
  | Order o => BallotOrder.candidates o
  | Levels l => BallotLevels.candidates l
  | OneName n | Plurality n | Veto n => BallotOneName.candidates n
  | OtherBallot cs => cs
  end.

(** ** Raw inputs

    What a caller may hand to a converter: a ballot, a dictionary of
    evaluations, or any other object.  Parsing the textual syntax of orders
    is outside the modelled code: an object that is neither a ballot nor a
    dictionary carries the outcome [parsed] of the [BallotOrder] constructor
    on it, and the [name] it stands for as a single candidate. *)
Inductive pyobj : Type :=
| PyBallot (b : Ballot)
| PyDict (d : gmap string level)
| PyOther (parsed : result (list (gset string))) (name : string).

(** [BallotOrder(x)] on a raw object. *)
Definition BallotOrder_init (parsed : result (list (gset string)))
    : result BallotOrder.t :=
  w ← parsed; Ok (BallotOrder.mk w (⋃ w)).

(** ** The general converter, [converter_ballot/ConverterBallotGeneral.py]

    The file imports its ballot classes from the package [whalrus.ballot].
    [__call__] is translated here over the inputs as this copy sees them:
    [PyBallot] is an instance of the class [Ballot] that the copy imports,
    and the ballots it returns are of the imported classes as well (which
    object is an instance of which class is settled by [seen_from]
    below). *)
Module converter_ballot.
Module ConverterBallotGeneral.

Record t : Type := __init__ {
  plurality_priority : Priority.t;
  veto_priority : Priority.t;
  one_name_priority : Priority.t
}.

(** [ConverterBallotGeneral()] *)
Definition default : t :=
  __init__ Priority.UNAMBIGUOUS Priority.UNAMBIGUOUS Priority.UNAMBIGUOUS.

(** The branch [isinstance(x, Ballot)] of [__call__]. *)
Definition call_ballot (self : t) (x : Ballot)
    (candidates : option (gset string)) : result Ballot :=
  match candidates with
  | None => Ok x
  | Some _ =>
      match x with
      | Order o => Ok (Order (BallotOrder.restrict o candidates))
      | Levels l => l' ← BallotLevels.restrict l candidates; Ok (Levels l')
      | Plurality n =>
          n' ← BallotOneName.restrict n candidates
                 (plurality_priority self) false;
          Ok (Plurality n')
      | Veto n =>
          n' ← BallotOneName.restrict n candidates
                 (veto_priority self) true;
          Ok (Veto n')
      | OneName n =>
          n' ← BallotOneName.restrict n candidates
                 (one_name_priority self) false;
          Ok (OneName n')
      | OtherBallot _ => Raise NotImplementedError
      end
  end.

(** [__call__]: every recursive call [self(ballot, candidates)] is on a
    ballot and is answered by [call_ballot]. *)
Definition __call__ (self : t) (x : pyobj)
    (candidates : option (gset string)) : result Ballot :=
  match x with
  | PyBallot b => call_ballot self b candidates
  | PyDict d =>
      call_ballot self (Levels (BallotLevels.__init__ d None None)) candidates
  | PyOther parsed name =>
      except_TypeError_ParseException
        (ballot_order ← BallotOrder_init parsed;
         if decide (BallotOrder.len ballot_order = 1%nat) then
           call_ballot self
             (OneName (BallotOneName.__init__ name None)) candidates
         else call_ballot self (Order ballot_order) candidates)
        (call_ballot self
           (OneName (BallotOneName.__init__ name None)) candidates)
  end.

End ConverterBallotGeneral.
End converter_ballot.

(** ** The general converter, [converters_ballot/ConverterBallotGeneral.py]

    The file imports its ballot classes from the package [whalrus.ballots]:
    here [PyBallot] is an instance of the class [Ballot] of that package,
    and so are the ballots that are returned. *)
Module converters_ballot.
Module ConverterBallotGeneral.

Record t : Type := __init__ {
  plurality_priority : Priority.t;
  veto_priority : Priority.t;
  one_name_priority : Priority.t
}.

(** [ConverterBallotGeneral()] *)
Definition default : t :=
  __init__ Priority.UNAMBIGUOUS Priority.UNAMBIGUOUS Priority.UNAMBIGUOUS.

(** The branch [isinstance(x, Ballot)] of [__call__]. *)
Definition call_ballot (self : t) (x : Ballot)
    (candidates : option (gset string)) : result Ballot :=
  match candidates with
  | None => Ok x
  | Some _ =>
      match x with
      | Order o => Ok (Order (BallotOrder.restrict o candidates))
      | Levels l => l' ← BallotLevels.restrict l candidates; Ok (Levels l')
      | Plurality n =>
          n' ← BallotOneName.restrict n candidates
                 (plurality_priority self) false;
          Ok (Plurality n')
      | Veto n =>
          n' ← BallotOneName.restrict n candidates
                 (veto_priority self) true;
          Ok (Veto n')
      | OneName n =>
          n' ← BallotOneName.restrict n candidates
                 (one_name_priority self) false;
          Ok (OneName n')
      | OtherBallot _ => Raise NotImplementedError
      end
  end.

(** [__call__]: every recursive call [self(ballot, candidates)] is on a
    ballot and is answered by [call_ballot]. *)
Definition __call__ (self : t) (x : pyobj)
    (candidates : option (gset string)) : result Ballot :=
  match x with
  | PyBallot b => call_ballot self b candidates
  | PyDict d =>
      call_ballot self (Levels (BallotLevels.__init__ d None None)) candidates
  | PyOther parsed name =>
      except_TypeError_ParseException
        (ballot_order ← BallotOrder_init parsed;
         if decide (BallotOrder.len ballot_order = 1%nat) then
           call_ballot self
             (OneName (BallotOneName.__init__ name None)) candidates
         else call_ballot self (Order ballot_order) candidates)
        (call_ballot self
           (OneName (BallotOneName.__init__ name None)) candidates)
  end.

End ConverterBallotGeneral.
End converters_ballot.

(** ** The two families of ballot classes

    The two copies of the general converter import classes of the same
    names from two packages, [whalrus.ballot] and [whalrus.ballots].  Of
    these classes only [whalrus/ballots/BallotLevels.py] is at hand; the
    classes of both packages are modelled by the same definitions (see
    [BallotOrder], [BallotLevels] and [BallotOneName] above), and a ballot
    is tagged with the package of its class.  An [isinstance] test of a
    copy recognises the ballots of the package that the copy imports, and
    the ballots that a copy builds or restricts are of that package. *)
Inductive package : Set :=
| whalrus_ballot
| whalrus_ballots.

Global Instance package_eq_dec : EqDecision package.
Proof. solve_decision. Defined.






(** ** [converter_ballot/ConverterBallotToLevelsInterval.py] *)
Module ConverterBallotToLevelsInterval.

Record t : Type := mk {
  scale : Scale;
  low : level;
  high : level;
  borda_unordered_give_points : bool
}.

Definition __init__ (scale : Scale) (borda_unordered_give_points : bool)
    : result t :=
  l ← Scale_.low scale; h ← Scale_.high scale;
  Ok (mk scale l h borda_unordered_give_points).

(** [self.low + (self.high - self.low) * x / d], operands evaluated from
    left to right; the quotient is a float. *)
Definition affine (self : t) (x : result Qc) (d : result Qc)
    : result level :=
  w ← py_sub (high self) (low self);
  a ← x;
  b ← d;
  q ← py_truediv (w * a) b;
  l ← number (low self);
  Ok (LFloat (l + q)).

(** [BallotLevels(d, candidates=cs, scale=sc).restrict(candidates)] *)
Definition levels_restricted (d : gmap string level) (cs : gset string)
    (sc : Scale) (candidates : option (gset string)) : result Ballot :=
  l ← BallotLevels.restrict (BallotLevels.__init__ d (Some cs) (Some sc))
        candidates;
  Ok (Levels l).

(** The branch of a veto ballot, then the branch of a one-name or
    plurality ballot: the held candidate gets one bound of the scale and
    the other declared candidates get the other bound. *)
Definition call_veto (self : t) (x : BallotOneName.t)
    (candidates : option (gset string)) : result Ballot :=
  match BallotOneName.candidate x with
  | None =>
      levels_restricted ∅ (BallotOneName.candidates x) (scale self)
        candidates
  | Some held =>
      levels_restricted
        (set_to_map
           (λ c, (c, if decide (c = held) then low self else high self))
           (BallotOneName.candidates x))
        (BallotOneName.candidates x) (scale self) candidates
  end.

Definition call_one_name (self : t) (x : BallotOneName.t)
    (candidates : option (gset string)) : result Ballot :=
  match BallotOneName.candidate x with
  | None =>
      levels_restricted ∅ (BallotOneName.candidates x) (scale self)
        candidates
  | Some held =>
      levels_restricted
        (set_to_map
           (λ c, (c, if decide (c = held) then high self else low self))
           (BallotOneName.candidates x))
        (BallotOneName.candidates x) (scale self) candidates
  end.

(** The branch [isinstance(x, BallotOrder)], for a plain order and for a
    levels ballot that reaches it. *)
Definition call_borda (self : t) (borda : gmap string Qc)
    (x_candidates x_candidates_in_b : gset string)
    (candidates : option (gset string)) : result Ballot :=
  let score_max :=
    if borda_unordered_give_points self
    then (Z.of_nat (size x_candidates) - 1)%Z
    else (Z.of_nat (size x_candidates_in_b) - 1)%Z in
  d ← set_comprehension
        (λ c, affine self
                (match borda !! c with
                 | Some p => Ok p
                 | None => Raise KeyError
                 end)
                (Ok (Qc_of_Z score_max)))
        x_candidates_in_b;
  levels_restricted d x_candidates (scale self) candidates.

Definition call_order (self : t) (x : BallotOrder.t)
    (candidates : option (gset string)) : result Ballot :=
  call_borda self
    (BallotOrder.borda x (borda_unordered_give_points self))
    (BallotOrder.candidates x) (BallotOrder.candidates_in_b x) candidates.

(** The first part of the levels branch: a ballot on an unbounded scale
    is either returned as it is ([inl]) or given a bounded scale
    ([inr]). *)
Definition bound_scale (self : t) (x : BallotLevels.t)
    (candidates : option (gset string))
    : result (Ballot + BallotLevels.t) :=
  x_scale ← BallotLevels.scale x;
  if negb (Scale_.is_bounded x_scale) then
    if forallb is_number (BallotLevels.values x) then
      x_min ← py_min (BallotLevels.values x);
      x_max ← py_max (BallotLevels.values x);
      above ← (b ← py_lt x_min (low self); Ok (negb b));
      within ← (if above : bool
                then b ← py_lt (high self) x_max; Ok (negb b)
                else Ok false);
      if within : bool then
        r ← levels_restricted (BallotLevels.as_dict x)
               (BallotLevels.candidates x)
               (ScaleInterval (low self) (high self)) candidates;
        Ok (inl r)
      else
        lo ← py_min (BallotLevels.values x);
        hi ← py_max (BallotLevels.values x);
        Ok (inr (BallotLevels.__init__ (BallotLevels.as_dict x)
                   (Some (BallotLevels.candidates x))
                   (Some (ScaleInterval lo hi))))
    else
      sc ← ScaleFromSet_init (BallotLevels.values x);
      Ok (inr (BallotLevels.__init__ (BallotLevels.as_dict x)
                 (Some (BallotLevels.candidates x)) (Some sc)))
  else Ok (inr x).

(** The [try] block: interpret the ballot as a cardinal ballot. *)
Definition call_cardinal (self : t) (x : BallotLevels.t)
    (candidates : option (gset string)) : result Ballot :=
  d ← dict_comprehension
        (λ c v, affine self
                  (sc ← BallotLevels.scale x; lo ← Scale_.low sc;
                   py_sub v lo)
                  (sc ← BallotLevels.scale x; hi ← Scale_.high sc;
                   sc' ← BallotLevels.scale x; lo ← Scale_.low sc';
                   py_sub hi lo))
        (BallotLevels.as_dict x);
  levels_restricted d (BallotLevels.candidates x) (scale self) candidates.

(** The [except] block on a list scale: levels are mapped by their index. *)
Definition call_from_list (self : t) (x : BallotLevels.t) (x_scale : Scale)
    (candidates : option (gset string)) : result Ballot :=
  d ← dict_comprehension
        (λ c v, affine self
                  (xc ← BallotLevels.__getitem__ x c;
                   i ← Scale_.as_dict x_scale xc;
                   Ok (Qc_of_Z (Z.of_nat i)))
                  (ls ← Scale_.levels x_scale;
                   Ok (Qc_of_Z (Z.of_nat (length ls) - 1))))
        (BallotLevels.as_dict x);
  levels_restricted d (BallotLevels.candidates x) (scale self) candidates.

Definition call_levels (self : t) (x : BallotLevels.t)
    (candidates : option (gset string)) : result Ballot :=
  bounded ← bound_scale self x candidates;
  match bounded with
  | inl r => Ok r
  | inr x =>
      except_TypeError_AttributeError
        (call_cardinal self x candidates)
        (x_scale ← BallotLevels.scale x;
         if Scale_.is_ScaleFromList x_scale then
           call_from_list self x x_scale candidates
         else
           borda ← BallotLevels.borda x (borda_unordered_give_points self);
           call_borda self borda (BallotLevels.candidates x)
             (BallotLevels.candidates_in_b x) candidates)
  end.

Definition __call__ (self : t) (x : pyobj)
    (candidates : option (gset string)) : result Ballot :=
  x ← converter_ballot.ConverterBallotGeneral.__call__
        converter_ballot.ConverterBallotGeneral.default x None;
  match x with
  | Veto n => call_veto self n candidates
  | OneName n | Plurality n => call_one_name self n candidates
  | Levels l => call_levels self l candidates
  | Order o => call_order self o candidates
  | OtherBallot _ => Raise NotImplementedError
  end.

End ConverterBallotToLevelsInterval.

(** ** The converters built on [ConverterBallotToLevelsRange]

    The files of [ConverterBallotToLevelsRange] and
    [ConverterBallotToLevelsListNumeric] are missing: their [__call__]
    methods are parameters of the converters that delegate to them. *)
Section delegating_converters.

Variable ConverterBallotToLevelsRange_call :
  Scale → bool → pyobj → option (gset string) → result Ballot.
Variable ConverterBallotToLevelsListNumeric_call :
  Scale → bool → pyobj → option (gset string) → result Ballot.

(** [levels[v]]: Python list indexing, negative indices counting from
    the end. *)
Definition py_list_index (levels : list level) (v : level) : result level :=
  match v with
  | LInt z =>
      let n := Z.of_nat (length levels) in
      let i := (if decide (z < 0)%Z then z + n else z)%Z in
      if decide (0 ≤ i < n)%Z then
        match levels !! Z.to_nat i with
        | Some lbl => Ok lbl
        | None => Raise IndexError
        end
      else Raise IndexError
  | _ => Raise TypeError
  end.

(** *** [converter_ballot/ConverterBallotToLevelsListNonNumeric.py] *)
Record ConverterBallotToLevelsListNonNumeric : Type :=
  ConverterBallotToLevelsListNonNumeric_init {
    ListNonNumeric_scale : Scale;
    ListNonNumeric_borda_unordered_give_points : bool
  }.

Definition ConverterBallotToLevelsListNonNumeric_call
    (self : ConverterBallotToLevelsListNonNumeric) (x : pyobj)
    (candidates : option (gset string)) : result Ballot :=
  ls ← Scale_.levels (ListNonNumeric_scale self);
  x ← ConverterBallotToLevelsRange_call
        (ScaleRange (LInt 0) (LInt (Z.of_nat (length ls) - 1)))
        (ListNonNumeric_borda_unordered_give_points self) x None;
  match x with
  | Levels x =>
      d ← dict_comprehension
            (λ c v, ls ← Scale_.levels (ListNonNumeric_scale self);
                    py_list_index ls v)
            (BallotLevels.as_dict x);
      l ← BallotLevels.restrict
            (BallotLevels.__init__ d (Some (BallotLevels.candidates x))
               (Some (ListNonNumeric_scale self)))
            candidates;
      Ok (Levels l)
  | _ => Raise AttributeError
  end.

(** *** [converter_ballot/ConverterBallotToLevels.py] *)
Inductive aux_converter : Type :=
| AuxInterval (c : ConverterBallotToLevelsInterval.t)
| AuxRange (scale : Scale) (borda_unordered_give_points : bool)
| AuxListNumeric (scale : Scale) (borda_unordered_give_points : bool)
| AuxListNonNumeric (c : ConverterBallotToLevelsListNonNumeric).

Record ConverterBallotToLevels : Type := mk_ConverterBallotToLevels {
  ToLevels_scale : option Scale;
  ToLevels_borda_unordered_give_points : bool;
  _aux_converter : aux_converter
}.

(** [__init__]: the statement [if scale is None: ...] is followed by a
    separate [if ... elif ... else] statement. *)
Definition ConverterBallotToLevels_init (scale : option Scale)
    (borda_unordered_give_points : bool) : result ConverterBallotToLevels :=
  aux ← match scale with
        | None =>
            c ← ConverterBallotToLevelsInterval.__init__
                  (ScaleInterval (LFloat 0) (LFloat 1))
                  borda_unordered_give_points;
            Ok (Some (AuxInterval c))
        | Some _ => Ok None
        end;
  aux ← match scale with
        | Some (ScaleInterval lo hi) =>
            c ← ConverterBallotToLevelsInterval.__init__
                  (ScaleInterval lo hi) borda_unordered_give_points;
            Ok (AuxInterval c)
        | Some (ScaleRange lo hi) =>
            Ok (AuxRange (ScaleRange lo hi) borda_unordered_give_points)
        | Some (ScaleFromList _ as sc) | Some (ScaleFromSet _ as sc) =>
            numeric ← Scale_.is_numeric sc;
            if numeric : bool then
              Ok (AuxListNumeric sc borda_unordered_give_points)
            else
              Ok (AuxListNonNumeric
                    (ConverterBallotToLevelsListNonNumeric_init
                       sc borda_unordered_give_points))
        | Some ScaleBase | None => Raise NotImplementedError
        end;
  Ok (mk_ConverterBallotToLevels scale borda_unordered_give_points aux).

Definition aux_converter_call (a : aux_converter) (x : pyobj)
    (candidates : option (gset string)) : result Ballot :=
  match a with
  | AuxInterval c => ConverterBallotToLevelsInterval.__call__ c x candidates
  | AuxRange sc flag => ConverterBallotToLevelsRange_call sc flag x candidates
  | AuxListNumeric sc flag =>
      ConverterBallotToLevelsListNumeric_call sc flag x candidates
  | AuxListNonNumeric c =>
      ConverterBallotToLevelsListNonNumeric_call c x candidates
  end.

Definition ConverterBallotToLevels_call (self : ConverterBallotToLevels)
    (x : pyobj) (candidates : option (gset string)) : result Ballot :=
  match ToLevels_scale self, x with
  | None, PyBallot (Levels l) =>
      l' ← BallotLevels.restrict l candidates; Ok (Levels l')
  | _, _ => aux_converter_call (_aux_converter self) x candidates
  end.

End delegating_converters.

(** ** [scorer/ScorerBucklin.py] *)
Module ScorerBucklin.

(** A scorer loaded with a ballot and the candidates of the election.
    The flags are [True], [False] or [None]. *)
Record t : Type := mk {
  ballot_ : BallotOrder.t;
  candidates_ : gset string;
  k : Z;
  unordered_receive_points : option bool;
  absent_receive_points : option bool
}.

(** One round of the distribution, written three times in [scores_]: the
    candidates of [group] get one point each when the group fits in
    [points_remaining], and share [points_remaining] otherwise.  The
    result is the updated dictionary and the points that remain. *)
Definition distribute (group : gset string)
    (st : gmap string Qc * Qc) : gmap string Qc * Qc :=
  let '(scores, points_remaining) := st in
  let n := Qc_of_Z (Z.of_nat (size group)) in
  if decide (n ≤ points_remaining) then
    (gset_to_gmap 1 group ∪ scores, points_remaining - n)
  else
    (gset_to_gmap (points_remaining / n) group ∪ scores, 0).

(** The loop over the indifference classes of the ballot. *)
Definition ordered (w : list (gset string)) (st : gmap string Qc * Qc)
    : gmap string Qc * Qc :=
  foldl (λ st indifference_class, distribute indifference_class st) st w.

Definition unordered (self : t) (st : gmap string Qc * Qc)
    : gmap string Qc * Qc :=
  match unordered_receive_points self with
  | Some false =>
      (gset_to_gmap 0 (BallotOrder.candidates_not_in_b (ballot_ self))
         ∪ st.1, st.2)
  | Some true =>
      distribute (BallotOrder.candidates_not_in_b (ballot_ self)) st
  | None => st
  end.

(** The last round leaves [points_remaining] as it is; only the scores
    are returned. *)
Definition absent (self : t) (st : gmap string Qc * Qc) : gmap string Qc :=
  match absent_receive_points self with
  | Some false =>
      gset_to_gmap 0
        (candidates_ self ∖ BallotOrder.candidates (ballot_ self)) ∪ st.1
  | Some true =>
      (distribute
         (candidates_ self ∖ BallotOrder.candidates (ballot_ self)) st).1
  | None => st.1
  end.

Definition scores_ (self : t) : gmap string Qc :=
  absent self
    (unordered self
       (ordered (BallotOrder.as_weak_order (ballot_ self))
          (∅, Qc_of_Z (k self)))).

End ScorerBucklin.

(** The two ballots of the documentation of [ScorerBucklin]. *)
Definition ballot_abcde : BallotOrder.t :=
  BallotOrder.mk [ {["a"]}; {["b"]}; {["c"]}; {["d"]}; {["e"]} ]
                 {[ "a"; "b"; "c"; "d"; "e" ]}.

Definition ballot_a_bc : BallotOrder.t :=
  BallotOrder.mk [ {["a"]}; {["b"; "c"]} ] {[ "a"; "b"; "c"; "d"; "e" ]}.

Definition candidates_election : gset string :=
  {[ "a"; "b"; "c"; "d"; "e"; "f"; "g" ]}.

(** ** Profiles *)

(** Modelled from the spec: the class [Profile] of [profile/Profile.py],
    whose file is missing.  A profile is an ordered sequence of (ballot, weight, voter)
    triples; its constructor converts each raw ballot with the default
    general converter, the weights default to 1 and the voters to [None]. *)
Module Profile.

Record t : Type := mk {
  ballots : list Ballot;
  weights : list Qc;
  voters : list (option string)
}.

Fixpoint convert_all (converter : pyobj → result Ballot)
    (xs : list pyobj) : result (list Ballot) :=
  match xs with
  | [] => Ok []
  | x :: xs' =>
      b ← converter x; bs ← convert_all converter xs'; Ok (b :: bs)
  end.

Definition __init__ (ballots : list pyobj) (weights : option (list Qc))
    (voters : option (list (option string))) : result t :=
  bs ← convert_all
         (λ x, converter_ballot.ConverterBallotGeneral.__call__
                 converter_ballot.ConverterBallotGeneral.default x None)
         ballots;
  Ok (mk bs (default (replicate (length bs) 1) weights)
            (default (replicate (length bs) None) voters)).

(** [profile.items()] *)
Definition items (p : t) : list (Ballot * Qc * option string) :=
  zip (zip (ballots p) (weights p)) (voters p).

End Profile.

(** The message of [_check_profile]. *)
Definition warning_candidates : string :=
  "Some ballots do not have the same set of candidates as the whole election.".

(** ** [rule/Rule.py]

    Loading a profile updates the rule and may write to the log: [__call__]
    takes the log so far and returns the rule together with the new log. *)
Module Rule.

Record t : Type := mk {
  tie_break : Priority.t;
  converter : pyobj → option (gset string) → result Ballot;
  profile_original_ : option Profile.t;
  profile_converted_ : option Profile.t;
  candidates_ : option (gset string)
}.

(** [logging.warning] appends to the log when some converted ballot does
    not have the candidates of the election. *)
Definition _check_profile (self : t) (candidates : gset string)
    (log : list string) : list string :=
  match profile_converted_ self with
  | Some p =>
      if existsb (λ b, bool_decide (Ballot_candidates b ≠ candidates))
                 (Profile.ballots p)
      then log ++ [warning_candidates]
      else log
  | None => log
  end.

Definition __call__ (self : t) (ballots : list pyobj)
    (weights : option (list Qc)) (voters : option (list (option string)))
    (candidates : option (gset string)) (log : list string)
    : result (t * list string) :=
  profile_original ← Profile.__init__ ballots weights voters;
  converted ← Profile.convert_all
                (λ b, converter self b candidates)
                (PyBallot <$> Profile.ballots profile_original);
  let profile_converted :=
    Profile.mk converted (Profile.weights profile_original)
               (Profile.voters profile_original) in
  let candidates :=
    match candidates with
    | None => ⋃ (Ballot_candidates <$> Profile.ballots profile_converted)
    | Some cs => cs
    end in
  let self := mk (tie_break self) (converter self)
                 (Some profile_original) (Some profile_converted)
                 (Some candidates) in
  Ok (self, _check_profile self candidates log).

End Rule.

(** ** [matrix/Matrix.py] *)
Module Matrix.

Record t : Type := mk {
  converter : pyobj → option (gset string) → result Ballot;
  profile_ : option Profile.t;
  profile_converted_ : option Profile.t;
  candidates_ : option (gset string)
}.

Definition _check_profile (self : t) (candidates : gset string)
    (log : list string) : list string :=
  match profile_converted_ self with
  | Some p =>
      if existsb (λ b, bool_decide (Ballot_candidates b ≠ candidates))
                 (Profile.ballots p)
      then log ++ [warning_candidates]
      else log
  | None => log
  end.

Definition __call__ (self : t) (ballots : list pyobj)
    (weights : option (list Qc)) (voters : option (list (option string)))
    (candidates : option (gset string)) (log : list string)
    : result (t * list string) :=
  profile ← Profile.__init__ ballots weights voters;
  converted ← Profile.convert_all
                (λ b, converter self b candidates)
                (PyBallot <$> Profile.ballots profile);
  let profile_converted :=
    Profile.mk converted (Profile.weights profile)
               (Profile.voters profile) in
  let candidates :=
    match candidates with
    | None => ⋃ (Ballot_candidates <$> Profile.ballots profile_converted)
    | Some cs => cs
    end in
  let self := mk (converter self)
                 (Some profile) (Some profile_converted)
                 (Some candidates) in
  Ok (self, _check_profile self candidates log).

End Matrix.

(** ** Scales as orderings

    The operations of a scale that the rules use, over the domain [L] of
    the scale: [lt], [gt] and [argsort]. *)
Class ScaleOps (L : Type) : Type := {
  scale_lt : L → L → bool;
  scale_gt : L → L → bool;
  scale_argsort : list L → list nat
}.

(** [sorted(indexes, key=key)]: a stable insertion sort on keys in [Qc]. *)
Fixpoint insert_by_key (key : nat → Qc) (i : nat) (l : list nat)
    : list nat :=
  match l with
  | [] => [i]
  | j :: l' =>
      if decide (key j < key i) then j :: insert_by_key key i l'
      else i :: l
  end.

Definition sorted_by_key (key : nat → Qc) (l : list nat) : list nat :=
  foldr (insert_by_key key) [] l.

(** [scale/ScaleInterval.py]: [argsort] sorts the indexes by their level;
    [lt] and [gt], inherited from the base scale, are the comparisons of
    numbers. *)
Global Instance ScaleInterval_ops : ScaleOps Qc := {
  scale_lt a b := bool_decide (a < b);
  scale_gt a b := bool_decide (b < a);
  scale_argsort some_list :=
    sorted_by_key (λ i, default 0 (some_list !! i))
                  (seq 0 (length some_list))
}.

(** ** [rule/RuleMajorityJudgment.py] *)
Module RuleMajorityJudgment.
Section with_scale.

Context {L : Type} `{!ScaleOps L} `{!EqDecision L}.
(** The type of the converted ballots *)
Context {B : Type}.

(** A score is a tuple [(median, x, y)]; the median of a candidate
    without evaluation is [default_median], possibly [None]. *)
Definition score : Type := option L * Qc * Qc.

Record t : Type := mk {
  scorer : B → option string → gset string → gmap string L;
  default_median : option L;
  tie_break : Priority.t;
  profile_converted_ : list (B * Qc * option string);
  candidates_ : gset string
}.

(** [levels_[c].append(level); weights_[c].append(weight)] *)
Definition append (st : gmap string (list L) * gmap string (list Qc))
    (c : string) (level : L) (weight : Qc)
    : result (gmap string (list L) * gmap string (list Qc)) :=
  match st.1 !! c, st.2 !! c with
  | Some ls, Some ws =>
      Ok (<[c := ls ++ [level]]> st.1, <[c := ws ++ [weight]]> st.2)
  | _, _ => Raise KeyError
  end.

(** The first loop of [scores_]: the levels and weights that each
    candidate receives, in the order of the profile. *)
Fixpoint collect_ballot (items : list (string * L)) (weight : Qc)
    (st : gmap string (list L) * gmap string (list Qc))
    : result (gmap string (list L) * gmap string (list Qc)) :=
  match items with
  | [] => Ok st
  | (c, level) :: items' =>
      st' ← append st c level weight; collect_ballot items' weight st'
  end.

Fixpoint collect (self : t) (profile : list (B * Qc * option string))
    (st : gmap string (list L) * gmap string (list Qc))
    : result (gmap string (list L) * gmap string (list Qc)) :=
  match profile with
  | [] => Ok st
  | (ballot, weight, voter) :: profile' =>
      st' ← collect_ballot
              (map_to_list (scorer self ballot voter (candidates_ self)))
              weight st;
      collect self profile' st'
  end.

(** [[some_list[i] for i in indexes]] *)
Fixpoint reorder {A : Type} (some_list : list A) (indexes : list nat)
    : result (list A) :=
  match indexes with
  | [] => Ok []
  | i :: indexes' =>
      match some_list !! i with
      | Some x => r ← reorder some_list indexes'; Ok (x :: r)
      | None => Raise IndexError
      end
  end.

(** The loop that looks for the median: it stops at the first index at
    which the cumulative weight reaches half of the total weight.  The
    weights are exact numbers here; [binary64.find_median] is the same
    loop on floats. *)
Fixpoint find_median (levels : list L) (weights : list Qc)
    (cumulative_weight half_total_weight : Qc) : option L :=
  match weights, levels with
  | weight :: weights', level :: levels' =>
      let cumulative_weight := cumulative_weight + weight in
      if decide (half_total_weight ≤ cumulative_weight) then Some level
      else find_median levels' weights' cumulative_weight half_total_weight
  | _, _ => None
  end.

Definition sum (l : list Qc) : Qc := foldl Qcplus 0 l.

(** [[weights[i] for i, level in enumerate(levels) if test level]] *)
Fixpoint select (test : L → bool) (levels : list L) (i : nat)
    (weights : list Qc) : result (list Qc) :=
  match levels with
  | [] => Ok []
  | level :: levels' =>
      if test level then
        match weights !! i with
        | Some w => r ← select test levels' (S i) weights; Ok (w :: r)
        | None => Raise IndexError
        end
      else select test levels' (S i) weights
  end.

(** The body of the second loop of [scores_], for a candidate that has
    received [levels] with [weights]: first the part after the test
    [if not levels_[c]], then the whole body.  Comparing a level with a
    median left at [None] fails. *)
Definition score_of_evaluated (self : t) (levels : list L)
    (weights : list Qc) : result score :=
  let indexes := scale_argsort levels in
  levels ← reorder levels indexes;
  weights ← reorder weights indexes;
  let total_weight := sum weights in
  let half_total_weight := total_weight / 2 in
  match find_median levels weights 0 half_total_weight with
  | None => Raise TypeError
  | Some median =>
      ps ← select (λ level, scale_gt level median) levels 0 weights;
      qs ← select (λ level, scale_lt level median) levels 0 weights;
      let p := sum ps in
      let q := sum qs in
      if decide (q < p) then
        x ← py_truediv p total_weight;
        y ← py_truediv (- q) total_weight;
        Ok (Some median, x, y)
      else
        x ← py_truediv (- q) total_weight;
        y ← py_truediv p total_weight;
        Ok (Some median, x, y)
  end.

Definition score_of (self : t) (levels : list L) (weights : list Qc)
    : result score :=
  match levels with
  | [] => Ok (default_median self, 0, 0)
  | _ => score_of_evaluated self levels weights
  end.

Definition scores_ (self : t) : result (gmap string score) :=
  st ← collect self (profile_converted_ self)
         (gset_to_gmap [] (candidates_ self),
          gset_to_gmap [] (candidates_ self));
  set_comprehension
    (λ c, match st.1 !! c, st.2 !! c with
          | Some levels, Some weights => score_of self levels weights
          | _, _ => Raise KeyError
          end)
    (candidates_ self).

(** [scale.lt] and [scale.gt] on medians; [None] is not comparable. *)
Definition median_lt (one another : option L) : result bool :=
  match one, another with
  | Some a, Some b => Ok (scale_lt a b)
  | _, _ => Raise TypeError
  end.

Definition median_gt (one another : option L) : result bool :=
  match one, another with
  | Some a, Some b => Ok (scale_gt a b)
  | _, _ => Raise TypeError
  end.

(** [(x1, y1) < (x2, y2)] on tuples of numbers *)
Definition pair_lt (a b : Qc * Qc) : bool :=
  bool_decide (a.1 < b.1) || (bool_decide (a.1 = b.1) && bool_decide (a.2 < b.2)).

Definition compare_scores (one another : score) : result Z :=
  if decide (one = another) then Ok 0%Z
  else
    lower ← median_lt one.1.1 another.1.1;
    if lower : bool then Ok (-1)%Z
    else
      higher ← median_gt one.1.1 another.1.1;
      if higher : bool then Ok 1%Z
      else
        Ok (if pair_lt (one.1.2, one.2) (another.1.2, another.2)
            then (-1)%Z else 1%Z).





(** *** The score of a candidate, as the documentation words it *)

(** The (level, weight) pairs that candidate [c] receives from a list of
    weighted ballots, and from the whole profile. *)
Definition pairs_in (self : t) (profile : list (B * Qc * option string))
    (c : string) : list (L * Qc) :=
  omap (λ '(ballot, weight, voter),
          (λ level, (level, weight))
            <$> (scorer self ballot voter (candidates_ self) !! c))
       profile.

Definition pairs_of (self : t) (c : string) : list (L * Qc) :=
  pairs_in self (profile_converted_ self) c.

(** The pairs that [c] receives from the items of one ballot. *)
Definition received (items : list (string * L)) (weight : Qc) (c : string)
    : list (L * Qc) :=
  (λ cl, (cl.2, weight)) <$> filter (λ cl, cl.1 = c) items.

(** The dictionaries [st] of the first loop hold the pairs [g c] of every
    candidate [c] of [cands], and nothing else. *)
Definition holds (cands : gset string)
    (st : gmap string (list L) * gmap string (list Qc))
    (g : string → list (L * Qc)) : Prop :=
  ∀ c : string,
    st.1 !! c = (if decide (c ∈ cands) then Some (g c).*1 else None)
    ∧ st.2 !! c = (if decide (c ∈ cands) then Some (g c).*2 else None).

(** The scorer only scores candidates of the election. *)
Definition scores_candidates (self : t)
    (profile : list (B * Qc * option string)) : Prop :=
  Forall (λ '(ballot, weight, voter),
            dom (scorer self ballot voter (candidates_ self))
            ⊆ candidates_ self)
         profile.

Definition total_weight (pairs : list (L * Qc)) : Qc :=
  foldr (λ lw acc, lw.2 + acc) 0 pairs.

(** [l] is sorted by the ordering of the scale. *)
Definition sorted_by_scale (l : list L) : Prop :=
  StronglySorted (λ a b, scale_lt b a = false) l.

(** [m] is the first level of [sorted] at which the cumulative weight
    reaches half of the total weight. *)
Definition weighted_median (sorted : list (L * Qc)) (m : L) : Prop :=
  ∃ (i : nat) (w : Qc),
    sorted !! i = Some (m, w)
    ∧ total_weight sorted / 2 ≤ total_weight (take (S i) sorted)
    ∧ ∀ j : nat, (j < i)%nat →
        total_weight (take (S j) sorted) < total_weight sorted / 2.

(** The weighted proportions of levels strictly above / below [m]. *)
Definition proportion_above (m : L) (pairs : list (L * Qc)) : Qc :=
  total_weight (filter (λ lw, scale_gt lw.1 m = true) pairs)
  / total_weight pairs.

Definition proportion_below (m : L) (pairs : list (L * Qc)) : Qc :=
  total_weight (filter (λ lw, scale_lt lw.1 m = true) pairs)
  / total_weight pairs.

Definition tuple_score (m : L) (p q : Qc) : score :=
  if decide (q < p) then (Some m, p, - q) else (Some m, - q, p).

(** The score that the documentation assigns to [c]. *)
Definition documented_score (self : t) (c : string) (s : score) : Prop :=
  match pairs_of self c with
  | [] => s = (default_median self, 0, 0)
  | _ =>
      ∃ (sorted : list (L * Qc)) (m : L),
        sorted ≡ₚ pairs_of self c
        ∧ sorted_by_scale sorted.*1
        ∧ weighted_median sorted m
        ∧ s = tuple_score m (proportion_above m (pairs_of self c))
                            (proportion_below m (pairs_of self c))
  end.

(** The laws of a scale: [gt] is the converse of [lt], [lt] is a strict
    weak ordering, and [argsort] returns a permutation of the indexes
    that sorts the levels. *)
Record ScaleLaws : Prop := {
  gt_lt : ∀ a b : L, scale_gt a b = scale_lt b a;
  lt_irrefl : ∀ a : L, scale_lt a a = false;
  lt_trans : ∀ a b c : L,
    scale_lt a b = true → scale_lt b c = true → scale_lt a c = true;
  lt_incomparable : ∀ a b c : L,
    scale_lt a b = false → scale_lt b c = false → scale_lt a c = false;
  argsort_perm : ∀ l : list L, scale_argsort l ≡ₚ seq 0 (length l);
  argsort_sorted : ∀ l sorted : list L,
    reorder l (scale_argsort l) = Ok sorted → sorted_by_scale sorted
}.

End with_scale.

Arguments t : clear implicits.
Arguments score : clear implicits.

End RuleMajorityJudgment.

(** Modelled from the spec: the class [ScorerLevels], whose file is
    missing; it scores each candidate with the level that the ballot gives
    it. *)
Definition ScorerLevels (ballot : gmap string Qc) (voter : option string)
    (candidates : gset string) : gmap string Qc := ballot.

(** The profile of the documentation of [RuleMajorityJudgment]: four
    ballots of weight 1 with float evaluations, already converted. *)
Definition rule_doc : RuleMajorityJudgment.t Qc (gmap string Qc) :=
  RuleMajorityJudgment.mk ScorerLevels None Priority.UNAMBIGUOUS
    [ ({[ "a" := 1; "b" := 1 ]}, 1, None);
      ({[ "a" := Q2Qc (5 # 10); "b" := Q2Qc (6 # 10) ]}, 1, None);
      ({[ "a" := Q2Qc (5 # 10); "b" := Q2Qc (4 # 10) ]}, 1, None);
      ({[ "a" := Q2Qc (3 # 10); "b" := Q2Qc (2 # 10) ]}, 1, None) ]
    {[ "a"; "b" ]}.

(** The inputs of the documented examples of the converters. *)
Definition unit_interval : Scale := ScaleInterval (LFloat 0) (LFloat 1).

Definition to_unit_interval (borda_unordered_give_points : bool)
    : ConverterBallotToLevelsInterval.t :=
  ConverterBallotToLevelsInterval.mk unit_interval (LFloat 0) (LFloat 1)
    borda_unordered_give_points.

Definition order_abc_of_abcde : BallotOrder.t :=
  BallotOrder.mk [ {["a"]}; {["b"]}; {["c"]} ] {[ "a"; "b"; "c"; "d"; "e" ]}.

Definition order_a_alone : BallotOrder.t :=
  BallotOrder.mk [ {["a"]} ] {[ "a" ]}.

Definition order_a_of_abc : BallotOrder.t :=
  BallotOrder.mk [ {["a"]} ] {[ "a"; "b"; "c" ]}.

Definition veto_a_of_abc : BallotOneName.t :=
  BallotOneName.mk (Some "a") {[ "a"; "b"; "c" ]}.

(** A profile of two orders that do not declare the same candidates, and a
    rule and a matrix that convert ballots with the general converter. *)
Definition two_orders : list pyobj :=
  [ PyBallot (Order (BallotOrder.mk [ {["a"]}; {["b"]} ] {[ "a"; "b" ]}));
    PyBallot (Order order_a_of_abc) ].

Definition general_converter (x : pyobj) (candidates : option (gset string))
    : result Ballot :=
  converter_ballot.ConverterBallotGeneral.__call__
    converter_ballot.ConverterBallotGeneral.default x candidates.

Definition rule_unloaded : Rule.t :=
  Rule.mk Priority.UNAMBIGUOUS general_converter None None None.

Definition matrix_unloaded : Matrix.t :=
  Matrix.mk general_converter None None None.

(** The candidates of the election: those given, or else the union of the
    candidates of the converted ballots. *)
Definition election_candidates (candidates : option (gset string))
    (converted : list Ballot) : gset string :=
  match candidates with
  | None => ⋃ (Ballot_candidates <$> converted)
  | Some cs => cs
  end.

(** [c] is kept by a restriction to [candidates] ([None]: no restriction). *)
Definition kept (candidates : option (gset string)) (c : string) : Prop :=
  match candidates with
  | None => True
  | Some cs => c ∈ cs
  end.

Global Instance kept_dec candidates c : Decision (kept candidates c).
Proof. destruct candidates; cbn; apply _. Defined.

(** *** The Bucklin distribution in closed form *)

(** What is left of [k] points once [served] candidates have had theirs. *)
Definition budget (k : Z) (served : nat) : Qc :=
  if decide (Z.of_nat served ≤ k)%Z then Qc_of_Z (k - Z.of_nat served)
  else 0.

(** The points of each member of a group of [n] candidates that is served
    from [points]: one point if the group fits, an even share otherwise. *)
Definition share (points : Qc) (n : nat) : Qc :=
  if decide (Qc_of_Z (Z.of_nat n) ≤ points) then 1
  else points / Qc_of_Z (Z.of_nat n).

(** The number of candidates in the first [i] classes of [w]. *)
Definition ranked_before (w : list (gset string)) (i : nat) : nat :=
  sum_list (size <$> take i w).

(** The indifference classes of [w] are pairwise disjoint. *)
Definition disjoint_classes (w : list (gset string)) : Prop :=
  ∀ (i j : nat) (cl cl' : gset string),
    i ≠ j → w !! i = Some cl → w !! j = Some cl' → cl ## cl'.

(** The number of candidates served before the absent ones. *)
Definition served_before_absent (self : ScorerBucklin.t) : nat :=
  let w := BallotOrder.as_weak_order (ScorerBucklin.ballot_ self) in
  (ranked_before w (length w)
   + match ScorerBucklin.unordered_receive_points self with
     | Some true =>
         size (BallotOrder.candidates_not_in_b (ScorerBucklin.ballot_ self))
     | _ => 0
     end)%nat.

(** *** Well-formed inputs of the converters to levels *)

(** The number [q] is the value of the level [v]. *)
Definition has_value (v : level) (q : Qc) : Prop := number v = Ok q.

(** The level [v] is a number between [lo] and [hi]. *)
Definition within (lo hi : Qc) (v : level) : Prop :=
  ∃ q : Qc, has_value v q ∧ lo ≤ q ∧ q ≤ hi.

(** The evaluations [d] lie within the bounds of their scale [s]: on an
    interval or a range, the bounds and the evaluations are numbers and
    every evaluation is between the bounds; on a list of numbers, every
    evaluation that is a number is between the first and the last level. *)
Definition within_scale (s : Scale) (d : gmap string level) : Prop :=
  match s with
  | ScaleBase => True
  | ScaleInterval lo hi | ScaleRange lo hi =>
      ∃ a b : Qc, has_value lo a ∧ has_value hi b
                  ∧ ∀ c v, d !! c = Some v → within a b v
  | ScaleFromList _ | ScaleFromSet _ =>
      ∀ lo hi a b, Scale_.low s = Ok lo → Scale_.high s = Ok hi →
                   has_value lo a → has_value hi b →
                   ∀ c v q, d !! c = Some v → has_value v q → a ≤ q ∧ q ≤ b
  end.

(** A ballot respects the invariants of its class: the classes of an
    order are disjoint and made of declared candidates; the evaluations of
    a levels ballot lie within the bounds of its scale. *)
Definition well_formed (b : Ballot) : Prop :=
  match b with
  | Order o =>
      disjoint_classes (BallotOrder.as_weak_order o)
      ∧ BallotOrder.candidates_in_b o ⊆ BallotOrder.candidates o
  | Levels l =>
      ∀ s, BallotLevels.scale l = Ok s → within_scale s (BallotLevels.as_dict l)
  | _ => True
  end.

(** Every evaluation of the ballot is a number between [lo] and [hi]. *)
Definition levels_within (lo hi : Qc) (b : Ballot) : Prop :=
  match b with
  | Levels l => ∀ c v, BallotLevels.as_dict l !! c = Some v → within lo hi v
  | _ => False
  end.

(** Every evaluation of the ballot is a level of the list [ls], hence
    between its first and its last level in the order of the list. *)
Definition levels_among (ls : list level) (b : Ballot) : Prop :=
  match b with
  | Levels l =>
      ∀ c v, BallotLevels.as_dict l !! c = Some v →
             ∃ i : nat, ls !! i = Some v ∧ (i ≤ length ls - 1)%nat
  | _ => False
  end.

(** *** The points that a Bucklin scorer hands out *)

(** The state of the loop of [scores_] is sound: every score is between
    0 and 1 and the points that remain are not negative. *)
Definition points_ok (st : gmap string Qc * Qc) : Prop :=
  (∀ (c : string) (x : Qc), st.1 !! c = Some x → 0 ≤ x ∧ x ≤ 1)
  ∧ 0 ≤ st.2.

(** *** Stable sorting *)

(** The indexes [i] and [j] are in the order of a stable sort by [key]:
    by key first, and by index among equal keys. *)
Definition stable_order (key : nat → Qc) (i j : nat) : Prop :=
  key i < key j ∨ (key i = key j ∧ (i < j)%nat).

(** Reading [some_list] through [indexes] gives its levels in increasing
    order, equal levels in the order of the list. *)
Definition stably_sorted (some_list : list Qc) (indexes : list nat)
    : Prop :=
  ∀ (p q i j : nat) (x y : Qc),
    (p < q)%nat → indexes !! p = Some i → indexes !! q = Some j →
    some_list !! i = Some x → some_list !! j = Some y →
    x < y ∨ (x = y ∧ (i < j)%nat).

(** *** The natural ordering of evaluations *)





(** *** Affine rescaling *)



(** The candidates [X] of a ballot, once restricted to [candidates]. *)
Definition restricted (X : gset string) (candidates : option (gset string))
    : gset string :=
  match candidates with
  | None => X
  | Some cs => X ∩ cs
  end.

(** The ballot [{'a': 5}], whose inferred scale is the range from 5
    to 5. *)
Definition levels_a_5 : BallotLevels.t :=
  BallotLevels.__init__ {[ "a" := LInt 5 ]} None None.


(** [out] is a levels ballot on the scale [sc], with the declared
    candidates [X]. *)
Definition levels_on (sc : Scale) (X : gset string) (out : Ballot) : Prop :=
  ∃ l : BallotLevels.t,
    out = Levels l
    ∧ BallotLevels._input_scale l = Some sc
    ∧ BallotLevels.candidates l = X.

(** The veto ballot against a among a, b and c. *)
Definition veto_a_abc : Ballot :=
  Veto (BallotOneName.mk (Some "a") {[ "a"; "b"; "c" ]}).

(** The level of the target interval from [L] to [H] that stands where
    the label [v] stands in the list [ls]. *)
Definition by_index (L H : Qc) (ls : list level) (v : level)
    : option level :=
  match Scale_.index_from 0 v ls with
  | Some i =>
      Some (LFloat (L + (H - L) * Qc_of_Z (Z.of_nat i)
                         / Qc_of_Z (Z.of_nat (length ls) - 1)))
  | None => None
  end.

(** The verbal ballot of the documentation of
    [ConverterBallotToLevelsInterval], and its scale. *)
Definition appreciations : list level :=
  [ LStr "Bad"; LStr "Medium"; LStr "Good"; LStr "Very Good";
    LStr "Excellent" ].

Definition levels_verbal : BallotLevels.t :=
  BallotLevels.__init__
    {[ "a" := LStr "Excellent"; "b" := LStr "Very Good" ]}
    (Some {[ "a"; "b"; "c" ]}) (Some (ScaleFromList appreciations)).

(** A converter of a missing file, that no example calls. *)
Definition missing_converter (scale : Scale)
    (borda_unordered_give_points : bool) (x : pyobj)
    (candidates : option (gset string)) : result Ballot :=
  Raise NotImplementedError.

(** The converter that a non-empty scale [sc] selects in
    [ConverterBallotToLevels.__init__], applied to [x]. *)
Definition selected_converter
    (Range_call ListNumeric_call :
       Scale → bool → pyobj → option (gset string) → result Ballot)
    (sc : Scale) (borda_unordered_give_points : bool) (x : pyobj)
    (candidates : option (gset string)) : result Ballot :=
  match sc with
  | ScaleInterval lo hi =>
      ConverterBallotToLevelsInterval.__call__
        (ConverterBallotToLevelsInterval.mk
           sc lo hi borda_unordered_give_points) x candidates
  | ScaleRange _ _ =>
      Range_call sc borda_unordered_give_points x candidates
  | ScaleFromList ls | ScaleFromSet ls =>
      if forallb is_number ls then
        ListNumeric_call sc borda_unordered_give_points x candidates
      else
        ConverterBallotToLevelsListNonNumeric_call Range_call
          (ConverterBallotToLevelsListNonNumeric_init
             sc borda_unordered_give_points) x candidates
  | ScaleBase => Raise NotImplementedError
  end.

(** *** The order of the scores on an interval scale *)

(** The score with median [s.1.1] and proportions [s.1.2] and [s.2]. *)
Definition with_median (s : Qc * Qc * Qc) : RuleMajorityJudgment.score Qc :=
  (Some s.1.1, s.1.2, s.2).

(** The lexicographic order of the scores with a median. *)
Definition score_lt (one another : Qc * Qc * Qc) : Prop :=
  one.1.1 < another.1.1
  ∨ (one.1.1 = another.1.1
     ∧ (one.1.2 < another.1.2
        ∨ (one.1.2 = another.1.2 ∧ one.2 < another.2))).

(** ** [rule/RuleSimplifiedDodgson.py] *)
Module RuleSimplifiedDodgson.

(** The weighted majority matrix, once it is computed on the profile:
    its coefficients [as_dict_], indexed by pairs of candidates, and its
    candidates. *)
Record matrix : Type := mk_matrix {
  as_dict_ : gmap (string * string) Qc;
  candidates_ : gset string
}.

(** [[v for (i, j), v in matrix.as_dict_.items()
       if i == c and j != c and v < 0]] *)
Definition losses (m : matrix) (c : string) : list Qc :=
  (filter (λ ijv : string * string * Qc,
             ijv.1.1 = c ∧ ijv.1.2 ≠ c ∧ ijv.2 < 0)
          (map_to_list (as_dict_ m))).*2.

Definition scores_ (matrix_weighted_majority_ : matrix) : gmap string Qc :=
  set_to_map
    (λ c, (c, RuleMajorityJudgment.sum (losses matrix_weighted_majority_ c)))
    (candidates_ matrix_weighted_majority_).

End RuleSimplifiedDodgson.

(** The matrix of the documentation of [RuleSimplifiedDodgson]. *)
Definition matrix_doc : RuleSimplifiedDodgson.matrix :=
  RuleSimplifiedDodgson.mk_matrix
    (list_to_map
       [ (("a", "a"), 0); (("a", "b"), Q2Qc (1 # 4));
         (("a", "c"), Q2Qc (1 # 2));
         (("b", "a"), Q2Qc (-1 # 4)); (("b", "b"), 0);
         (("b", "c"), Q2Qc (1 # 2));
         (("c", "a"), Q2Qc (-1 # 2)); (("c", "b"), Q2Qc (-1 # 2));
         (("c", "c"), 0) ])
    {[ "a"; "b"; "c" ]}.

(** Two profiles on which [RuleMajorityJudgment.scores_] fails: a ballot
    that evaluates a candidate z who is not in the election, and a ballot
    of weight 0. *)
Definition rule_foreign : RuleMajorityJudgment.t Qc (gmap string Qc) :=
  RuleMajorityJudgment.mk ScorerLevels None Priority.UNAMBIGUOUS
    [ ({[ "z" := 1 ]}, 1, None) ] {[ "a" ]}.

Definition rule_weightless : RuleMajorityJudgment.t Qc (gmap string Qc) :=
  RuleMajorityJudgment.mk ScorerLevels None Priority.UNAMBIGUOUS
    [ ({[ "a" := 1 ]}, 0, None) ] {[ "a" ]}.

(** Two of the ballots do not declare the same candidates. *)
Definition disagree (converted : list Ballot) : Prop :=
  ∃ b b' : Ballot,
    b ∈ converted ∧ b' ∈ converted
    ∧ Ballot_candidates b ≠ Ballot_candidates b'.

Global Instance disagree_dec converted : Decision (disagree converted).
Proof.
  destruct (decide (Exists (λ b, Exists (λ b', Ballot_candidates b
                                                ≠ Ballot_candidates b')
                                   converted) converted)) as [Hyes|Hno].
  - left. apply Exists_exists in Hyes as (b & Hb & Hyes).
    apply Exists_exists in Hyes as (b' & Hb' & Hne). by exists b, b'.
  - right. intros (b & b' & Hb & Hb' & Hne). apply Hno.
    apply Exists_exists. exists b. split; [done|].
    apply Exists_exists. by exists b'.
Defined.

(** ** [scorer/Scorer.py] *)
Module Scorer.

Record t : Type := mk {
  scale : Scale;
  ballot_ : option Ballot;
  voter_ : option string;
  candidates_ : option (gset string)
}.

(** [__call__] loads its arguments. *)
Definition __call__ (self : t) (ballot : Ballot) (voter : option string)
    (candidates : option (gset string)) : t :=
  mk (scale self) (Some ballot) voter candidates.

(** [__init__]: a scorer without scale gets the base scale [Scale()]. *)
Definition __init__ (ballot : option Ballot) (voter : option string)
    (candidates : option (gset string)) (scale : option Scale) : t :=
  let scale := match scale with
               | None => ScaleBase
               | Some s => s
               end in
  let self := mk scale None None None in
  match ballot with
  | Some b => __call__ self b voter candidates
  | None => self
  end.

End Scorer.

(** ** [RuleMajorityJudgment.__init__]

    The parameters that the constructor sets before it calls
    [Rule.__init__].  The keyword arguments [kwargs] map a name to the
    scale that it carries, if any; the class [ScorerLevels], whose file is
    missing, is a parameter; a converter is either given ([inl]) or built
    by [ConverterBallotToLevels] ([inr]). *)
Record RuleMajorityJudgment_parameters : Type :=
  mk_RuleMajorityJudgment_parameters {
    parameters_scorer : Scorer.t;
    parameters_default_median : option level;
    parameters_converter :
      (pyobj → option (gset string) → result Ballot)
      + ConverterBallotToLevels
  }.

Definition RuleMajorityJudgment_init
    (ScorerLevels_init : option Scale → Scorer.t)
    (converter : option (pyobj → option (gset string) → result Ballot))
    (scorer : option Scorer.t) (default_median : option level)
    (kwargs : gmap string (option Scale))
    : result RuleMajorityJudgment_parameters :=
  let scale := match kwargs !! "scale" with
               | Some s => s
               | None => None
               end in
  let kwargs := delete "scale" kwargs in
  if decide (kwargs ≠ ∅) then Raise ValueError
  else
    let scorer := match scorer with
                  | None => ScorerLevels_init scale
                  | Some s => s
                  end in
    converter ← match converter with
                | None =>
                    c ← ConverterBallotToLevels_init
                          (Some (Scorer.scale scorer)) true;
                    Ok (inr c)
                | Some c => Ok (inl c)
                end;
    Ok (mk_RuleMajorityJudgment_parameters scorer default_median converter).

(** [levels[v]] for an integer [v] within the bounds of the list: the
    label at index [v], counted from the end when [v] is negative. *)
Definition label_at (ls : list level) (v : level) : option level :=
  match v with
  | LInt z => ls !! Z.to_nat (z mod Z.of_nat (length ls))
  | _ => None
  end.

(** A levels ballot of ranks, and a stand-in for the range converter, whose
    file is missing, that answers with it. *)
Definition ranks_4_and_last : BallotLevels.t :=
  BallotLevels.__init__ {[ "a" := LInt 4; "b" := LInt (-1) ]}
    (Some {[ "a"; "b"; "c" ]}) (Some (ScaleRange (LInt 0) (LInt 4))).

Definition ranks_converter (scale : Scale)
    (borda_unordered_give_points : bool) (x : pyobj)
    (candidates : option (gset string)) : result Ballot :=
  Ok (Levels ranks_4_and_last).

(** *** The preferences that an order expresses *)



(** ** Binary64 arithmetic

    The model above computes with exact rationals.  Where the code rounds
    a float the two can part: this module evaluates the arithmetic of
    [ConverterBallotToLevelsInterval.__call__] and of
    [RuleMajorityJudgment.scores_] as Python does, on ints and on IEEE 754
    binary64 floats (the primitive floats of Rocq). *)
Module binary64.

(** A Python number: an [int] or a [float]. *)
Inductive num : Set :=
| Int (z : Z)
| Float (f : float).

(** [float(z)], the nearest float: the conversion that an int operand
    undergoes when the other operand is a float (an int beyond the range
    of floats, on which Python raises [OverflowError], becomes an
    infinity here). *)
Definition of_int (z : Z) : float :=
  SF2Prim (binary_normalize prec emax z 0 false).

Definition to_float (x : num) : float :=
  match x with
  | Int z => of_int z
  | Float f => f
  end.

(** [x + y], [x - y], [x * y] and [-x]: exact on ints, rounded to the
    nearest float as soon as one operand is a float. *)
Definition add (x y : num) : num :=
  match x, y with
  | Int a, Int b => Int (a + b)
  | _, _ => Float (to_float x + to_float y)
  end.

Definition sub (x y : num) : num :=
  match x, y with
  | Int a, Int b => Int (a - b)
  | _, _ => Float (to_float x - to_float y)
  end.

Definition mul (x y : num) : num :=
  match x, y with
  | Int a, Int b => Int (a * b)
  | _, _ => Float (to_float x * to_float y)
  end.

Definition neg (x : num) : num :=
  match x with
  | Int a => Int (- a)
  | Float f => Float (- f)
  end.

Definition is_zero (x : num) : bool :=
  match x with
  | Int z => bool_decide (z = 0%Z)
  | Float f => PrimFloat.eqb f 0
  end.

(** An int as an unrounded binary number. *)
Definition unrounded (z : Z) : spec_float :=
  match z with
  | Z0 => S754_zero false
  | Zpos m => S754_finite false m 0
  | Zneg m => S754_finite true m 0
  end.

(** [x / y]: the quotient is a float; on two ints it is the float nearest
    to their quotient, otherwise the quotient of the operands as
    floats. *)
Definition truediv (x y : num) : result num :=
  if is_zero y then Raise ZeroDivisionError
  else
    match x, y with
    | Int a, Int b =>
        Ok (Float (SF2Prim (SFdiv prec emax (unrounded a) (unrounded b))))
    | _, _ => Ok (Float (to_float x / to_float y))
    end.

(** The rational that a finite float stands for. *)
Definition value (f : float) : Qc :=
  match Prim2SF f with
  | S754_finite s m e =>
      Q2Qc (inject_Z (if s then Z.neg m else Z.pos m) * Qpower 2 e)
  | _ => 0
  end.

(** [x < y] and [x <= y]; Python compares an int with a float by their
    values, without rounding the int. *)
Definition int_ltb_float (a : Z) (g : float) : bool :=
  match Prim2SF g with
  | S754_nan => false
  | S754_infinity s => negb s
  | _ => bool_decide (Qc_of_Z a < value g)
  end.

Definition float_ltb_int (f : float) (b : Z) : bool :=
  match Prim2SF f with
  | S754_nan => false
  | S754_infinity s => s
  | _ => bool_decide (value f < Qc_of_Z b)
  end.

Definition ltb (x y : num) : bool :=
  match x, y with
  | Int a, Int b => bool_decide (a < b)%Z
  | Int a, Float g => int_ltb_float a g
  | Float f, Int b => float_ltb_int f b
  | Float f, Float g => PrimFloat.ltb f g
  end.

Definition leb (x y : num) : bool :=
  match x, y with
  | Int a, Int b => bool_decide (a ≤ b)%Z
  | Int a, Float g =>
      match Prim2SF g with
      | S754_nan => false
      | _ => negb (float_ltb_int g a)
      end
  | Float f, Int b =>
      match Prim2SF f with
      | S754_nan => false
      | _ => negb (int_ltb_float b f)
      end
  | Float f, Float g => PrimFloat.leb f g
  end.

(** *** [ConverterBallotToLevelsInterval.__call__], the [try] block *)

(** [low + (high - low) * x / d] *)
Definition affine (low high x d : num) : result num :=
  q ← truediv (mul (sub high low) x) d; Ok (add low q).

(** [{c: self.low + (self.high - self.low) * (v - x.scale.low)
         / (x.scale.high - x.scale.low) for c, v in x.items()}] *)
Definition cardinal (low high x_low x_high : num) (x : gmap string num)
    : result (gmap string num) :=
  dict_comprehension
    (λ c v, affine low high (sub v x_low) (sub x_high x_low)) x.

(** *** [RuleMajorityJudgment.scores_], the score of one candidate *)

(** [sum(l)]: additions from the int 0, from left to right (the builtin
    [sum] up to Python 3.11; later versions compensate the rounding errors
    of a sum of floats, and give the same floats on the lists that are
    evaluated below). *)
Definition sum (l : list num) : num := foldl add (Int 0) l.

Fixpoint find_median {L : Type} (levels : list L) (weights : list num)
    (cumulative_weight half_total_weight : num) : option L :=
  match weights, levels with
  | weight :: weights', level :: levels' =>
      let cumulative_weight := add cumulative_weight weight in
      if leb half_total_weight cumulative_weight then Some level
      else find_median levels' weights' cumulative_weight half_total_weight
  | _, _ => None
  end.

Fixpoint select {L : Type} (test : L → bool) (levels : list L) (i : nat)
    (weights : list num) : result (list num) :=
  match levels with
  | [] => Ok []
  | level :: levels' =>
      if test level then
        match weights !! i with
        | Some w => r ← select test levels' (S i) weights; Ok (w :: r)
        | None => Raise IndexError
        end
      else select test levels' (S i) weights
  end.

(** The body of the second loop of [scores_] for a candidate that has
    received [levels] with [weights]. *)
Definition score_of_evaluated {L : Type} `{!ScaleOps L} (levels : list L)
    (weights : list num) : result (option L * num * num) :=
  let indexes := scale_argsort levels in
  levels ← RuleMajorityJudgment.reorder levels indexes;
  weights ← RuleMajorityJudgment.reorder weights indexes;
  let total_weight := sum weights in
  half_total_weight ← truediv total_weight (Int 2);
  match find_median levels weights (Int 0) half_total_weight with
  | None => Raise TypeError
  | Some median =>
      ps ← select (λ level, scale_gt level median) levels 0 weights;
      qs ← select (λ level, scale_lt level median) levels 0 weights;
      let p := sum ps in
      let q := sum qs in
      if ltb q p then
        x ← truediv p total_weight;
        y ← truediv (neg q) total_weight;
        Ok (Some median, x, y)
      else
        x ← truediv (neg q) total_weight;
        y ← truediv p total_weight;
        Ok (Some median, x, y)
  end.

End binary64.

(** *** Weights for which the arithmetic of [scores_] is exact *)

(** The weights are ints that are not negative.  As long as their total
    is at most 2^53, the sums of [scores_] are exact, and so is
    [total_weight / 2], the half of an int up to 2^53 being a float; sums
    of other float weights are rounded. *)
Definition is_integer (q : Qc) : Prop := Qden q = 1%positive.

Definition integer_weights {B : Type}
    (profile : list (B * Qc * option string)) : Prop :=
  Forall (λ bwv, is_integer bwv.1.2 ∧ 0 ≤ bwv.1.2) profile.

Definition float_exact_bound : Qc := Qc_of_Z (2 ^ 53).





(** The conversion to the interval from 0. to 0.1 of the ballot
    [{'a': 3}] on the range from 0 to 3. *)
Definition to_tenth : ConverterBallotToLevelsInterval.t :=
  ConverterBallotToLevelsInterval.mk
    (ScaleInterval (LFloat 0) (LFloat (binary64.value 0.1)))
    (LFloat 0) (LFloat (binary64.value 0.1)) true.

Definition levels_3_of_0_3 : BallotLevels.t :=
  BallotLevels.mk {[ "a" := LInt 3 ]} {[ "a" ]}
    (Some (ScaleRange (LInt 0) (LInt 3))).

(** * Properties *)

(** A closed equation between computable values is settled by evaluating
    its decision procedure. *)
Ltac by_computation :=
  apply (bool_decide_unpack _); vm_compute; exact I.

(** ** Construction of [ConverterBallotToLevels] *)

Lemma ToLevelsInterval_init_unit (flag : bool) :
  ConverterBallotToLevelsInterval.__init__ unit_interval flag
  = Ok (to_unit_interval flag).
Proof. reflexivity. Qed.

(** C2. The constructor with [scale=None] builds the interval converter in
    its first statement, and then falls into the final [else] of the second
    statement: the construction raises [NotImplementedError], whatever the
    Borda option. *)
Theorem ConverterBallotToLevels_init_None_raises (flag : bool) :
  ConverterBallotToLevels_init None flag = Raise NotImplementedError.
Proof.
  unfold ConverterBallotToLevels_init.
  rewrite ToLevelsInterval_init_unit. reflexivity.
Qed.

(** ** Orders with a degenerate Borda denominator *)

(** C3. On an order ballot that ranks a single candidate, the denominator
    [score_max] is 0 when the candidate is alone in the election, and also
    when unordered candidates give no points: the conversion raises
    [ZeroDivisionError] in both cases; the same single name given as a raw
    input goes through [BallotOneName] and gets the maximal level. *)
Theorem ToLevelsInterval_single_candidate_order :
  (∀ flag : bool,
     ConverterBallotToLevelsInterval.__call__ (to_unit_interval flag)
       (PyBallot (Order order_a_alone)) None
     = Raise ZeroDivisionError)
  ∧ ConverterBallotToLevelsInterval.__call__ (to_unit_interval false)
      (PyBallot (Order order_a_of_abc)) None
    = Raise ZeroDivisionError
  ∧ (∀ flag : bool,
       ConverterBallotToLevelsInterval.__call__ (to_unit_interval flag)
         (PyOther (Ok [ {["a"]} ]) "a") None
       = Ok (Levels (BallotLevels.mk {[ "a" := LFloat 1 ]} {[ "a" ]}
                       (Some unit_interval)))).
Proof.
  split; [|split].
  - intros []; by_computation.
  - by_computation.
  - intros []; by_computation.
Qed.

(** ** Borda-based conversion of an order *)

(** C4. With target scale [Interval(0, 1)], the order [a > b > c] over the
    candidates a, b, c, d, e becomes the levels a: 1, b: 1/2, c: 0 when
    unordered candidates give no points and a: 1, b: 3/4, c: 1/2 when they
    do; d and e get no level in either case. *)
Theorem ToLevelsInterval_order_abc :
  ConverterBallotToLevelsInterval.__call__ (to_unit_interval false)
    (PyBallot (Order order_abc_of_abcde)) None
  = Ok (Levels (BallotLevels.mk
                  {[ "a" := LFloat 1; "b" := LFloat (Q2Qc (1 # 2));
                     "c" := LFloat 0 ]}
                  {[ "a"; "b"; "c"; "d"; "e" ]} (Some unit_interval)))
  ∧ ConverterBallotToLevelsInterval.__call__ (to_unit_interval true)
      (PyBallot (Order order_abc_of_abcde)) None
    = Ok (Levels (BallotLevels.mk
                    {[ "a" := LFloat 1; "b" := LFloat (Q2Qc (3 # 4));
                       "c" := LFloat (Q2Qc (1 # 2)) ]}
                    {[ "a"; "b"; "c"; "d"; "e" ]} (Some unit_interval))).
Proof. split; by_computation. Qed.

(** ** The two copies of the general converter *)




(** ** Restriction composes by intersection *)

Section restriction.

Implicit Types (S T : gset string).

Local Set Warnings "-clear-no-such-hyp".







Lemma BallotLevels_restrict_Some (b : BallotLevels.t) S :
  BallotLevels.restrict b (Some S)
  = s ← BallotLevels.scale b;
    Ok (BallotLevels.mk (filter (λ kv, kv.1 ∈ S) (BallotLevels.as_dict b))
          (BallotLevels.candidates b ∩ S) (Some s)).
Proof. reflexivity. Qed.


Lemma BallotLevels_restrict_scale (b b' : BallotLevels.t) S :
  BallotLevels.restrict b (Some S) = Ok b' →
  BallotLevels.scale b' = BallotLevels.scale b.
Proof.
  rewrite BallotLevels_restrict_Some.
  destruct (BallotLevels.scale b) as [s|e]; [|discriminate].
  cbn. intros [= <-]. reflexivity.
Qed.

End restriction.


(** ** Extremal levels for veto and one-name ballots *)

Section extremal_levels.

Import ConverterBallotToLevelsInterval.

Lemma lookup_set_to_map_key (f : string → level) (X : gset string)
    (c : string) :
  (set_to_map (λ c, (c, f c)) X : gmap string level) !! c
  = if decide (c ∈ X) then Some (f c) else None.
Proof.
  destruct (decide (c ∈ X)) as [Hc|Hc].
  - apply lookup_set_to_map; [by intros ?? _ _ ?|]. by exists c.
  - apply eq_None_not_Some. intros [v Hv].
    apply lookup_set_to_map in Hv as (c' & Hc' & [= -> _]);
      [done|by intros ?? _ _ ?].
Qed.

Lemma levels_restricted_spec (d : gmap string level) (X : gset string)
    (sc : Scale) (candidates : option (gset string)) :
  ∃ l : BallotLevels.t,
    levels_restricted d X sc candidates = Ok (Levels l)
    ∧ BallotLevels._input_scale l = Some sc
    ∧ ∀ c, BallotLevels.as_dict l !! c
           = if decide (kept candidates c) then d !! c else None.
Proof.
  destruct candidates as [cs|]; cbn.
  - eexists. split; [reflexivity|]. split; [reflexivity|].
    intros c. cbn.
    destruct (decide (c ∈ cs)) as [Hc|Hc].
    + destruct (d !! c) as [v|] eqn:Hd.
      * by apply map_lookup_filter_Some.
      * apply map_lookup_filter_None. by left.
    + apply map_lookup_filter_None. right. intros v _. exact Hc.
  - eexists. split; [reflexivity|]. split; [reflexivity|].
    intros c. reflexivity.
Qed.

Lemma call_veto_Some (self : t) (held : string) (X : gset string)
    (candidates : option (gset string)) :
  ∃ l : BallotLevels.t,
    __call__ self (PyBallot (Veto (BallotOneName.mk (Some held) X)))
      candidates = Ok (Levels l)
    ∧ ∀ c, BallotLevels.as_dict l !! c
           = if decide (c ∈ X ∧ kept candidates c)
             then Some (if decide (c = held) then low self else high self)
             else None.
Proof.
  cbn. unfold call_veto. cbn.
  destruct (levels_restricted_spec
              (set_to_map
                 (λ c, (c, if decide (c = held) then low self
                           else high self)) X)
              X (scale self) candidates) as (l & -> & _ & Hl).
  exists l. split; [reflexivity|]. intros c. rewrite Hl.
  rewrite lookup_set_to_map_key.
  destruct (decide (c ∈ X ∧ kept candidates c)) as [[H1 H2]|Hn].
  - rewrite !decide_True by done. reflexivity.
  - destruct (decide (kept candidates c)); [|reflexivity].
    rewrite decide_False by tauto. reflexivity.
Qed.

Lemma call_one_name_Some (self : t) (held : string) (X : gset string)
    (candidates : option (gset string)) (x : Ballot) :
  x = OneName (BallotOneName.mk (Some held) X)
  ∨ x = Plurality (BallotOneName.mk (Some held) X) →
  ∃ l : BallotLevels.t,
    __call__ self (PyBallot x) candidates = Ok (Levels l)
    ∧ ∀ c, BallotLevels.as_dict l !! c
           = if decide (c ∈ X ∧ kept candidates c)
             then Some (if decide (c = held) then high self else low self)
             else None.
Proof.
  intros Hx.
  assert (__call__ self (PyBallot x) candidates
          = call_one_name self (BallotOneName.mk (Some held) X) candidates)
    as -> by (by destruct Hx as [-> | ->]).
  unfold call_one_name. cbn.
  destruct (levels_restricted_spec
              (set_to_map
                 (λ c, (c, if decide (c = held) then high self
                           else low self)) X)
              X (scale self) candidates) as (l & -> & _ & Hl).
  exists l. split; [reflexivity|]. intros c. rewrite Hl.
  rewrite lookup_set_to_map_key.
  destruct (decide (c ∈ X ∧ kept candidates c)) as [[H1 H2]|Hn].
  - rewrite !decide_True by done. reflexivity.
  - destruct (decide (kept candidates c)); [|reflexivity].
    rewrite decide_False by tauto. reflexivity.
Qed.

Lemma call_held_None (self : t) (X : gset string)
    (candidates : option (gset string)) (x : Ballot) :
  x = Veto (BallotOneName.mk None X)
  ∨ x = OneName (BallotOneName.mk None X)
  ∨ x = Plurality (BallotOneName.mk None X) →
  ∃ l : BallotLevels.t,
    __call__ self (PyBallot x) candidates = Ok (Levels l)
    ∧ BallotLevels.as_dict l = ∅.
Proof.
  intros Hx.
  assert (__call__ self (PyBallot x) candidates
          = levels_restricted ∅ X (scale self) candidates)
    as -> by (by destruct Hx as [-> | [-> | ->]]).
  destruct (levels_restricted_spec ∅ X (scale self) candidates)
    as (l & -> & _ & Hl).
  exists l. split; [reflexivity|].
  apply map_eq. intros c. rewrite Hl, lookup_empty. by destruct (decide _).
Qed.

End extremal_levels.

(** C6. The interval converter gives a veto ballot the low bound of the
    scale on the vetoed candidate and the high bound on every other declared
    candidate; it gives a one-name or plurality ballot the high bound on
    the chosen candidate and the low bound on the others (in each case on
    the declared candidates that the requested restriction keeps); a ballot
    that holds [None] becomes an empty mapping; and [Veto('a')] over a, b, c
    becomes a: 0, b: 1, c: 1 on the unit interval. *)
Theorem ToLevelsInterval_extremal_levels :
  (∀ (self : ConverterBallotToLevelsInterval.t) (held : string)
     (X : gset string) (candidates : option (gset string)),
     ∃ l : BallotLevels.t,
       ConverterBallotToLevelsInterval.__call__ self
         (PyBallot (Veto (BallotOneName.mk (Some held) X))) candidates
       = Ok (Levels l)
       ∧ ∀ c, BallotLevels.as_dict l !! c
              = if decide (c ∈ X ∧ kept candidates c)
                then Some (if decide (c = held)
                           then ConverterBallotToLevelsInterval.low self
                           else ConverterBallotToLevelsInterval.high self)
                else None)
  ∧ (∀ (self : ConverterBallotToLevelsInterval.t) (held : string)
       (X : gset string) (candidates : option (gset string)) (x : Ballot),
       x = OneName (BallotOneName.mk (Some held) X)
       ∨ x = Plurality (BallotOneName.mk (Some held) X) →
       ∃ l : BallotLevels.t,
         ConverterBallotToLevelsInterval.__call__ self (PyBallot x) candidates
         = Ok (Levels l)
         ∧ ∀ c, BallotLevels.as_dict l !! c
                = if decide (c ∈ X ∧ kept candidates c)
                  then Some (if decide (c = held)
                             then ConverterBallotToLevelsInterval.high self
                             else ConverterBallotToLevelsInterval.low self)
                  else None)
  ∧ (∀ (self : ConverterBallotToLevelsInterval.t) (X : gset string)
       (candidates : option (gset string)) (x : Ballot),
       x = Veto (BallotOneName.mk None X)
       ∨ x = OneName (BallotOneName.mk None X)
       ∨ x = Plurality (BallotOneName.mk None X) →
       ∃ l : BallotLevels.t,
         ConverterBallotToLevelsInterval.__call__ self (PyBallot x) candidates
         = Ok (Levels l)
         ∧ BallotLevels.as_dict l = ∅)
  ∧ ConverterBallotToLevelsInterval.__call__ (to_unit_interval true)
      (PyBallot (Veto veto_a_of_abc)) None
    = Ok (Levels (BallotLevels.mk
                    {[ "a" := LFloat 0; "b" := LFloat 1; "c" := LFloat 1 ]}
                    {[ "a"; "b"; "c" ]} (Some unit_interval))).
Proof.
  split; [|split; [|split]].
  - apply call_veto_Some.
  - apply call_one_name_Some.
  - apply call_held_None.
  - by_computation.
Qed.

(** ** Loading a profile in a rule or a matrix *)

Lemma existsb_candidates (converted : list Ballot) (election : gset string) :
  existsb (λ b, bool_decide (Ballot_candidates b ≠ election)) converted
  = bool_decide (Exists (λ b, Ballot_candidates b ≠ election) converted).
Proof.
  induction converted as [|b bs IH]; [reflexivity|].
  cbn [existsb]. rewrite IH.
  destruct (decide (Ballot_candidates b ≠ election)) as [Hb|Hb].
  - rewrite (bool_decide_eq_true_2 _ Hb). symmetry.
    apply bool_decide_eq_true_2. by left.
  - rewrite (bool_decide_eq_false_2 _ Hb). cbn.
    apply bool_decide_ext. rewrite Exists_cons. tauto.
Qed.

Lemma Rule_call_spec (self : Rule.t) (ballots : list pyobj)
    (weights : option (list Qc)) (voters : option (list (option string)))
    (candidates : option (gset string)) (log : list string)
    (profile : Profile.t) (converted : list Ballot) :
  Profile.__init__ ballots weights voters = Ok profile →
  Profile.convert_all (λ b, Rule.converter self b candidates)
    (PyBallot <$> Profile.ballots profile) = Ok converted →
  ∃ (self' : Rule.t) (log' : list string),
    Rule.__call__ self ballots weights voters candidates log
    = Ok (self', log')
    ∧ Rule.candidates_ self'
      = Some (election_candidates candidates converted)
    ∧ (Profile.ballots <$> Rule.profile_converted_ self') = Some converted
    ∧ log' = if decide (Exists (λ b, Ballot_candidates b
                                     ≠ election_candidates candidates converted)
                          converted)
             then log ++ [warning_candidates] else log.
Proof.
  intros Hprofile Hconverted. unfold Rule.__call__.
  rewrite Hprofile. cbn. rewrite Hconverted. cbn.
  eexists _, _. split; [reflexivity|]. cbn.
  split; [reflexivity|]. split; [reflexivity|].
  unfold Rule._check_profile. cbn.
  fold (election_candidates candidates converted).
  rewrite existsb_candidates. by case_bool_decide; case_decide.
Qed.

Lemma Matrix_call_spec (self : Matrix.t) (ballots : list pyobj)
    (weights : option (list Qc)) (voters : option (list (option string)))
    (candidates : option (gset string)) (log : list string)
    (profile : Profile.t) (converted : list Ballot) :
  Profile.__init__ ballots weights voters = Ok profile →
  Profile.convert_all (λ b, Matrix.converter self b candidates)
    (PyBallot <$> Profile.ballots profile) = Ok converted →
  ∃ (self' : Matrix.t) (log' : list string),
    Matrix.__call__ self ballots weights voters candidates log
    = Ok (self', log')
    ∧ Matrix.candidates_ self'
      = Some (election_candidates candidates converted)
    ∧ (Profile.ballots <$> Matrix.profile_converted_ self') = Some converted
    ∧ log' = if decide (Exists (λ b, Ballot_candidates b
                                     ≠ election_candidates candidates converted)
                          converted)
             then log ++ [warning_candidates] else log.
Proof.
  intros Hprofile Hconverted. unfold Matrix.__call__.
  rewrite Hprofile. cbn. rewrite Hconverted. cbn.
  eexists _, _. split; [reflexivity|]. cbn.
  split; [reflexivity|]. split; [reflexivity|].
  unfold Matrix._check_profile. cbn.
  fold (election_candidates candidates converted).
  rewrite existsb_candidates. by case_bool_decide; case_decide.
Qed.

(** C8. Once the ballots of a profile are converted, calling a rule or a
    matrix on the profile returns normally: the candidates of the election
    are the candidates given, or else the union of the candidates of the
    converted ballots, and a converted ballot with other candidates only
    adds one warning to the log.  On two orders over a, b and over a, b, c,
    without explicit candidates, the election is over a, b, c and one
    warning is logged. *)
Theorem profile_candidates_and_warning :
  (∀ (self : Rule.t) ballots weights voters candidates log profile converted,
     Profile.__init__ ballots weights voters = Ok profile →
     Profile.convert_all (λ b, Rule.converter self b candidates)
       (PyBallot <$> Profile.ballots profile) = Ok converted →
     ∃ (self' : Rule.t) (log' : list string),
       Rule.__call__ self ballots weights voters candidates log
       = Ok (self', log')
       ∧ Rule.candidates_ self'
         = Some (election_candidates candidates converted)
       ∧ (Profile.ballots <$> Rule.profile_converted_ self') = Some converted
       ∧ log' = if decide (Exists
                             (λ b, Ballot_candidates b
                                   ≠ election_candidates candidates converted)
                             converted)
                then log ++ [warning_candidates] else log)
  ∧ (∀ (self : Matrix.t) ballots weights voters candidates log profile
       converted,
       Profile.__init__ ballots weights voters = Ok profile →
       Profile.convert_all (λ b, Matrix.converter self b candidates)
         (PyBallot <$> Profile.ballots profile) = Ok converted →
       ∃ (self' : Matrix.t) (log' : list string),
         Matrix.__call__ self ballots weights voters candidates log
         = Ok (self', log')
         ∧ Matrix.candidates_ self'
           = Some (election_candidates candidates converted)
         ∧ (Profile.ballots <$> Matrix.profile_converted_ self')
           = Some converted
         ∧ log' = if decide (Exists
                               (λ b, Ballot_candidates b
                                     ≠ election_candidates candidates converted)
                               converted)
                  then log ++ [warning_candidates] else log)
  ∧ (∃ self' : Rule.t,
       Rule.__call__ rule_unloaded two_orders None None None []
       = Ok (self', [warning_candidates])
       ∧ Rule.candidates_ self' = Some {[ "a"; "b"; "c" ]})
  ∧ (∃ self' : Matrix.t,
       Matrix.__call__ matrix_unloaded two_orders None None None []
       = Ok (self', [warning_candidates])
       ∧ Matrix.candidates_ self' = Some {[ "a"; "b"; "c" ]}).
Proof.
  split; [|split; [|split]].
  - intros. by eapply Rule_call_spec.
  - intros. by eapply Matrix_call_spec.
  - destruct (Rule_call_spec rule_unloaded two_orders None None None []
                _ _ eq_refl eq_refl) as (self' & log' & Hcall & Hc & _ & Hlog).
    exists self'. rewrite Hcall, Hc, Hlog. split.
    + do 2 f_equal; by_computation.
    + f_equal; by_computation.
  - destruct (Matrix_call_spec matrix_unloaded two_orders None None None []
                _ _ eq_refl eq_refl) as (self' & log' & Hcall & Hc & _ & Hlog).
    exists self'. rewrite Hcall, Hc, Hlog. split.
    + do 2 f_equal; by_computation.
    + f_equal; by_computation.
Qed.

(** ** The Bucklin scorer *)

Section bucklin.

Import ScorerBucklin.

Local Set Warnings "-clear-no-such-hyp".

Variable k : Z.

Lemma budget_0 : (0 ≤ k)%Z → budget k 0 = Qc_of_Z k.
Proof.
  intros Hk. unfold budget. rewrite decide_True by lia.
  f_equal. lia.
Qed.

Lemma distribute_budget (group : gset string) (scores : gmap string Qc)
    (served : nat) :
  distribute group (scores, budget k served)
  = (gset_to_gmap (share (budget k served) (size group)) group ∪ scores,
     budget k (served + size group)).
Proof.
  unfold distribute, share.
  destruct (decide (Qc_of_Z (Z.of_nat (size group)) ≤ budget k served))
    as [Hfit|Hfit]; f_equal; revert Hfit; unfold budget.
  - destruct (decide (Z.of_nat served ≤ k)%Z) as [Hs|Hs].
    + rewrite <- Z2Qc_inj_le, <- Z2Qc_inj_sub. intros Hfit.
      rewrite decide_True by lia. f_equal. lia.
    + rewrite <- Z2Qc_inj_0, <- Z2Qc_inj_le, <- Z2Qc_inj_sub. intros Hfit.
      rewrite decide_False by lia. f_equal. lia.
  - destruct (decide (Z.of_nat served ≤ k)%Z) as [Hs|Hs].
    + rewrite <- Z2Qc_inj_le. intros Hfit. rewrite decide_False by lia.
      reflexivity.
    + intros _. rewrite decide_False by lia. reflexivity.
Qed.

Lemma ranked_before_S (cl : gset string) (w : list (gset string)) (i : nat) :
  ranked_before (cl :: w) (S i) = (size cl + ranked_before w i)%nat.
Proof. reflexivity. Qed.

Lemma disjoint_classes_tail (cl : gset string) (w : list (gset string)) :
  disjoint_classes (cl :: w) → disjoint_classes w.
Proof.
  intros Hd i j c1 c2 Hij H1 H2. apply (Hd (S i) (S j)); auto.
Qed.

Lemma disjoint_classes_head (cl : gset string) (w : list (gset string))
    (c : string) :
  disjoint_classes (cl :: w) → c ∈ cl → c ∉ ⋃ w.
Proof.
  intros Hd Hc [cl' [Hcl' Hc']]%elem_of_union_list.
  apply list_elem_of_lookup in Hcl' as [j Hj].
  apply (Hd 0%nat (S j) cl cl' ltac:(lia) eq_refl Hj c Hc Hc').
Qed.

(** The loop over the classes: the points that remain, the score of each
    ranked candidate and the scores that the loop leaves alone. *)
Lemma ordered_spec (w : list (gset string)) :
  ∀ (scores : gmap string Qc) (served : nat),
    disjoint_classes w →
    (ordered w (scores, budget k served)).2
    = budget k (served + ranked_before w (length w))
    ∧ (∀ (i : nat) (cl : gset string) (c : string),
         w !! i = Some cl → c ∈ cl →
         (ordered w (scores, budget k served)).1 !! c
         = Some (share (budget k (served + ranked_before w i)) (size cl)))
    ∧ (∀ c : string, c ∉ ⋃ w →
         (ordered w (scores, budget k served)).1 !! c = scores !! c).
Proof.
  induction w as [|cl w IH]; intros scores served Hd.
  - cbn. split; [f_equal; unfold ranked_before; cbn; lia|].
    split; [intros i cl c Hi; by rewrite lookup_nil in Hi|done].
  - unfold ordered. cbn [foldl]. rewrite distribute_budget.
    fold (ordered w (gset_to_gmap (share (budget k served) (size cl)) cl
                       ∪ scores, budget k (served + size cl))).
    destruct (IH (gset_to_gmap (share (budget k served) (size cl)) cl
                    ∪ scores) (served + size cl)%nat
                 (disjoint_classes_tail _ _ Hd)) as (Hrem & Hin & Hout).
    split; [|split].
    + rewrite Hrem. cbn [length]. rewrite ranked_before_S. f_equal. lia.
    + intros [|i] cl' c Hi Hc.
      * injection Hi as <-.
        rewrite Hout by by eapply disjoint_classes_head.
        rewrite lookup_union, lookup_gset_to_gmap, option_guard_True by done.
        unfold ranked_before. cbn. rewrite Nat.add_0_r.
        by destruct (scores !! c).
      * rewrite (Hin i cl' c Hi Hc), ranked_before_S.
        do 3 f_equal. lia.
    + intros c Hc. rewrite union_list_cons, not_elem_of_union in Hc.
      destruct Hc as [Hc1 Hc2]. rewrite (Hout c Hc2).
      rewrite lookup_union, lookup_gset_to_gmap, option_guard_False by done.
      by destruct (scores !! c).
Qed.

Lemma lookup_union_gset_to_gmap (x : Qc) (X : gset string)
    (m : gmap string Qc) (c : string) :
  (gset_to_gmap x X ∪ m) !! c = if decide (c ∈ X) then Some x else m !! c.
Proof.
  rewrite lookup_union, lookup_gset_to_gmap.
  destruct (decide (c ∈ X)).
  - rewrite option_guard_True by done. by destruct (m !! c).
  - rewrite option_guard_False by done. by destruct (m !! c).
Qed.

Lemma unordered_spec (self : t) (scores : gmap string Qc) (served : nat) :
  unordered self (scores, budget k served)
  = (match unordered_receive_points self with
     | Some true =>
         gset_to_gmap
           (share (budget k served)
              (size (BallotOrder.candidates_not_in_b (ballot_ self))))
           (BallotOrder.candidates_not_in_b (ballot_ self)) ∪ scores
     | Some false =>
         gset_to_gmap 0 (BallotOrder.candidates_not_in_b (ballot_ self))
         ∪ scores
     | None => scores
     end,
     budget k
       (served
        + match unordered_receive_points self with
          | Some true => size (BallotOrder.candidates_not_in_b (ballot_ self))
          | _ => 0
          end)).
Proof.
  unfold unordered.
  destruct (unordered_receive_points self) as [[]|]; cbn [fst snd].
  - apply distribute_budget.
  - by rewrite Nat.add_0_r.
  - by rewrite Nat.add_0_r.
Qed.

Lemma absent_spec (self : t) (scores : gmap string Qc) (served : nat) :
  absent self (scores, budget k served)
  = match absent_receive_points self with
    | Some true =>
        gset_to_gmap
          (share (budget k served)
             (size (candidates_ self
                    ∖ BallotOrder.candidates (ballot_ self))))
          (candidates_ self ∖ BallotOrder.candidates (ballot_ self))
        ∪ scores
    | Some false =>
        gset_to_gmap 0
          (candidates_ self ∖ BallotOrder.candidates (ballot_ self))
        ∪ scores
    | None => scores
    end.
Proof.
  unfold absent.
  destruct (absent_receive_points self) as [[]|]; cbn [fst snd];
    [|reflexivity..].
  by rewrite distribute_budget.
Qed.

(** The scores of a well-formed ballot, for the three kinds of candidates. *)
Lemma scores_spec (self : t) :
  k = ScorerBucklin.k self →
  (0 ≤ k)%Z →
  disjoint_classes (BallotOrder.as_weak_order (ballot_ self)) →
  BallotOrder.candidates_in_b (ballot_ self)
    ⊆ BallotOrder.candidates (ballot_ self) →
  let w := BallotOrder.as_weak_order (ballot_ self) in
  let unranked := BallotOrder.candidates_not_in_b (ballot_ self) in
  let missing := candidates_ self ∖ BallotOrder.candidates (ballot_ self) in
  (∀ (i : nat) (cl : gset string) (c : string),
     w !! i = Some cl → c ∈ cl →
     scores_ self !! c
     = Some (share (budget k (ranked_before w i)) (size cl)))
  ∧ (∀ c : string, c ∈ unranked →
       scores_ self !! c
       = match unordered_receive_points self with
         | Some true =>
             Some (share (budget k (ranked_before w (length w)))
                         (size unranked))
         | Some false => Some 0
         | None => None
         end)
  ∧ (∀ c : string, c ∈ missing →
       scores_ self !! c
       = match absent_receive_points self with
         | Some true =>
             Some (share (budget k (served_before_absent self))
                         (size missing))
         | Some false => Some 0
         | None => None
         end).
Proof.
  intros Hk Hk0 Hd Hsub w unranked missing.
  destruct (ordered_spec w ∅ 0 Hd) as (Hrem & Hin & Hout).
  unfold scores_. rewrite <- Hk, <- (budget_0 Hk0).
  fold w. rewrite (surjective_pairing (ordered w (∅, budget k 0))), Hrem.
  rewrite unordered_spec, absent_spec. cbn [Nat.add] in *.
  fold unranked missing.
  assert (Hab : ∀ c (x : Qc) (m : gmap string Qc), c ∉ missing →
             (match absent_receive_points self with
              | Some true => gset_to_gmap x missing ∪ m
              | Some false => gset_to_gmap 0 missing ∪ m
              | None => m
              end) !! c = m !! c).
  { intros c x m Hc. destruct (absent_receive_points self) as [[]|];
      rewrite ?lookup_union_gset_to_gmap, ?decide_False by done; done. }
  assert (Hun : ∀ c (x : Qc) (m : gmap string Qc), c ∉ unranked →
             (match unordered_receive_points self with
              | Some true => gset_to_gmap x unranked ∪ m
              | Some false => gset_to_gmap 0 unranked ∪ m
              | None => m
              end) !! c = m !! c).
  { intros c x m Hc. destruct (unordered_receive_points self) as [[]|];
      rewrite ?lookup_union_gset_to_gmap, ?decide_False by done; done. }
  split; [|split].
  - intros i cl c Hi Hc.
    assert (c ∈ BallotOrder.candidates_in_b (ballot_ self)) as Hcb.
    { apply elem_of_union_list. exists cl. split; [|done].
      by eapply list_elem_of_lookup_2. }
    rewrite Hab, Hun by (unfold missing, unranked,
      BallotOrder.candidates_not_in_b; set_solver).
    apply (Hin i cl c Hi Hc).
  - intros c Hc.
    assert ((c ∉ ⋃ w) ∧ (c ∉ missing)) as [Hcw Hcm].
    { unfold unranked, BallotOrder.candidates_not_in_b,
        BallotOrder.candidates_in_b in Hc. fold w in Hc.
      unfold missing. set_solver. }
    rewrite Hab by done.
    destruct (unordered_receive_points self) as [[]|].
    + by rewrite lookup_union_gset_to_gmap, decide_True.
    + by rewrite lookup_union_gset_to_gmap, decide_True.
    + by rewrite Hout, lookup_empty.
  - intros c Hc.
    assert ((c ∉ ⋃ w) ∧ (c ∉ unranked)) as [Hcw Hcu].
    { unfold unranked, BallotOrder.candidates_not_in_b.
      unfold BallotOrder.candidates_in_b in Hsub. fold w in Hsub.
      unfold missing in Hc. set_solver. }
    unfold served_before_absent. fold w unranked.
    destruct (absent_receive_points self) as [[]|].
    + by rewrite lookup_union_gset_to_gmap, decide_True.
    + by rewrite lookup_union_gset_to_gmap, decide_True.
    + rewrite Hun by done. by rewrite Hout, lookup_empty.
Qed.

End bucklin.

(** C5. On an order ballot whose classes are disjoint and whose ranked
    candidates are declared, with [k ≥ 0] points: a ranked candidate gets
    one point when its class fits in what is left of the [k] points after
    the classes before it, and an even share of what is left otherwise;
    the unordered candidates, and then the absent ones, are served in the
    same way when their flag is [True], get 0 when it is [False] and are
    left out of the mapping when it is [None].  The two documented examples
    evaluate to the documented scores. *)
Theorem ScorerBucklin_scores :
  (∀ self : ScorerBucklin.t,
     (0 ≤ ScorerBucklin.k self)%Z →
     disjoint_classes (BallotOrder.as_weak_order (ScorerBucklin.ballot_ self)) →
     BallotOrder.candidates_in_b (ScorerBucklin.ballot_ self)
       ⊆ BallotOrder.candidates (ScorerBucklin.ballot_ self) →
     let k := ScorerBucklin.k self in
     let w := BallotOrder.as_weak_order (ScorerBucklin.ballot_ self) in
     let unranked :=
       BallotOrder.candidates_not_in_b (ScorerBucklin.ballot_ self) in
     let missing :=
       ScorerBucklin.candidates_ self
       ∖ BallotOrder.candidates (ScorerBucklin.ballot_ self) in
     (∀ (i : nat) (cl : gset string) (c : string),
        w !! i = Some cl → c ∈ cl →
        ScorerBucklin.scores_ self !! c
        = Some (share (budget k (ranked_before w i)) (size cl)))
     ∧ (∀ c : string, c ∈ unranked →
          ScorerBucklin.scores_ self !! c
          = match ScorerBucklin.unordered_receive_points self with
            | Some true =>
                Some (share (budget k (ranked_before w (length w)))
                            (size unranked))
            | Some false => Some 0
            | None => None
            end)
     ∧ (∀ c : string, c ∈ missing →
          ScorerBucklin.scores_ self !! c
          = match ScorerBucklin.absent_receive_points self with
            | Some true =>
                Some (share (budget k (served_before_absent self))
                            (size missing))
            | Some false => Some 0
            | None => None
            end))
  ∧ ScorerBucklin.scores_
      (ScorerBucklin.mk ballot_abcde {[ "a"; "b"; "c"; "d"; "e" ]} 2
         (Some true) (Some true))
    = {[ "a" := 1; "b" := 1; "c" := 0; "d" := 0; "e" := 0 ]}
  ∧ ScorerBucklin.scores_
      (ScorerBucklin.mk ballot_a_bc candidates_election 4
         (Some true) (Some true))
    = {[ "a" := 1; "b" := 1; "c" := 1; "d" := Q2Qc (1 # 2);
         "e" := Q2Qc (1 # 2); "f" := 0; "g" := 0 ]}.
Proof.
  split; [|split].
  - intros self Hk Hd Hsub. by apply scores_spec.
  - by_computation.
  - by_computation.
Qed.

(** ** Converted levels and the bounds of the target scale

    First the bound that the conversion formula achieves in exact
    arithmetic, branch by branch; then its evaluation on floats. *)

Section arithmetic.

Lemma Qc_interpolate (lo hi t : Qc) :
  lo ≤ hi → 0 ≤ t → t ≤ 1 →
  lo ≤ lo + (hi - lo) * t ∧ lo + (hi - lo) * t ≤ hi.
Proof.
  intros Hlh Ht0 Ht1.
  assert (0 ≤ hi - lo) as Hw.
  { apply (Qcplus_le_mono_r _ _ lo).
    by replace (hi - lo + lo) with hi by ring; rewrite Qcplus_0_l. }
  split.
  - rewrite <- (Qcplus_0_r lo) at 1. apply Qcplus_le_mono_l.
    by apply Qcmult_nonneg_nonneg.
  - replace hi with (lo + (hi - lo) * 1) at 2 by ring.
    apply Qcplus_le_mono_l. by apply Qcmult_le_mono_nonneg_l.
Qed.

Lemma Qc_ratio (a b : Qc) :
  0 ≤ a → a ≤ b → b ≠ 0 → 0 ≤ a / b ∧ a / b ≤ 1.
Proof.
  intros Ha Hab Hb.
  assert (0 < b) as Hpos.
  { apply Qcle_lt_or_eq in Hab as [Hlt| ->].
    - by eapply Qcle_lt_trans.
    - apply Qcle_lt_or_eq in Ha as [Hlt| <-]; [done|by destruct Hb]. }
  assert (0 < / b) as Hinv by by apply Qcinv_pos.
  split.
  - apply Qcmult_nonneg_nonneg; [done|by apply Qclt_le_weak].
  - rewrite <- (Qcmult_inv_r b) by done.
    apply Qcmult_le_mono_nonneg_r; [by apply Qclt_le_weak|done].
Qed.

Lemma Qc_sub_nonneg (a b : Qc) : a ≤ b → 0 ≤ b - a.
Proof.
  intros H. apply (Qcplus_le_mono_r _ _ a).
  by replace (b - a + a) with b by ring; rewrite Qcplus_0_l.
Qed.

Lemma Qc_sub_le_mono (a b c : Qc) : a ≤ b → a - c ≤ b - c.
Proof. intros H. by apply Qcplus_le_mono_r. Qed.

End arithmetic.

Section converted_levels.

Import ConverterBallotToLevelsInterval.

Local Set Warnings "-clear-no-such-hyp".

Lemma bind_Ok {A B : Type} (r : result A) (k : A → result B) (y : B) :
  r ≫= k = Ok y → ∃ a : A, r = Ok a ∧ k a = Ok y.
Proof. destruct r as [a|e]; [by exists a|discriminate]. Qed.

(** Inversion of a successful sequence of computations. *)
Ltac inv_bind H :=
  let a := fresh "a" in
  let Ha := fresh "H" a in
  apply bind_Ok in H as (a & Ha & H).

Lemma comprehension_lookup {A B : Type} (f : string → A → result B)
    (items : list (string * A)) :
  ∀ m : gmap string B,
    comprehension f items = Ok m →
    ∀ (c : string) (y : B), m !! c = Some y →
      ∃ v : A, (c, v) ∈ items ∧ f c v = Ok y.
Proof.
  induction items as [|[c0 v0] items IH]; intros m Hm c y Hc.
  - injection Hm as <-. by rewrite lookup_empty in Hc.
  - cbn in Hm. inv_bind Hm. inv_bind Hm. injection Hm as <-.
    destruct (decide (c = c0)) as [->|Hne].
    + rewrite lookup_insert_eq in Hc. injection Hc as <-.
      exists v0. split; [by left|done].
    + rewrite lookup_insert_ne in Hc by done.
      destruct (IH _ Ha0 c y Hc) as (v & Hv & Hf).
      exists v. split; [by right|done].
Qed.

Lemma dict_comprehension_lookup {A B : Type} (f : string → A → result B)
    (d : gmap string A) (m : gmap string B) (c : string) (y : B) :
  dict_comprehension f d = Ok m → m !! c = Some y →
  ∃ v : A, d !! c = Some v ∧ f c v = Ok y.
Proof.
  intros Hm Hc.
  destruct (comprehension_lookup f _ m Hm c y Hc) as (v & Hv & Hf).
  exists v. split; [by apply elem_of_map_to_list|done].
Qed.

Lemma set_comprehension_lookup {B : Type} (f : string → result B)
    (X : gset string) (m : gmap string B) (c : string) (y : B) :
  set_comprehension f X = Ok m → m !! c = Some y → c ∈ X ∧ f c = Ok y.
Proof.
  intros Hm Hc.
  destruct (comprehension_lookup _ _ m Hm c y Hc) as ([] & Hv & Hf).
  split; [|done].
  apply list_elem_of_fmap in Hv as (c' & [= ->] & Hc').
  by apply elem_of_elements.
Qed.

Lemma levels_restricted_within (lo hi : Qc) (d : gmap string level)
    (X : gset string) (sc : Scale) (candidates : option (gset string))
    (out : Ballot) :
  (∀ c v, d !! c = Some v → within lo hi v) →
  levels_restricted d X sc candidates = Ok out →
  levels_within lo hi out.
Proof.
  intros Hd Hout.
  destruct (levels_restricted_spec d X sc candidates) as (l & Hl & _ & Hlk).
  rewrite Hl in Hout. injection Hout as <-.
  intros c v Hv. rewrite Hlk in Hv.
  destruct (decide (kept candidates c)); [by eapply Hd|discriminate].
Qed.

(** *** Borda scores are between 0 and the denominator *)

Lemma Qc_half_le (x : Qc) : 0 ≤ x → x / 2 ≤ x.
Proof.
  intros Hx. rewrite <- (Qcmult_1_r x) at 2.
  by apply Qcmult_le_mono_nonneg_l.
Qed.

Lemma Qc_of_Z_le (n m : Z) : (n ≤ m)%Z → Qc_of_Z n ≤ Qc_of_Z m.
Proof. apply Z2Qc_inj_le. Qed.

Lemma Qc_of_nat_nonneg (n : nat) : 0 ≤ Qc_of_Z (Z.of_nat n).
Proof. rewrite <- Z2Qc_inj_0. apply Qc_of_Z_le. lia. Qed.

Lemma borda_points_bounds (dominated n total : nat) :
  (1 ≤ n)%nat → (dominated + n ≤ total)%nat →
  0 ≤ Qc_of_Z (Z.of_nat dominated) + Qc_of_Z (Z.of_nat n - 1) / 2
  ∧ Qc_of_Z (Z.of_nat dominated) + Qc_of_Z (Z.of_nat n - 1) / 2
    ≤ Qc_of_Z (Z.of_nat total - 1).
Proof.
  intros Hn Htotal.
  assert (0 ≤ Qc_of_Z (Z.of_nat n - 1)) as Hn0.
  { rewrite <- Z2Qc_inj_0. apply Qc_of_Z_le. lia. }
  split.
  - apply Qcplus_nonneg_nonneg; [apply Qc_of_nat_nonneg|].
    apply Qcmult_nonneg_nonneg; [done|by compute].
  - transitivity (Qc_of_Z (Z.of_nat dominated) + Qc_of_Z (Z.of_nat n - 1)).
    + apply Qcplus_le_mono_l. by apply Qc_half_le.
    + rewrite <- Z2Qc_inj_add. apply Qc_of_Z_le. lia.
Qed.

Lemma borda_classes_bounds (below : nat) (w : list (gset string)) :
  disjoint_classes w →
  ∀ c : string, c ∈ ⋃ w →
    ∃ p : Qc,
      BallotOrder.borda_classes w below !! c = Some p
      ∧ 0 ≤ p
      ∧ p ≤ Qc_of_Z (Z.of_nat (size (⋃ w) + below) - 1).
Proof.
  induction w as [|cl w IH]; intros Hd c Hc.
  - rewrite union_list_nil in Hc. set_solver.
  - assert (cl ## ⋃ w) as Hdisj.
    { intros c' Hc1 Hc2. by eapply disjoint_classes_head. }
    assert (size (⋃ (cl :: w)) = (size cl + size (⋃ w))%nat) as Hsize.
    { rewrite union_list_cons. by apply size_union. }
    cbn [BallotOrder.borda_classes]. rewrite lookup_union.
    rewrite lookup_gset_to_gmap.
    destruct (decide (c ∈ cl)) as [Hcl|Hcl].
    + rewrite option_guard_True by done.
      assert (1 ≤ size cl)%nat as Hpos.
      { destruct (size cl) eqn:Hs; [|lia].
        apply size_empty_inv in Hs. set_solver. }
      destruct (borda_points_bounds (size (⋃ w) + below) (size cl)
                  (size (⋃ (cl :: w)) + below) Hpos ltac:(lia)) as [H0 H1].
      eexists. split; [|split; [exact H0|exact H1]].
      by destruct (BallotOrder.borda_classes w below !! c).
    + rewrite option_guard_False by done.
      rewrite union_list_cons in Hc.
      destruct (IH (disjoint_classes_tail _ _ Hd) c ltac:(set_solver))
        as (p & -> & Hp0 & Hp1).
      exists p. split; [done|]. split; [done|].
      etransitivity; [exact Hp1|]. apply Qc_of_Z_le. lia.
Qed.

Lemma borda_bounds (o : BallotOrder.t) (flag : bool) (c : string) :
  well_formed (Order o) →
  c ∈ BallotOrder.candidates_in_b o →
  ∃ p : Qc,
    BallotOrder.borda o flag !! c = Some p
    ∧ 0 ≤ p
    ∧ p ≤ Qc_of_Z (if flag
                   then Z.of_nat (size (BallotOrder.candidates o)) - 1
                   else Z.of_nat (size (BallotOrder.candidates_in_b o)) - 1).
Proof.
  intros [Hd Hsub] Hc. unfold BallotOrder.candidates_in_b in *.
  unfold BallotOrder.borda, BallotOrder.borda_weak_order.
  destruct (borda_classes_bounds
              (if flag
               then size (BallotOrder.candidates o
                          ∖ ⋃ BallotOrder.as_weak_order o)
               else 0%nat)
              _ Hd c Hc) as (p & Hp & Hp0 & Hp1).
  exists p. split; [by apply lookup_union_Some_l|]. split; [done|].
  etransitivity; [exact Hp1|]. apply Qc_of_Z_le.
  destruct flag; [|lia].
  assert (size (BallotOrder.candidates o)
          = (size (⋃ BallotOrder.as_weak_order o)
             + size (BallotOrder.candidates o
                     ∖ ⋃ BallotOrder.as_weak_order o))%nat) as ->; [|lia].
  rewrite <- size_union by set_solver. f_equal.
  apply set_eq. intros c'. rewrite elem_of_union, elem_of_difference.
  destruct (decide (c' ∈ ⋃ BallotOrder.as_weak_order o)); set_solver.
Qed.

(** *** Minimum, maximum and sorting of evaluations *)

Lemma has_value_inj (v : level) (p q : Qc) :
  has_value v p → has_value v q → p = q.
Proof. unfold has_value. intros -> [= ->]. reflexivity. Qed.

Lemma is_number_has_value (v : level) :
  is_number v = true ↔ ∃ q, has_value v q.
Proof.
  unfold has_value. destruct v; cbn; split;
    try done; try (intros [q [=]]); by eexists.
Qed.

Lemma py_lt_numbers (a b : level) (x y : Qc) :
  has_value a x → has_value b y → py_lt a b = Ok (bool_decide (x < y)).
Proof.
  unfold has_value. destruct a, b; cbn; intros [= <-] [= <-]; reflexivity.
Qed.

Lemma py_lt_Ok_kind (a b : level) (r : bool) :
  py_lt a b = Ok r → is_number a = is_number b.
Proof. destruct a, b; cbn; done. Qed.

Lemma py_min_from_spec (l : list level) :
  Forall (λ v, is_number v = true) l →
  ∀ (cur : level) (qc : Qc), has_value cur qc →
    ∃ (m : level) (qm : Qc),
      py_min_from cur l = Ok m ∧ has_value m qm ∧ qm ≤ qc
      ∧ Forall (λ v, ∀ q, has_value v q → qm ≤ q) l.
Proof.
  induction 1 as [|w l Hw Hl IH]; intros cur qc Hcur.
  - exists cur, qc. by repeat split.
  - apply is_number_has_value in Hw as [qw Hqw].
    cbn. rewrite (py_lt_numbers w cur qw qc Hqw Hcur). cbn.
    case_bool_decide as Hlt.
    + destruct (IH w qw Hqw) as (m & qm & -> & Hm & Hle & Hall).
      exists m, qm. repeat split; try done.
      * etransitivity; [exact Hle|by apply Qclt_le_weak].
      * constructor; [|done]. intros q Hq.
        by rewrite <- (has_value_inj _ _ _ Hqw Hq).
    + destruct (IH cur qc Hcur) as (m & qm & -> & Hm & Hle & Hall).
      exists m, qm. repeat split; try done.
      constructor; [|done]. intros q Hq.
      rewrite <- (has_value_inj _ _ _ Hqw Hq).
      etransitivity; [exact Hle|]. by apply Qcle_ngt.
Qed.

Lemma py_max_from_spec (l : list level) :
  Forall (λ v, is_number v = true) l →
  ∀ (cur : level) (qc : Qc), has_value cur qc →
    ∃ (m : level) (qm : Qc),
      py_max_from cur l = Ok m ∧ has_value m qm ∧ qc ≤ qm
      ∧ Forall (λ v, ∀ q, has_value v q → q ≤ qm) l.
Proof.
  induction 1 as [|w l Hw Hl IH]; intros cur qc Hcur.
  - exists cur, qc. by repeat split.
  - apply is_number_has_value in Hw as [qw Hqw].
    cbn. rewrite (py_lt_numbers cur w qc qw Hcur Hqw). cbn.
    case_bool_decide as Hlt.
    + destruct (IH w qw Hqw) as (m & qm & -> & Hm & Hle & Hall).
      exists m, qm. repeat split; try done.
      * etransitivity; [by apply Qclt_le_weak|exact Hle].
      * constructor; [|done]. intros q Hq.
        by rewrite <- (has_value_inj _ _ _ Hqw Hq).
    + destruct (IH cur qc Hcur) as (m & qm & -> & Hm & Hle & Hall).
      exists m, qm. repeat split; try done.
      constructor; [|done]. intros q Hq.
      rewrite <- (has_value_inj _ _ _ Hqw Hq).
      etransitivity; [|exact Hle]. by apply Qcle_ngt.
Qed.

Lemma forallb_Forall_true {A : Type} (f : A → bool) (l : list A) :
  forallb f l = true → Forall (λ v, f v = true) l.
Proof.
  induction l as [|v l IH]; cbn; [constructor|].
  intros [Hv Hl]%andb_true_iff. constructor; auto.
Qed.

(** On numbers, [min] and [max] return the least and the greatest value. *)
Lemma py_min_spec (l : list level) (m : level) :
  forallb is_number l = true → py_min l = Ok m →
  ∃ qm : Qc, has_value m qm
             ∧ Forall (λ v, ∀ q, has_value v q → qm ≤ q) l.
Proof.
  intros Hl%forallb_Forall_true Hm.
  destruct l as [|v l]; [discriminate|]. cbn in Hm.
  apply Forall_cons in Hl as [Hv Hl].
  apply is_number_has_value in Hv as [qv Hqv].
  destruct (py_min_from_spec l Hl v qv Hqv) as (m' & qm & Hm' & Hqm & Hle & Hall).
  rewrite Hm' in Hm. injection Hm as <-.
  exists qm. split; [done|]. constructor; [|done].
  intros q Hq. by rewrite <- (has_value_inj _ _ _ Hqv Hq).
Qed.

Lemma py_max_spec (l : list level) (m : level) :
  forallb is_number l = true → py_max l = Ok m →
  ∃ qm : Qc, has_value m qm
             ∧ Forall (λ v, ∀ q, has_value v q → q ≤ qm) l.
Proof.
  intros Hl%forallb_Forall_true Hm.
  destruct l as [|v l]; [discriminate|]. cbn in Hm.
  apply Forall_cons in Hl as [Hv Hl].
  apply is_number_has_value in Hv as [qv Hqv].
  destruct (py_max_from_spec l Hl v qv Hqv) as (m' & qm & Hm' & Hqm & Hle & Hall).
  rewrite Hm' in Hm. injection Hm as <-.
  exists qm. split; [done|]. constructor; [|done].
  intros q Hq. by rewrite <- (has_value_inj _ _ _ Hqv Hq).
Qed.

Lemma py_eqb_kind (a b : level) :
  py_eqb a b = true → is_number a = is_number b.
Proof. by destruct a, b. Qed.

Lemma py_set_representative (l : list level) (v : level) :
  v ∈ l → ∃ w, w ∈ py_set l ∧ is_number w = is_number v.
Proof.
  induction l as [|x l IH]; [by intros ?%elem_of_nil|].
  intros [->|Hv]%elem_of_cons; cbn.
  - exists x. split; [by left|done].
  - destruct (IH Hv) as (w & Hw & Hk).
    destruct (py_eqb x w) eqn:Hxw.
    + exists x. split; [by left|]. by rewrite (py_eqb_kind _ _ Hxw).
    + exists w. split; [|done]. right. by apply list_elem_of_filter.
Qed.

Lemma py_insert_elem_of (v : level) (l : list level) :
  ∀ r, py_insert v l = Ok r → ∀ x, x ∈ r ↔ x = v ∨ x ∈ l.
Proof.
  induction l as [|w l IH]; intros r Hr x; cbn in Hr.
  - injection Hr as <-. set_solver.
  - apply bind_Ok in Hr as ([] & Hlt & Hr).
    + apply bind_Ok in Hr as (r' & Hr' & [= <-]).
      rewrite !elem_of_cons, (IH r' Hr'). tauto.
    + injection Hr as <-. by rewrite !elem_of_cons.
Qed.

(** A list that [sorted] accepts holds numbers only, or strings only. *)
Lemma py_sorted_kind (l : list level) :
  ∀ r, py_sorted l = Ok r →
    (∀ x, x ∈ r ↔ x ∈ l)
    ∧ ∀ x y, x ∈ l → y ∈ l → is_number x = is_number y.
Proof.
  induction l as [|v l IH]; intros r Hr; cbn in Hr.
  - injection Hr as <-. split; [done|]. by intros x y ?%elem_of_nil.
  - apply bind_Ok in Hr as (r' & Hr' & Hr).
    destruct (IH r' Hr') as [Hel Hkind].
    assert (∀ x, x ∈ l → is_number x = is_number v) as Hv.
    { intros x Hx. destruct r' as [|w r'].
      - apply Hel in Hx. by apply elem_of_nil in Hx.
      - cbn in Hr. apply bind_Ok in Hr as (b & Hlt & _).
        rewrite <- (py_lt_Ok_kind _ _ _ Hlt).
        apply Hkind; [done|]. apply Hel. by left. }
    split.
    + intros x. rewrite (py_insert_elem_of _ _ _ Hr), elem_of_cons, Hel.
      tauto.
    + intros x y [->|Hx]%elem_of_cons [->|Hy]%elem_of_cons; auto.
      symmetry. auto.
Qed.

Lemma index_from_bounds (v : level) (l : list level) :
  ∀ i j : nat, Scale_.index_from i v l = Some j →
    (i ≤ j < i + length l)%nat.
Proof.
  induction l as [|w l IH]; intros i j Hj; cbn in Hj; [discriminate|].
  destruct (Scale_.index_from (S i) v l) as [j'|] eqn:Hrec.
  - injection Hj as <-. apply IH in Hrec. cbn. lia.
  - destruct (py_eqb w v); [|discriminate]. injection Hj as <-. cbn. lia.
Qed.

Lemma comprehension_Raise {A B : Type} (f : string → A → result B)
    (items : list (string * A)) (e : exn) :
  comprehension f items = Raise e →
  ∃ (c : string) (v : A), (c, v) ∈ items ∧ f c v = Raise e.
Proof.
  induction items as [|[c0 v0] items IH]; cbn; [discriminate|].
  destruct (f c0 v0) as [y|e'] eqn:Hf; cbn.
  - destruct (comprehension f items) as [m|e'] eqn:Hm; cbn; [discriminate|].
    intros [= ->]. destruct (IH eq_refl) as (c & v & Hin & Hr).
    exists c, v. split; [by right|done].
  - intros [= ->]. exists c0, v0. split; [by left|done].
Qed.

Section target.

Variable self : t.
Variables lo hi : Qc.
Hypothesis low_value : has_value (low self) lo.
Hypothesis high_value : has_value (high self) hi.
Hypothesis low_le_high : lo ≤ hi.

Lemma low_within : within lo hi (low self).
Proof. exists lo. by split; [|split]. Qed.

Lemma high_within : within lo hi (high self).
Proof. exists hi. by split; [|split]. Qed.

(** The affine map sends a ratio between 0 and 1 into the target. *)
Lemma affine_within (x d : result Qc) (v : level) :
  affine self x d = Ok v →
  (∀ a b : Qc, x = Ok a → d = Ok b → b ≠ 0 → 0 ≤ a ∧ a ≤ b) →
  within lo hi v.
Proof.
  unfold affine, py_sub. rewrite low_value, high_value. cbn.
  intros Hv Hab.
  destruct x as [a|]; [|discriminate]. destruct d as [b|]; [|discriminate].
  cbn in Hv. unfold py_truediv in Hv.
  destruct (decide (b = 0)) as [|Hb]; [discriminate|].
  cbn in Hv. injection Hv as <-.
  destruct (Hab a b eq_refl eq_refl Hb) as [Ha0 Hale].
  destruct (Qc_ratio a b Ha0 Hale Hb) as [Hr0 Hr1].
  destruct (Qc_interpolate lo hi (a / b) low_le_high Hr0 Hr1) as [H1 H2].
  exists (lo + (hi - lo) * (a / b)).
  unfold Qcdiv in *. rewrite <- Qcmult_assoc. by split; [|split].
Qed.

Lemma call_veto_within (x : BallotOneName.t)
    (candidates : option (gset string)) (out : Ballot) :
  call_veto self x candidates = Ok out → levels_within lo hi out.
Proof.
  unfold call_veto. destruct (BallotOneName.candidate x) as [held|].
  - apply levels_restricted_within. intros c v.
    rewrite lookup_set_to_map_key.
    destruct (decide (c ∈ _)); [|discriminate]. intros [= <-].
    destruct (decide (c = held)); [apply low_within|apply high_within].
  - apply levels_restricted_within. intros c v. by rewrite lookup_empty.
Qed.

Lemma call_one_name_within (x : BallotOneName.t)
    (candidates : option (gset string)) (out : Ballot) :
  call_one_name self x candidates = Ok out → levels_within lo hi out.
Proof.
  unfold call_one_name. destruct (BallotOneName.candidate x) as [held|].
  - apply levels_restricted_within. intros c v.
    rewrite lookup_set_to_map_key.
    destruct (decide (c ∈ _)); [|discriminate]. intros [= <-].
    destruct (decide (c = held)); [apply high_within|apply low_within].
  - apply levels_restricted_within. intros c v. by rewrite lookup_empty.
Qed.

Lemma call_borda_within (borda : gmap string Qc)
    (x_candidates x_candidates_in_b : gset string)
    (candidates : option (gset string)) (out : Ballot) :
  (∀ c p, c ∈ x_candidates_in_b → borda !! c = Some p →
     0 ≤ p
     ∧ p ≤ Qc_of_Z (if borda_unordered_give_points self
                    then Z.of_nat (size x_candidates) - 1
                    else Z.of_nat (size x_candidates_in_b) - 1)) →
  call_borda self borda x_candidates x_candidates_in_b candidates = Ok out →
  levels_within lo hi out.
Proof.
  intros Hborda Hout. unfold call_borda in Hout. inv_bind Hout.
  apply (levels_restricted_within lo hi) in Hout; [done|].
  intros c v Hv.
  destruct (set_comprehension_lookup _ _ _ c v Ha Hv) as [Hc Haff].
  apply affine_within in Haff; [done|].
  intros p b Hp [= <-] _.
  destruct (borda !! c) as [p'|] eqn:Hp'; [|discriminate].
  injection Hp as ->. by apply (Hborda c).
Qed.

Lemma call_order_within (x : BallotOrder.t)
    (candidates : option (gset string)) (out : Ballot) :
  well_formed (Order x) →
  call_order self x candidates = Ok out → levels_within lo hi out.
Proof.
  intros Hwf. apply call_borda_within. intros c p Hc Hp.
  destruct (borda_bounds x (borda_unordered_give_points self) c Hwf Hc)
    as (p' & Hp' & H0 & H1).
  rewrite Hp in Hp'. injection Hp' as <-.
  split; [done|]. by destruct (borda_unordered_give_points self).
Qed.

(** *** The levels branch *)

Lemma values_elem_of (x : BallotLevels.t) (c : string) (v : level) :
  BallotLevels.as_dict x !! c = Some v → v ∈ BallotLevels.values x.
Proof.
  intros Hv. unfold BallotLevels.values.
  apply list_elem_of_fmap. exists (c, v). split; [done|].
  by apply elem_of_map_to_list.
Qed.

Lemma py_sub_Ok (a b : level) (r : Qc) :
  py_sub a b = Ok r →
  ∃ x y : Qc, has_value a x ∧ has_value b y ∧ r = x - y.
Proof.
  unfold py_sub. intros H. inv_bind H. inv_bind H. injection H as <-.
  by exists a0, a1.
Qed.

(** A ballot on an unbounded scale that is returned as it is has its
    evaluations in the target already. *)
Lemma bound_scale_inl (x : BallotLevels.t)
    (candidates : option (gset string)) (out : Ballot) :
  bound_scale self x candidates = Ok (inl out) → levels_within lo hi out.
Proof.
  unfold bound_scale. intros H. inv_bind H.
  destruct (Scale_.is_bounded a); cbn in H; [discriminate|].
  destruct (forallb is_number (BallotLevels.values x)) eqn:Hnum.
  - apply bind_Ok in H as (x_min & Hmin & H).
    apply bind_Ok in H as (x_max & Hmax & H).
    destruct (py_min_spec _ _ Hnum Hmin) as (qmin & Hqmin & Hallmin).
    destruct (py_max_spec _ _ Hnum Hmax) as (qmax & Hqmax & Hallmax).
    rewrite (py_lt_numbers _ _ _ _ Hqmin low_value) in H. cbn in H.
    case_bool_decide as Hlow; cbn in H.
    { rewrite Hmin, Hmax in H. discriminate. }
    rewrite (py_lt_numbers _ _ _ _ high_value Hqmax) in H. cbn in H.
    case_bool_decide as Hhigh; cbn in H.
    { rewrite Hmin, Hmax in H. discriminate. }
    apply bind_Ok in H as (r & Hr & [= <-]).
    apply (levels_restricted_within lo hi) in Hr; [done|].
    intros c v Hv. apply values_elem_of in Hv.
    assert (is_number v = true) as [q Hq]%is_number_has_value.
    { by eapply (proj1 (Forall_forall _ _) (forallb_Forall_true _ _ Hnum)). }
    exists q. split; [done|]. split.
    + transitivity qmin; [by apply Qcle_ngt|].
      by apply (proj1 (Forall_forall _ _) Hallmin v).
    + transitivity qmax; [|by apply Qcle_ngt].
      by apply (proj1 (Forall_forall _ _) Hallmax v).
  - apply bind_Ok in H as (sc & _ & H). discriminate.
Qed.

(** Otherwise the ballot goes on with the same evaluations, on a bounded
    scale that contains them. *)
Lemma bound_scale_inr (x x' : BallotLevels.t)
    (candidates : option (gset string)) :
  well_formed (Levels x) →
  bound_scale self x candidates = Ok (inr x') →
  BallotLevels.as_dict x' = BallotLevels.as_dict x
  ∧ ∃ s' : Scale,
      BallotLevels.scale x' = Ok s'
      ∧ Scale_.is_bounded s' = true
      ∧ within_scale s' (BallotLevels.as_dict x').
Proof.
  unfold bound_scale. intros Hwf H. apply bind_Ok in H as (s & Hs & H).
  destruct (Scale_.is_bounded s) eqn:Hb; cbn in H.
  { injection H as <-. split; [done|]. exists s. by auto. }
  destruct (forallb is_number (BallotLevels.values x)) eqn:Hnum.
  - apply bind_Ok in H as (x_min & Hmin & H).
    apply bind_Ok in H as (x_max & Hmax & H).
    apply bind_Ok in H as (above & _ & H).
    apply bind_Ok in H as (inside & _ & H).
    destruct inside.
    { apply bind_Ok in H as (? & _ & H). discriminate. }
    rewrite Hmin, Hmax in H. cbn in H. injection H as <-.
    split; [done|]. eexists. split; [reflexivity|]. split; [done|].
    destruct (py_min_spec _ _ Hnum Hmin) as (qmin & Hqmin & Hallmin).
    destruct (py_max_spec _ _ Hnum Hmax) as (qmax & Hqmax & Hallmax).
    exists qmin, qmax. split; [done|]. split; [done|].
    intros c v Hv. cbn in Hv. apply values_elem_of in Hv.
    assert (is_number v = true) as [q Hq]%is_number_has_value.
    { by eapply (proj1 (Forall_forall _ _) (forallb_Forall_true _ _ Hnum)). }
    exists q. split; [done|]. split.
    + by apply (proj1 (Forall_forall _ _) Hallmin v).
    + by apply (proj1 (Forall_forall _ _) Hallmax v).
  - apply bind_Ok in H as (sc & Hsc & [= <-]).
    split; [done|]. exists sc. split; [done|].
    unfold ScaleFromSet_init in Hsc.
    apply bind_Ok in Hsc as (ls & Hls & [= <-]).
    split; [done|].
    intros lo0 hi0 a b _ _ _ _ c v q Hv Hq. exfalso.
    cbn in Hv. apply values_elem_of in Hv.
    destruct (py_sorted_kind _ _ Hls) as [_ Hkind].
    assert (∃ w, w ∈ BallotLevels.values x ∧ is_number w = false)
      as (w & Hw & Hwk).
    { apply not_true_iff_false in Hnum.
      destruct (decide (Exists (λ w, is_number w = false)
                          (BallotLevels.values x))) as [He|He].
      - apply Exists_exists in He as (w & Hw & Hwk). by exists w.
      - exfalso. apply Hnum. apply forallb_forall. intros w Hw.
        apply list_elem_of_In in Hw.
        destruct (is_number w) eqn:Hk; [done|].
        exfalso. apply He. apply Exists_exists. by exists w. }
    destruct (py_set_representative _ _ Hv) as (v0 & Hv0 & Hkv).
    destruct (py_set_representative _ _ Hw) as (w0 & Hw0 & Hkw).
    assert (is_number v = true) as Hvn by (apply is_number_has_value; eauto).
    rewrite <- Hkv, (Hkind v0 w0 Hv0 Hw0), Hkw, Hwk in Hvn. discriminate.
Qed.

(** Evaluations between the bounds of their scale give ratios between 0
    and 1. *)
Lemma within_scale_ratio (s' : Scale) (d : gmap string level)
    (c : string) (v lo_s hi_s : level) (qv qlo qhi : Qc) :
  within_scale s' d → d !! c = Some v →
  Scale_.low s' = Ok lo_s → Scale_.high s' = Ok hi_s →
  has_value v qv → has_value lo_s qlo → has_value hi_s qhi →
  0 ≤ qv - qlo ∧ qv - qlo ≤ qhi - qlo.
Proof.
  intros Hin Hv Hlo Hhi Hqv Hqlo Hqhi.
  assert (qlo ≤ qv ∧ qv ≤ qhi) as [H1 H2].
  { destruct s' as [|l h|l h|ls|ls]; cbn in Hin.
    - discriminate.
    - injection Hlo as <-. injection Hhi as <-.
      destruct Hin as (a & b & Ha & Hb & Hall).
      destruct (Hall c v Hv) as (q & Hq & ? & ?).
      by rewrite (has_value_inj _ _ _ Hqlo Ha), (has_value_inj _ _ _ Hqhi Hb),
        (has_value_inj _ _ _ Hqv Hq).
    - injection Hlo as <-. injection Hhi as <-.
      destruct Hin as (a & b & Ha & Hb & Hall).
      destruct (Hall c v Hv) as (q & Hq & ? & ?).
      by rewrite (has_value_inj _ _ _ Hqlo Ha), (has_value_inj _ _ _ Hqhi Hb),
        (has_value_inj _ _ _ Hqv Hq).
    - by eapply Hin.
    - by eapply Hin. }
  split; [by apply Qc_sub_nonneg|by apply Qc_sub_le_mono].
Qed.

Lemma call_cardinal_within (x' : BallotLevels.t) (s' : Scale)
    (candidates : option (gset string)) (out : Ballot) :
  BallotLevels.scale x' = Ok s' →
  within_scale s' (BallotLevels.as_dict x') →
  call_cardinal self x' candidates = Ok out → levels_within lo hi out.
Proof.
  intros Hs Hin Hout. unfold call_cardinal in Hout. inv_bind Hout.
  apply (levels_restricted_within lo hi) in Hout; [done|].
  intros c v' Hv'.
  destruct (dict_comprehension_lookup _ _ _ c v' Ha Hv') as (v & Hv & Haff).
  apply affine_within in Haff; [done|].
  rewrite Hs. cbn. intros qa qb Hx Hd _.
  apply bind_Ok in Hx as (lo_s & Hlo & Hx).
  apply bind_Ok in Hd as (hi_s & Hhi & Hd).
  rewrite Hlo in Hd. cbn in Hd.
  apply py_sub_Ok in Hx as (qv & qlo & Hqv & Hqlo & ->).
  apply py_sub_Ok in Hd as (qhi & qlo' & Hqhi & Hqlo' & ->).
  rewrite <- (has_value_inj _ _ _ Hqlo Hqlo').
  by eapply within_scale_ratio.
Qed.

(** On an interval or a range that contains the evaluations, the cardinal
    reading can only fail by a division by zero. *)
Lemma call_cardinal_numeric (x' : BallotLevels.t) (s' : Scale)
    (candidates : option (gset string)) (e : exn) :
  BallotLevels.scale x' = Ok s' →
  Scale_.is_bounded s' = true → Scale_.is_ScaleFromList s' = false →
  within_scale s' (BallotLevels.as_dict x') →
  call_cardinal self x' candidates = Raise e → e = ZeroDivisionError.
Proof.
  intros Hs Hb Hlist Hin Hout. unfold call_cardinal in Hout.
  destruct (dict_comprehension _ _) as [d|e'] eqn:Hd; cbn in Hout.
  { destruct (levels_restricted_spec d (BallotLevels.candidates x')
                (scale self) candidates) as (l & Hl & _).
    rewrite Hl in Hout. discriminate. }
  injection Hout as ->.
  apply comprehension_Raise in Hd as (c & v & Hcv & Haff).
  apply elem_of_map_to_list in Hcv.
  assert (∃ (l h : level) (a b qv : Qc),
            Scale_.low s' = Ok l ∧ Scale_.high s' = Ok h
            ∧ has_value l a ∧ has_value h b ∧ has_value v qv)
    as (l & h & a & b & qv & Hl & Hh & Ha & Hb' & Hqv).
  { destruct s' as [|l h|l h|ls|ls]; try discriminate; cbn in Hin;
      destruct Hin as (a & b & Ha & Hb' & Hall);
      destruct (Hall c v Hcv) as (qv & Hqv & _);
      by exists l, h, a, b, qv. }
  revert Haff. unfold affine, py_sub.
  rewrite low_value, high_value, Hs. cbn. rewrite Hl, Hh. cbn.
  rewrite Hqv, Ha, Hb'. cbn. unfold py_truediv.
  destruct (decide (b - a = 0)); cbn; [by intros [= <-]|discriminate].
Qed.

Lemma call_from_list_within (x' : BallotLevels.t) (x_scale : Scale)
    (candidates : option (gset string)) (out : Ballot) :
  call_from_list self x' x_scale candidates = Ok out →
  levels_within lo hi out.
Proof.
  intros Hout. unfold call_from_list in Hout. inv_bind Hout.
  apply (levels_restricted_within lo hi) in Hout; [done|].
  intros c v' Hv'.
  destruct (dict_comprehension_lookup _ _ _ c v' Ha Hv') as (v & Hv & Haff).
  apply affine_within in Haff; [done|].
  intros qa qb Hx Hd _.
  apply bind_Ok in Hx as (xc & _ & Hx).
  apply bind_Ok in Hx as (i & Hi & [= <-]).
  apply bind_Ok in Hd as (ls & Hls & [= <-]).
  unfold Scale_.as_dict in Hi. rewrite Hls in Hi. cbn in Hi.
  destruct (Scale_.index_from 0 xc ls) as [j|] eqn:Hj; [|discriminate].
  injection Hi as ->. apply index_from_bounds in Hj.
  split; [apply Qc_of_nat_nonneg|]. apply Qc_of_Z_le. lia.
Qed.

Lemma call_levels_within (x : BallotLevels.t)
    (candidates : option (gset string)) (out : Ballot) :
  well_formed (Levels x) →
  call_levels self x candidates = Ok out → levels_within lo hi out.
Proof.
  intros Hwf Hout. unfold call_levels in Hout.
  apply bind_Ok in Hout as ([r|x'] & Hbound & Hout).
  - injection Hout as <-. by eapply bound_scale_inl.
  - destruct (bound_scale_inr _ _ _ Hwf Hbound) as (_ & s' & Hs' & Hb & Hin).
    destruct (call_cardinal self x' candidates) as [out'|e] eqn:Hcard.
    + cbn in Hout. injection Hout as <-. by eapply call_cardinal_within.
    + assert (e = TypeError ∨ e = AttributeError) as He.
      { destruct e; cbn in Hout; try discriminate; auto. }
      assert (except_TypeError_AttributeError (Raise e)
                (x_scale ← BallotLevels.scale x';
                 if Scale_.is_ScaleFromList x_scale
                 then call_from_list self x' x_scale candidates
                 else
                   borda ← BallotLevels.borda x'
                             (borda_unordered_give_points self);
                   call_borda self borda (BallotLevels.candidates x')
                     (BallotLevels.candidates_in_b x') candidates)
              = (if Scale_.is_ScaleFromList s'
                 then call_from_list self x' s' candidates
                 else
                   borda ← BallotLevels.borda x'
                             (borda_unordered_give_points self);
                   call_borda self borda (BallotLevels.candidates x')
                     (BallotLevels.candidates_in_b x') candidates)) as Heq.
      { rewrite Hs'. by destruct He as [-> | ->]. }
      rewrite Heq in Hout.
      destruct (Scale_.is_ScaleFromList s') eqn:Hlist.
      * by eapply call_from_list_within.
      * pose proof (call_cardinal_numeric _ _ _ _ Hs' Hb Hlist Hin Hcard).
        by destruct He; subst.
Qed.

(** Every branch of the converter lands in the target. *)
Lemma ToLevelsInterval_call_within (x : pyobj) (b : Ballot)
    (candidates : option (gset string)) (out : Ballot) :
  converter_ballot.ConverterBallotGeneral.__call__
    converter_ballot.ConverterBallotGeneral.default x None = Ok b →
  well_formed b →
  __call__ self x candidates = Ok out → levels_within lo hi out.
Proof.
  intros Hb Hwf. unfold __call__. rewrite Hb. cbn.
  destruct b as [o|l|n|n|n|cs].
  - by apply call_order_within.
  - by apply call_levels_within.
  - apply call_one_name_within.
  - apply call_one_name_within.
  - apply call_veto_within.
  - discriminate.
Qed.

End target.

End converted_levels.

Lemma py_list_index_among (ls : list level) (v lbl : level) :
  py_list_index ls v = Ok lbl →
  ∃ i : nat, ls !! i = Some lbl ∧ (i ≤ length ls - 1)%nat.
Proof.
  unfold py_list_index. destruct v as [z| |]; try discriminate.
  destruct (decide _); [|discriminate].
  destruct (ls !! Z.to_nat _) as [lbl'|] eqn:Hi; [|discriminate].
  intros [= <-]. eexists. split; [exact Hi|].
  apply lookup_lt_Some in Hi. lia.
Qed.

Lemma ListNonNumeric_call_among
    (Range_call : Scale → bool → pyobj → option (gset string) → result Ballot)
    (self : ConverterBallotToLevelsListNonNumeric) (ls : list level)
    (x : pyobj) (candidates : option (gset string)) (out : Ballot) :
  Scale_.levels (ListNonNumeric_scale self) = Ok ls →
  ConverterBallotToLevelsListNonNumeric_call Range_call self x candidates
  = Ok out →
  levels_among ls out.
Proof.
  intros Hls Hout. unfold ConverterBallotToLevelsListNonNumeric_call in Hout.
  rewrite Hls in Hout. cbn in Hout.
  apply bind_Ok in Hout as (x' & _ & Hout).
  destruct x' as [|x'| | | |]; try discriminate.
  apply bind_Ok in Hout as (d & Hd & Hout).
  change (ConverterBallotToLevelsInterval.levels_restricted d
            (BallotLevels.candidates x') (ListNonNumeric_scale self)
            candidates = Ok out) in Hout.
  destruct (levels_restricted_spec d (BallotLevels.candidates x')
              (ListNonNumeric_scale self) candidates) as (l & Hl & _ & Hlk).
  rewrite Hl in Hout. injection Hout as <-.
  intros c lbl Hlbl. rewrite Hlk in Hlbl.
  destruct (decide (kept candidates c)); [|discriminate].
  destruct (dict_comprehension_lookup _ _ _ c lbl Hd Hlbl) as (v & _ & Hv).
  cbn in Hv. by apply py_list_index_among in Hv.
Qed.

(** What the conversion formula achieves when nothing is rounded.  In
    the exact arithmetic of the model, a converter to an interval with
    numeric bounds [lo ≤ hi] gives only evaluations between [lo] and [hi],
    whatever the ballot that the general converter reads in the input,
    provided that this ballot is well formed (an order with disjoint
    classes of declared candidates, levels within the bounds of their
    scale); and the converter to a list of non-numeric levels gives only
    levels of its list, that is, levels between the first and the last
    one. *)
Lemma exact_levels_within_target :
  (∀ (self : ConverterBallotToLevelsInterval.t) (lo hi : Qc) (x : pyobj)
     (b : Ballot) (candidates : option (gset string)) (out : Ballot),
     has_value (ConverterBallotToLevelsInterval.low self) lo →
     has_value (ConverterBallotToLevelsInterval.high self) hi →
     lo ≤ hi →
     converter_ballot.ConverterBallotGeneral.__call__
       converter_ballot.ConverterBallotGeneral.default x None = Ok b →
     well_formed b →
     ConverterBallotToLevelsInterval.__call__ self x candidates = Ok out →
     levels_within lo hi out)
  ∧ (∀ (Range_call : Scale → bool → pyobj → option (gset string)
                     → result Ballot)
       (self : ConverterBallotToLevelsListNonNumeric) (ls : list level)
       (x : pyobj) (candidates : option (gset string)) (out : Ballot),
       Scale_.levels (ListNonNumeric_scale self) = Ok ls →
       ConverterBallotToLevelsListNonNumeric_call Range_call self x candidates
       = Ok out →
       levels_among ls out).
Proof.
  split.
  - intros. by eapply ToLevelsInterval_call_within.
  - intros. by eapply ListNonNumeric_call_among.
Qed.

(** C9. The bound fails in binary64.  The converter to the interval from
    0. to 0.1 is given the ballot [{'a': 3}] on the range from 0 to 3,
    whose evaluation is within the bounds of its scale.  The [try] block
    evaluates [0. + (0.1 - 0.) * (3 - 0) / (3 - 0)]: the product
    [0.1 * 3] is rounded up to 0.30000000000000004 and the level of a is
    0.10000000000000002, above [high = 0.1].  In the exact arithmetic of
    the model the same call goes through the same block and gives a the
    level [high]. *)
Theorem converted_level_above_high :
  binary64.cardinal (binary64.Float 0) (binary64.Float 0.1)
    (binary64.Int 0) (binary64.Int 3) {[ "a" := binary64.Int 3 ]}
  = Ok {[ "a" := binary64.Float 0.10000000000000002 ]}
  ∧ binary64.ltb (binary64.Float 0.1) (binary64.Float 0.10000000000000002)
    = true
  ∧ binary64.mul (binary64.Float 0.1) (binary64.Int 3)
    = binary64.Float 0.30000000000000004
  ∧ ConverterBallotToLevelsInterval.call_cardinal to_tenth levels_3_of_0_3
      None
    = Ok (Levels (BallotLevels.mk
                    {[ "a" := LFloat (binary64.value 0.1) ]} {[ "a" ]}
                    (Some (ScaleInterval (LFloat 0)
                             (LFloat (binary64.value 0.1))))))
  ∧ ConverterBallotToLevelsInterval.__call__ to_tenth
      (PyBallot (Levels levels_3_of_0_3)) None
    = ConverterBallotToLevelsInterval.call_cardinal to_tenth levels_3_of_0_3
        None.
Proof.
  split; [vm_compute; reflexivity|].
  split; [vm_compute; reflexivity|].
  split; [vm_compute; reflexivity|].
  split; by_computation.
Qed.

(** ** Majority Judgment *)

Section majority_judgment.

Import RuleMajorityJudgment.

Context {L : Type} `{!ScaleOps L} `{!EqDecision L} {B : Type}.

Implicit Types (self : RuleMajorityJudgment.t L B) (pairs : list (L * Qc)).

Local Set Warnings "-clear-no-such-hyp".

(** *** Sums of weights *)

Lemma foldl_Qcplus (l : list Qc) (acc : Qc) :
  foldl Qcplus acc l = acc + foldr Qcplus 0 l.
Proof.
  revert acc. induction l as [|w l IH]; intros acc; cbn.
  - by rewrite Qcplus_0_r.
  - rewrite IH. ring.
Qed.

Lemma sum_total_weight pairs : sum pairs.*2 = total_weight pairs.
Proof.
  unfold sum, total_weight. rewrite foldl_Qcplus, Qcplus_0_l.
  induction pairs as [|[l w] pairs IH]; cbn; [done|]. by rewrite IH.
Qed.

Lemma total_weight_app pairs1 pairs2 :
  total_weight (pairs1 ++ pairs2) = total_weight pairs1 + total_weight pairs2.
Proof.
  unfold total_weight.
  induction pairs1 as [|[l w] pairs1 IH]; cbn.
  - by rewrite Qcplus_0_l.
  - rewrite IH. ring.
Qed.

Lemma total_weight_Permutation pairs1 pairs2 :
  pairs1 ≡ₚ pairs2 → total_weight pairs1 = total_weight pairs2.
Proof.
  unfold total_weight.
  induction 1 as [|x l1 l2 _ IH|x y l|l1 l2 l3 _ IH1 _ IH2]; cbn.
  - done.
  - by rewrite IH.
  - ring.
  - by rewrite IH1.
Qed.

(** *** The first loop: what each candidate receives *)

Lemma holds_init (cands : gset string) :
  holds (L:=L) cands (gset_to_gmap [] cands, gset_to_gmap [] cands)
    (λ _, []).
Proof.
  intros c. cbn. rewrite !lookup_gset_to_gmap.
  destruct (decide (c ∈ cands)).
  - by rewrite !option_guard_True.
  - by rewrite !option_guard_False.
Qed.

Lemma collect_ballot_holds (cands : gset string) (weight : Qc)
    (items : list (string * L)) :
  ∀ st g,
    holds cands st g →
    Forall (λ cl, cl.1 ∈ cands) items →
    ∃ st', collect_ballot items weight st = Ok st'
           ∧ holds cands st' (λ c, g c ++ received items weight c).
Proof.
  induction items as [|[c0 level] items IH]; intros st g Hst Hitems.
  - exists st. split; [done|]. intros c. unfold received. cbn.
    rewrite app_nil_r. apply Hst.
  - apply Forall_cons in Hitems as [Hc0 Hitems]. cbn in Hc0.
    cbn. unfold append.
    destruct (Hst c0) as [H1 H2].
    rewrite decide_True in H1 by done. rewrite decide_True in H2 by done.
    rewrite H1, H2. cbn.
    destruct (IH (<[c0:=(g c0).*1 ++ [level]]> st.1,
                  <[c0:=(g c0).*2 ++ [weight]]> st.2)
                 (λ c, g c ++ (if decide (c0 = c)
                               then [(level, weight)] else []))) as
      (st' & Hst' & Hholds); [|done|].
    { intros c. cbn. destruct (decide (c0 = c)) as [<-|Hne].
      - rewrite !lookup_insert_eq, !decide_True by done.
        by rewrite !fmap_app.
      - rewrite !lookup_insert_ne by done. rewrite app_nil_r. apply Hst. }
    exists st'. split; [done|]. intros c.
    destruct (Hholds c) as [H1' H2']. rewrite H1', H2'.
    assert ((g c ++ (if decide (c0 = c) then [(level, weight)] else []))
            ++ received items weight c
            = g c ++ received ((c0, level) :: items) weight c) as ->; [|done].
    rewrite <- app_assoc. f_equal. unfold received.
    rewrite filter_cons. cbn. by destruct (decide (c0 = c)).
Qed.

Lemma filter_key_absent {A : Type} (l : list (string * A)) (c : string) :
  c ∉ l.*1 → filter (λ cl, cl.1 = c) l = [].
Proof.
  induction l as [|[c' v'] l IH]; [done|]. rewrite fmap_cons. intros Hc.
  apply not_elem_of_cons in Hc as [Hne Hc].
  rewrite filter_cons, decide_False by done. by apply IH.
Qed.

Lemma filter_key_NoDup {A : Type} (l : list (string * A)) (c : string)
    (v : A) :
  NoDup l.*1 → (c, v) ∈ l → filter (λ cl, cl.1 = c) l = [(c, v)].
Proof.
  induction l as [|[c' v'] l IH]; [by intros _ ?%elem_of_nil|].
  rewrite fmap_cons.
  intros [Hc' Hnd]%NoDup_cons [[= <- <-]|Hin]%elem_of_cons.
  - rewrite filter_cons, decide_True by done.
    by rewrite filter_key_absent.
  - rewrite filter_cons, decide_False; [by apply IH|].
    cbn. intros ->. apply Hc'. apply list_elem_of_fmap. by exists (c, v).
Qed.

Lemma received_map_to_list (m : gmap string L) (weight : Qc) (c : string) :
  received (map_to_list m) weight c
  = match m !! c with
    | Some level => [(level, weight)]
    | None => []
    end.
Proof.
  unfold received. destruct (m !! c) as [level|] eqn:Hm.
  - rewrite (filter_key_NoDup _ c level); [done| |].
    + apply NoDup_fst_map_to_list.
    + by apply elem_of_map_to_list.
  - rewrite filter_key_absent; [done|].
    intros ([c' v] & Hc' & Hin)%list_elem_of_fmap. cbn in Hc'. subst c'.
    apply elem_of_map_to_list in Hin. congruence.
Qed.

Lemma pairs_in_cons self ballot weight voter profile c :
  pairs_in self ((ballot, weight, voter) :: profile) c
  = received (map_to_list (scorer self ballot voter (candidates_ self)))
      weight c
    ++ pairs_in self profile c.
Proof.
  rewrite received_map_to_list. unfold pairs_in. cbn.
  by destruct (scorer self ballot voter (candidates_ self) !! c).
Qed.

Lemma collect_holds self (profile : list (B * Qc * option string)) :
  ∀ st g,
    holds (candidates_ self) st g →
    scores_candidates self profile →
    ∃ st', collect self profile st = Ok st'
           ∧ holds (candidates_ self) st'
               (λ c, g c ++ pairs_in self profile c).
Proof.
  induction profile as [|[[ballot weight] voter] profile IH];
    intros st g Hst Hdom.
  - exists st. split; [done|]. intros c. unfold pairs_in. cbn.
    rewrite app_nil_r. apply Hst.
  - apply Forall_cons in Hdom as [Hdom0 Hdom]. cbn [collect].
    destruct (collect_ballot_holds (candidates_ self) weight
                (map_to_list (scorer self ballot voter (candidates_ self)))
                st g Hst) as (st1 & Hst1 & Hholds1).
    { apply Forall_forall. intros [c level] Hin%elem_of_map_to_list. cbn.
      apply Hdom0. by apply elem_of_dom. }
    rewrite Hst1. cbn [mbind result_bind].
    destruct (IH st1 _ Hholds1 Hdom) as (st' & Hst' & Hholds').
    exists st'. split; [done|]. intros c.
    destruct (Hholds' c) as [H1 H2]. rewrite H1, H2.
    by rewrite pairs_in_cons, app_assoc.
Qed.

(** *** Sorting by [argsort] *)

Lemma omap_lookup_seq {A : Type} (pre l : list A) :
  omap (λ i, (pre ++ l) !! i) (seq (length pre) (length l)) = l.
Proof.
  revert pre. induction l as [|x l IH]; intros pre; [done|].
  cbn [length seq]. cbn [omap list_omap].
  rewrite list_lookup_middle by done.
  f_equal. specialize (IH (pre ++ [x])).
  rewrite <- app_assoc, length_app in IH. cbn in IH.
  by rewrite Nat.add_1_r in IH.
Qed.

Lemma reorder_omap {A : Type} (l : list A) (indexes : list nat) :
  Forall (λ i, (i < length l)%nat) indexes →
  reorder l indexes = Ok (omap (λ i, l !! i) indexes).
Proof.
  induction 1 as [|i indexes Hi _ IH]; [done|].
  cbn. destruct (lookup_lt_is_Some_2 l i Hi) as [x Hx].
  rewrite Hx, IH. reflexivity.
Qed.

Lemma reorder_permutation {A : Type} (l : list A) (indexes : list nat) :
  indexes ≡ₚ seq 0 (length l) →
  ∃ r, reorder l indexes = Ok r ∧ r ≡ₚ l.
Proof.
  intros Hperm. exists (omap (λ i, l !! i) indexes). split.
  - apply reorder_omap. rewrite Hperm.
    apply Forall_forall. intros i Hi%elem_of_seq. lia.
  - rewrite Hperm. pose proof (omap_lookup_seq [] l) as Hl.
    cbn [app length] in Hl. by rewrite Hl.
Qed.

Lemma reorder_fmap {A C : Type} (f : A → C) (l : list A)
    (indexes : list nat) (r : list A) :
  reorder l indexes = Ok r → reorder (f <$> l) indexes = Ok (f <$> r).
Proof.
  revert r. induction indexes as [|i indexes IH]; intros r; cbn.
  - by intros [= <-].
  - rewrite list_lookup_fmap. destruct (l !! i) as [x|]; [|discriminate].
    cbn. intros Hr. apply bind_Ok in Hr as (r' & Hr' & [= <-]).
    by rewrite (IH r' Hr').
Qed.

(** *** The median loop *)

Lemma find_median_spec (sorted : list (L * Qc)) :
  ∀ acc half : Qc,
    acc < half → half ≤ acc + total_weight sorted →
    ∃ (m : L) (i : nat) (w : Qc),
      find_median sorted.*1 sorted.*2 acc half = Some m
      ∧ sorted !! i = Some (m, w)
      ∧ half ≤ acc + total_weight (take (S i) sorted)
      ∧ ∀ j : nat, (j < i)%nat →
          acc + total_weight (take (S j) sorted) < half.
Proof.
  induction sorted as [|[l w] sorted IH]; intros acc half Hacc Hreach.
  - exfalso. unfold total_weight in Hreach. cbn in Hreach.
    rewrite Qcplus_0_r in Hreach. by apply Qcle_ngt in Hreach.
  - cbn [fmap list_fmap find_median fst snd].
    destruct (decide (half ≤ acc + w)) as [Hw|Hw].
    + exists l, 0%nat, w. split; [done|]. split; [done|].
      split; [|intros j Hj; lia].
      unfold total_weight. cbn. by rewrite Qcplus_0_r.
    + apply Qclt_nge in Hw.
      destruct (IH (acc + w) half Hw) as (m & i & w' & Hm & Hi & Hge & Hlt).
      { replace (acc + w + total_weight sorted)
          with (acc + total_weight ((l, w) :: sorted)); [done|].
        unfold total_weight. cbn. ring. }
      exists m, (S i), w'. split; [done|]. split; [done|].
      assert (∀ n, acc + total_weight (take (S n) ((l, w) :: sorted))
                   = acc + w + total_weight (take n sorted)) as Htake.
      { intros n. unfold total_weight. cbn. ring. }
      split.
      * by rewrite Htake.
      * intros [|j] Hj; rewrite Htake.
        -- unfold total_weight. cbn. by rewrite Qcplus_0_r.
        -- apply Hlt. lia.
Qed.

(** *** The sums of the weights above and below the median *)

Lemma select_spec (test : L → bool) (sorted : list (L * Qc)) :
  ∀ pre : list Qc,
    select test sorted.*1 (length pre) (pre ++ sorted.*2)
    = Ok (filter (λ lw, test lw.1 = true) sorted).*2.
Proof.
  induction sorted as [|[l w] sorted IH]; intros pre; [done|].
  cbn [fmap list_fmap select fst snd].
  specialize (IH (pre ++ [w])).
  rewrite <- app_assoc, length_app, Nat.add_1_r in IH. cbn in IH.
  rewrite filter_cons. cbn [fst].
  destruct (test l) eqn:Ht.
  - rewrite list_lookup_middle by done. rewrite IH. cbn.
    by rewrite decide_True.
  - rewrite IH. by rewrite decide_False.
Qed.

(** *** Proportions *)

Lemma Qc_div_lt_mono (q p t : Qc) : 0 < t → q < p ↔ q / t < p / t.
Proof. intros Ht. apply Qcmult_lt_mono_pos_r. by apply Qcinv_pos. Qed.

Lemma Qc_opp_div (q t : Qc) : (- q) / t = - (q / t).
Proof. unfold Qcdiv. ring. Qed.

(** *** The score of a candidate with evaluations *)

Section with_laws.

Hypothesis laws : ScaleLaws.

Lemma score_of_evaluated_documented self pairs :
  0 < total_weight pairs →
  ∃ (sorted : list (L * Qc)) (m : L),
    sorted ≡ₚ pairs
    ∧ sorted_by_scale sorted.*1
    ∧ weighted_median sorted m
    ∧ score_of_evaluated self pairs.*1 pairs.*2
      = Ok (tuple_score m (proportion_above m pairs)
                          (proportion_below m pairs)).
Proof.
  intros Hpos.
  destruct (reorder_permutation pairs (scale_argsort pairs.*1))
    as (sorted & Hsorted & Hperm).
  { rewrite (argsort_perm laws). by rewrite length_fmap. }
  pose proof (reorder_fmap fst _ _ _ Hsorted) as Hlevels.
  pose proof (reorder_fmap snd _ _ _ Hsorted) as Hweights.
  assert (total_weight sorted = total_weight pairs) as Htotal
    by by apply total_weight_Permutation.
  assert (0 < total_weight pairs / 2) as Hhalf.
  { apply Qcmult_pos_pos; [done|by compute]. }
  assert (total_weight pairs / 2 ≤ total_weight pairs) as Hle
    by (apply Qc_half_le; by apply Qclt_le_weak).
  destruct (find_median_spec sorted 0 (total_weight pairs / 2))
    as (m & i & w & Hm & Hi & Hge & Hlt); [done|by rewrite Qcplus_0_l, Htotal|].
  exists sorted, m. split; [done|]. split.
  { by apply (argsort_sorted laws pairs.*1). }
  split.
  { exists i, w. rewrite Htotal. split; [done|]. split.
    - by rewrite Qcplus_0_l in Hge.
    - intros j Hj. specialize (Hlt j Hj). by rewrite Qcplus_0_l in Hlt. }
  unfold score_of_evaluated. rewrite Hlevels. cbn [mbind result_bind].
  rewrite Hweights. cbn [mbind result_bind].
  rewrite sum_total_weight, Htotal, Hm.
  rewrite (select_spec (λ level, scale_gt level m) sorted []).
  rewrite (select_spec (λ level, scale_lt level m) sorted []).
  cbn [mbind result_bind]. rewrite !sum_total_weight.
  assert (∀ test : L → bool,
            total_weight (filter (λ lw, test lw.1 = true) sorted)
            = total_weight (filter (λ lw, test lw.1 = true) pairs)) as Hfilter.
  { intros test. apply total_weight_Permutation. by rewrite Hperm. }
  rewrite (Hfilter (λ level, scale_gt level m)).
  rewrite (Hfilter (λ level, scale_lt level m)). cbn beta.
  unfold tuple_score, proportion_above, proportion_below, py_truediv.
  assert (total_weight pairs ≠ 0) as Hne.
  { intros H0. rewrite H0 in Hpos. by apply Qclt_not_eq in Hpos. }
  rewrite !(decide_False (P := total_weight pairs = 0)) by done.
  set (p := total_weight (filter (λ lw, scale_gt lw.1 m = true) pairs)).
  set (q := total_weight (filter (λ lw, scale_lt lw.1 m = true) pairs)).
  destruct (decide (q < p)) as [Hqp|Hqp].
  - rewrite decide_True by by apply Qc_div_lt_mono.
    cbn. by rewrite Qc_opp_div.
  - rewrite decide_False by (by rewrite <- Qc_div_lt_mono).
    cbn. by rewrite Qc_opp_div.
Qed.

Lemma score_of_documented self (c : string) :
  pairs_of self c = [] ∨ 0 < total_weight (pairs_of self c) →
  ∃ s : score L,
    score_of self (pairs_of self c).*1 (pairs_of self c).*2 = Ok s
    ∧ documented_score self c s.
Proof.
  unfold documented_score, score_of.
  destruct (pairs_of self c) as [|lw pairs] eqn:Hpairs.
  - intros _. eexists. split; reflexivity.
  - intros [|Hpos]; [done|].
    destruct (score_of_evaluated_documented self (lw :: pairs) Hpos)
      as (sorted & m & Hperm & Hsorted & Hmedian & Hscore).
    eexists. split; [exact Hscore|]. by exists sorted, m.
Qed.

(** *** The second loop: one score per candidate *)

Lemma comprehension_total {C : Type} (f : string → result C)
    (g : string → C) (l : list string) :
  (∀ c, c ∈ l → f c = Ok (g c)) →
  ∃ m : gmap string C,
    comprehension (λ c _, f c) ((λ c, (c, ())) <$> l) = Ok m
    ∧ ∀ c, m !! c = if decide (c ∈ l) then Some (g c) else None.
Proof.
  induction l as [|c0 l IH]; intros Hf.
  - exists ∅. split; [done|]. intros c. rewrite lookup_empty.
    by rewrite decide_False by apply not_elem_of_nil.
  - destruct IH as (m & Hm & Hlookup).
    { intros c Hc. apply Hf. by right. }
    exists (<[c0 := g c0]> m). split.
    + cbn. rewrite (Hf c0) by by left. cbn. by rewrite Hm.
    + intros c. destruct (decide (c = c0)) as [->|Hne].
      * rewrite lookup_insert_eq. by rewrite decide_True by by left.
      * rewrite lookup_insert_ne, Hlookup by done.
        destruct (decide (c ∈ l)).
        -- by rewrite decide_True by by right.
        -- rewrite decide_False; [done|]. by intros [?|?]%elem_of_cons.
Qed.

Lemma set_comprehension_total {C : Type} (f : string → result C)
    (g : string → C) (X : gset string) :
  (∀ c, c ∈ X → f c = Ok (g c)) →
  ∃ m : gmap string C,
    set_comprehension f X = Ok m
    ∧ ∀ c, m !! c = if decide (c ∈ X) then Some (g c) else None.
Proof.
  intros Hf.
  destruct (comprehension_total f g (elements X)) as (m & Hm & Hlookup).
  { intros c Hc. apply Hf. by apply elem_of_elements. }
  exists m. split; [done|]. intros c. rewrite Hlookup.
  destruct (decide (c ∈ X)).
  - by rewrite decide_True by by apply elem_of_elements.
  - rewrite decide_False; [done|]. by rewrite elem_of_elements.
Qed.

Lemma scores_documented self :
  scores_candidates self (profile_converted_ self) →
  (∀ c, c ∈ candidates_ self →
        pairs_of self c = [] ∨ 0 < total_weight (pairs_of self c)) →
  ∃ scores : gmap string (score L),
    scores_ self = Ok scores
    ∧ dom scores = candidates_ self
    ∧ ∀ c, c ∈ candidates_ self →
        ∃ s, scores !! c = Some s ∧ documented_score self c s.
Proof.
  intros Hdom Hpairs. unfold scores_.
  destruct (collect_holds self (profile_converted_ self) _ _
              (holds_init (candidates_ self)) Hdom) as (st & -> & Hst).
  cbn [mbind result_bind].
  set (g := λ c, match score_of self (pairs_of self c).*1
                         (pairs_of self c).*2 with
                 | Ok s => s
                 | Raise _ => (None, 0, 0)
                 end).
  destruct (set_comprehension_total
              (λ c, match st.1 !! c, st.2 !! c with
                    | Some levels, Some weights => score_of self levels weights
                    | _, _ => Raise KeyError
                    end) g (candidates_ self)) as (scores & -> & Hlookup).
  { intros c Hc. destruct (Hst c) as [-> ->].
    rewrite !decide_True by done. cbn [app].
    change (pairs_in self (profile_converted_ self) c) with (pairs_of self c).
    destruct (score_of_documented self c (Hpairs c Hc)) as (s & Hs & _).
    unfold g. by rewrite Hs. }
  exists scores. split; [done|]. split.
  - apply set_eq. intros c. rewrite elem_of_dom, Hlookup.
    destruct (decide (c ∈ candidates_ self)); [by split; eauto|].
    split; [by intros [? ?]|done].
  - intros c Hc. rewrite Hlookup, decide_True by done.
    destruct (score_of_documented self c (Hpairs c Hc)) as (s & Hs & Hdoc).
    exists s. split; [|done]. unfold g. by rewrite Hs.
Qed.

(** *** Scores are compared lexicographically *)

Lemma compare_scores_lexicographic (m1 m2 : L) (x1 y1 x2 y2 : Qc) :
  compare_scores (Some m1, x1, y1) (Some m2, x2, y2)
  = Ok (if decide ((Some m1, x1, y1) = (Some m2, x2, y2)) then 0%Z
        else if scale_lt m1 m2 then (-1)%Z
        else if scale_lt m2 m1 then 1%Z
        else if decide (x1 < x2 ∨ (x1 = x2 ∧ y1 < y2)) then (-1)%Z
        else 1%Z).
Proof.
  unfold compare_scores. destruct (decide _); [done|].
  cbn. destruct (scale_lt m1 m2); [done|].
  rewrite (gt_lt laws). destruct (scale_lt m2 m1); [done|].
  unfold pair_lt. cbn.
  destruct (decide (x1 < x2 ∨ x1 = x2 ∧ y1 < y2)) as [[H|[H1 H2]]|H].
  - by rewrite bool_decide_eq_true_2.
  - rewrite (bool_decide_eq_true_2 (x1 = x2)),
      (bool_decide_eq_true_2 (y1 < y2)) by done.
    by rewrite orb_true_r.
  - rewrite (bool_decide_eq_false_2 (x1 < x2)) by tauto. cbn.
    destruct (decide (x1 = x2)).
    + rewrite (bool_decide_eq_false_2 (y1 < y2)) by tauto.
      by rewrite andb_false_r.
    + by rewrite (bool_decide_eq_false_2 (x1 = x2)).
Qed.

End with_laws.

End majority_judgment.

(** *** The interval scale is a lawful scale *)

Section interval_scale.

Variable key : nat → Qc.

Lemma insert_by_key_Permutation (i : nat) (l : list nat) :
  insert_by_key key i l ≡ₚ i :: l.
Proof.
  induction l as [|j l IH]; [done|]. cbn.
  destruct (decide (key j < key i)); [|done].
  rewrite IH. apply perm_swap.
Qed.

Lemma sorted_by_key_Permutation (l : list nat) : sorted_by_key key l ≡ₚ l.
Proof.
  induction l as [|i l IH]; [done|]. unfold sorted_by_key in *. cbn.
  by rewrite insert_by_key_Permutation, IH.
Qed.

Lemma insert_by_key_sorted (i : nat) (l : list nat) :
  StronglySorted (λ a b, key a ≤ key b) l →
  StronglySorted (λ a b, key a ≤ key b) (insert_by_key key i l).
Proof.
  induction 1 as [|j l Hl IH Hj]; cbn.
  - repeat constructor.
  - destruct (decide (key j < key i)) as [Hlt|Hge].
    + constructor; [done|]. rewrite insert_by_key_Permutation.
      constructor; [by apply Qclt_le_weak|done].
    + apply Qcle_ngt in Hge. constructor; [by constructor|].
      constructor; [done|].
      eapply Forall_impl; [exact Hj|]. intros x Hx. cbn in Hx.
      by transitivity (key j).
Qed.

Lemma sorted_by_key_sorted (l : list nat) :
  StronglySorted (λ a b, key a ≤ key b) (sorted_by_key key l).
Proof.
  induction l as [|i l IH]; [constructor|].
  unfold sorted_by_key in *. cbn. by apply insert_by_key_sorted.
Qed.

End interval_scale.

Lemma ScaleInterval_laws : @RuleMajorityJudgment.ScaleLaws Qc _.
Proof.
  split; cbn.
  - done.
  - intros a. apply bool_decide_eq_false_2. by apply Qcle_ngt.
  - intros a b c Hab%bool_decide_eq_true_1 Hbc%bool_decide_eq_true_1.
    apply bool_decide_eq_true_2. by transitivity b.
  - intros a b c Hab%bool_decide_eq_false_1 Hbc%bool_decide_eq_false_1.
    apply bool_decide_eq_false_2. apply Qcle_ngt.
    apply Qcle_ngt in Hab, Hbc. by transitivity b.
  - intros l. apply sorted_by_key_Permutation.
  - intros l sorted Hsorted.
    set (key := λ i, default 0 (l !! i)) in *.
    assert (Forall (λ i, (i < length l)%nat)
              (sorted_by_key key (seq 0 (length l)))) as Hvalid.
    { rewrite sorted_by_key_Permutation.
      apply Forall_forall. intros i Hi%elem_of_seq. lia. }
    rewrite (reorder_omap _ _ Hvalid) in Hsorted. injection Hsorted as <-.
    assert (omap (λ i, l !! i) (sorted_by_key key (seq 0 (length l)))
            = key <$> sorted_by_key key (seq 0 (length l))) as ->.
    { induction Hvalid as [|i idx Hi _ IH]; [done|].
      cbn [omap list_omap]. rewrite fmap_cons, <- IH. unfold key.
      by destruct (lookup_lt_is_Some_2 l i Hi) as [x ->]. }
    eapply StronglySorted_fmap; [|apply sorted_by_key_sorted].
    intros i j Hij. cbn in Hij. apply bool_decide_eq_false_2.
    by apply Qcle_ngt.
Qed.



(** ** The general statements at the documented examples *)

(** Disjointness of the classes of a concrete order, by cases on the two
    positions. *)
Ltac disjoint_by_cases :=
  let i := fresh "i" in
  let j := fresh "j" in
  let Hij := fresh "Hij" in
  let Hi := fresh "Hi" in
  let Hj := fresh "Hj" in
  intros i j ? ? Hij Hi Hj;
  do 4 (try destruct i as [|i]); do 4 (try destruct j as [|j]);
  try discriminate Hi; try discriminate Hj; try (by destruct Hij);
  injection Hi as <-; injection Hj as <-;
  apply (bool_decide_unpack _); vm_compute; exact I.


(** In [a > b ~ c] with 4 points, b is in a class of two candidates served
    after one candidate. *)
Lemma ScorerBucklin_scores_witness :
  ScorerBucklin.scores_
    (ScorerBucklin.mk ballot_a_bc candidates_election 4
       (Some true) (Some true)) !! "b"
  = Some (share (budget 4 1) 2).
Proof.
  refine (proj1 (proj1 ScorerBucklin_scores
                   (ScorerBucklin.mk ballot_a_bc candidates_election 4
                      (Some true) (Some true)) _ _ _)
                1%nat {[ "b"; "c" ]} "b" eq_refl _).
  - done.
  - disjoint_by_cases.
  - by_computation.
  - by_computation.
Defined.

(** * Further properties of the code *)

(** ** [ScorerBucklin.scores_]: bounds, ranking and domain *)

Section bucklin_points.

Import ScorerBucklin.

Local Set Warnings "-clear-no-such-hyp".

Lemma Qc_0_le_1 : (0 : Qc) ≤ 1.
Proof. by compute. Qed.

Lemma distribute_points_ok (group : gset string)
    (st : gmap string Qc * Qc) :
  points_ok st → points_ok (distribute group st).
Proof.
  destruct st as [scores points]. intros [Hscores Hpoints]. cbn in *.
  unfold distribute.
  destruct (decide (Qc_of_Z (Z.of_nat (size group)) ≤ points)) as [Hfit|Hfit].
  - split; cbn.
    + intros c x. rewrite lookup_union_gset_to_gmap.
      destruct (decide (c ∈ group)); [|apply Hscores].
      intros [= <-]. split; [apply Qc_0_le_1|done].
    + by apply Qc_sub_nonneg.
  - split; cbn; [|done].
    intros c x. rewrite lookup_union_gset_to_gmap.
    destruct (decide (c ∈ group)); [|apply Hscores].
    intros [= <-]. apply Qclt_nge in Hfit.
    apply Qc_ratio; [done|by apply Qclt_le_weak|].
    intros Hn. rewrite Hn in Hfit. by apply Qcle_ngt in Hpoints.
Qed.

Lemma ordered_points_ok (w : list (gset string)) :
  ∀ st : gmap string Qc * Qc, points_ok st → points_ok (ordered w st).
Proof.
  induction w as [|cl w IH]; intros st Hst; [done|].
  unfold ordered. cbn [foldl]. apply IH. by apply distribute_points_ok.
Qed.

(** X1. With [k ≥ 0] points to distribute, every score that [scores_]
    gives is between 0 and 1, whatever the ballot and the flags. *)
Theorem Bucklin_scores_between_0_and_1 (self : t) (c : string) (x : Qc) :
  (0 ≤ k self)%Z → scores_ self !! c = Some x → 0 ≤ x ∧ x ≤ 1.
Proof.
  intros Hk. unfold scores_.
  set (st := ordered _ _).
  assert (points_ok st) as Hst.
  { apply ordered_points_ok. split; cbn.
    - intros c' x'. by rewrite lookup_empty.
    - rewrite <- Z2Qc_inj_0. by apply Qc_of_Z_le. }
  assert (points_ok (unordered self st)) as Hun.
  { unfold unordered.
    destruct (unordered_receive_points self) as [[]|];
      [by apply distribute_points_ok| |done].
    destruct Hst as [Hs Hp]. split; [|done]. cbn.
    intros c' x'. rewrite lookup_union_gset_to_gmap.
    destruct (decide _); [|apply Hs].
    intros [= <-]. split; [done|apply Qc_0_le_1]. }
  unfold absent. destruct (absent_receive_points self) as [[]|].
  - apply (distribute_points_ok _ _ Hun).
  - rewrite lookup_union_gset_to_gmap.
    destruct (decide _); [|apply Hun].
    intros [= <-]. split; [done|apply Qc_0_le_1].
  - apply Hun.
Qed.

(** In [a > b ~ c] with 4 points, the unordered candidate d gets half a
    point. *)
Lemma Bucklin_scores_between_0_and_1_witness :
  0 ≤ Q2Qc (1 # 2) ∧ Q2Qc (1 # 2) ≤ 1.
Proof.
  apply (Bucklin_scores_between_0_and_1
           (mk ballot_a_bc candidates_election 4 (Some true) (Some true))
           "d").
  - done.
  - by_computation.
Defined.

Lemma distribute_dom (group : gset string) (st : gmap string Qc * Qc) :
  dom (distribute group st).1 = group ∪ dom st.1.
Proof.
  destruct st as [scores points]. unfold distribute.
  destruct (decide _); cbn; by rewrite dom_union_L, dom_gset_to_gmap.
Qed.

Lemma ordered_dom (w : list (gset string)) :
  ∀ st : gmap string Qc * Qc, dom (ordered w st).1 = ⋃ w ∪ dom st.1.
Proof.
  induction w as [|cl w IH]; intros st.
  - cbn. set_solver.
  - unfold ordered. cbn [foldl]. fold (ordered w (distribute cl st)).
    rewrite IH, distribute_dom, union_list_cons. set_solver.
Qed.

(** X2. The candidates that [scores_] mentions are the ranked ones, the
    unordered ones unless their flag is [None], and the absent ones
    unless their flag is [None]. *)
Theorem Bucklin_scores_domain (self : t) :
  dom (scores_ self)
  = BallotOrder.candidates_in_b (ballot_ self)
    ∪ match unordered_receive_points self with
      | Some _ => BallotOrder.candidates_not_in_b (ballot_ self)
      | None => ∅
      end
    ∪ match absent_receive_points self with
      | Some _ => candidates_ self ∖ BallotOrder.candidates (ballot_ self)
      | None => ∅
      end.
Proof.
  unfold scores_. set (st := ordered _ _).
  assert (dom st.1 = BallotOrder.candidates_in_b (ballot_ self)) as Hst.
  { unfold st. rewrite ordered_dom. cbn. rewrite dom_empty_L.
    unfold BallotOrder.candidates_in_b. set_solver. }
  assert (dom (unordered self st).1
          = BallotOrder.candidates_in_b (ballot_ self)
            ∪ match unordered_receive_points self with
              | Some _ => BallotOrder.candidates_not_in_b (ballot_ self)
              | None => ∅
              end) as Hun.
  { unfold unordered. destruct (unordered_receive_points self) as [[]|].
    - rewrite distribute_dom, Hst. set_solver.
    - cbn. rewrite dom_union_L, dom_gset_to_gmap, Hst. set_solver.
    - rewrite Hst. set_solver. }
  unfold absent. destruct (absent_receive_points self) as [[]|].
  - rewrite distribute_dom, Hun. set_solver.
  - rewrite dom_union_L, dom_gset_to_gmap, Hun. set_solver.
  - rewrite Hun. set_solver.
Qed.

Lemma budget_nonneg (k : Z) (s : nat) : 0 ≤ budget k s.
Proof.
  unfold budget. destruct (decide _); [|done].
  rewrite <- Z2Qc_inj_0. apply Qc_of_Z_le. lia.
Qed.

Lemma share_bounds (points : Qc) (n : nat) :
  0 ≤ points → 0 ≤ share points n ∧ share points n ≤ 1.
Proof.
  intros Hpoints. unfold share. destruct (decide _) as [Hfit|Hfit].
  - split; [apply Qc_0_le_1|done].
  - apply Qclt_nge in Hfit.
    apply Qc_ratio; [done|by apply Qclt_le_weak|].
    intros Hn. rewrite Hn in Hfit. by apply Qcle_ngt in Hpoints.
Qed.

(** A group that is served later never gets a larger share. *)
Lemma share_budget_mono (k : Z) (s s' n n' : nat) :
  (s + n ≤ s')%nat → (1 ≤ n')%nat →
  share (budget k s') n' ≤ share (budget k s) n.
Proof.
  intros Hs Hn'. unfold share at 2.
  destruct (decide (Qc_of_Z (Z.of_nat n) ≤ budget k s)) as [Hfit|Hfit].
  - apply share_bounds, budget_nonneg.
  - assert (budget k s' = 0) as ->.
    { revert Hfit. unfold budget.
      destruct (decide (Z.of_nat s ≤ k)%Z).
      - rewrite <- Z2Qc_inj_le. intros Hfit. by rewrite decide_False by lia.
      - intros _. by rewrite decide_False by lia. }
    unfold share. rewrite decide_False.
    + unfold Qcdiv. rewrite Qcmult_0_l.
      apply Qclt_nge in Hfit.
      apply Qcmult_nonneg_nonneg; [apply budget_nonneg|].
      apply Qclt_le_weak, Qcinv_pos.
      eapply Qcle_lt_trans; [apply (budget_nonneg k s)|done].
    + rewrite <- Z2Qc_inj_0, <- Z2Qc_inj_le. lia.
Qed.

Lemma size_elem_of_pos (X : gset string) (c : string) :
  c ∈ X → (1 ≤ size X)%nat.
Proof.
  intros Hc. assert (size X ≠ 0%nat); [|lia].
  apply size_non_empty_iff. set_solver.
Qed.

Lemma ranked_before_mono (w : list (gset string)) :
  ∀ (i j : nat) (cl : gset string),
    (i < j)%nat → w !! i = Some cl →
    (ranked_before w i + size cl ≤ ranked_before w j)%nat.
Proof.
  induction w as [|cl0 w IH]; intros i j cl Hij Hi.
  - by rewrite lookup_nil in Hi.
  - destruct j as [|j]; [lia|]. rewrite ranked_before_S.
    destruct i as [|i].
    + injection Hi as <-. unfold ranked_before. cbn. lia.
    + rewrite ranked_before_S. cbn in Hi.
      specialize (IH i j cl ltac:(lia) Hi). lia.
Qed.

Lemma ranked_before_length (w : list (gset string)) (i : nat)
    (cl : gset string) :
  w !! i = Some cl →
  (ranked_before w i + size cl ≤ ranked_before w (length w))%nat.
Proof.
  intros Hi. apply ranked_before_mono; [|done].
  by eapply lookup_lt_Some.
Qed.

(** X3. On a well-formed ballot with [k ≥ 0] points, a ranked candidate
    never scores less than a candidate of a later class, an unordered
    candidate or an absent candidate. *)
Theorem Bucklin_scores_follow_ranking (self : t) (i : nat)
    (cl : gset string) (c c' : string) (x x' : Qc) :
  (0 ≤ k self)%Z →
  disjoint_classes (BallotOrder.as_weak_order (ballot_ self)) →
  BallotOrder.candidates_in_b (ballot_ self)
    ⊆ BallotOrder.candidates (ballot_ self) →
  BallotOrder.as_weak_order (ballot_ self) !! i = Some cl →
  c ∈ cl →
  (∃ (j : nat) (cl' : gset string),
      (i < j)%nat
      ∧ BallotOrder.as_weak_order (ballot_ self) !! j = Some cl'
      ∧ c' ∈ cl')
  ∨ c' ∈ BallotOrder.candidates_not_in_b (ballot_ self)
  ∨ c' ∈ candidates_ self ∖ BallotOrder.candidates (ballot_ self) →
  scores_ self !! c = Some x →
  scores_ self !! c' = Some x' →
  x' ≤ x.
Proof.
  intros Hk Hd Hsub Hi Hc Hc' Hx Hx'.
  destruct (scores_spec (k self) self eq_refl Hk Hd Hsub)
    as (Hranked & Hunranked & Hmissing).
  rewrite (Hranked i cl c Hi Hc) in Hx. injection Hx as <-.
  pose proof (ranked_before_length _ _ _ Hi) as Hlen.
  destruct Hc' as [(j & cl' & Hij & Hj & Hc')|[Hc'|Hc']].
  - rewrite (Hranked j cl' c' Hj Hc') in Hx'. injection Hx' as <-.
    apply share_budget_mono.
    + by apply ranked_before_mono.
    + by apply (size_elem_of_pos cl' c').
  - rewrite (Hunranked c' Hc') in Hx'.
    destruct (unordered_receive_points self) as [[]|]; [| |done].
    + injection Hx' as <-. apply share_budget_mono; [done|].
      by apply (size_elem_of_pos _ c').
    + injection Hx' as <-. apply share_bounds, budget_nonneg.
  - rewrite (Hmissing c' Hc') in Hx'.
    destruct (absent_receive_points self) as [[]|]; [| |done].
    + injection Hx' as <-. apply share_budget_mono.
      * unfold served_before_absent. lia.
      * by apply (size_elem_of_pos _ c').
    + injection Hx' as <-. apply share_bounds, budget_nonneg.
Qed.

(** In [a > b ~ c] with 2 points, a gets one point and b half a point. *)
Lemma Bucklin_scores_follow_ranking_witness : Q2Qc (1 # 2) ≤ 1.
Proof.
  apply (Bucklin_scores_follow_ranking
           (mk ballot_a_bc candidates_election 2 (Some true) (Some true))
           0 {[ "a" ]} "a" "b").
  - done.
  - disjoint_by_cases.
  - by_computation.
  - reflexivity.
  - by apply elem_of_singleton.
  - left. exists 1%nat, {[ "b"; "c" ]}.
    split; [lia|]. split; [reflexivity|by_computation].
  - by_computation.
  - by_computation.
Defined.

End bucklin_points.

(** ** [ScaleInterval.argsort] is a stable sort *)

Section argsort.

Variable key : nat → Qc.

Lemma StronglySorted_lookup_lt {A : Type} (R : relation A) (l : list A) :
  StronglySorted R l →
  ∀ (p q : nat) (a b : A),
    (p < q)%nat → l !! p = Some a → l !! q = Some b → R a b.
Proof.
  induction 1 as [|x l Hl IH Hx]; intros p q a b Hpq Hp Hq.
  - by rewrite lookup_nil in Hp.
  - destruct q as [|q]; [lia|]. cbn in Hq. destruct p as [|p].
    + injection Hp as <-. rewrite Forall_forall in Hx.
      apply Hx. by eapply list_elem_of_lookup_2.
    + cbn in Hp. apply (IH p q); [lia|done..].
Qed.

Lemma insert_by_key_stable (i : nat) (l : list nat) :
  Forall (λ j, (i < j)%nat) l →
  StronglySorted (stable_order key) l →
  StronglySorted (stable_order key) (insert_by_key key i l).
Proof.
  intros Hi Hl. induction Hl as [|j l Hl IH Hj]; cbn.
  - repeat constructor.
  - apply Forall_cons in Hi as [Hij Hi].
    destruct (decide (key j < key i)) as [Hlt|Hge].
    + constructor; [by apply IH|].
      rewrite insert_by_key_Permutation. constructor; [by left|done].
    + apply Qcle_ngt in Hge.
      assert (stable_order key i j) as Hfirst.
      { apply Qcle_lt_or_eq in Hge as [Hlt|Heq]; [by left|by right]. }
      constructor; [by constructor|]. constructor; [done|].
      rewrite Forall_forall in Hi, Hj. apply Forall_forall. intros x Hx.
      specialize (Hi x Hx). specialize (Hj x Hx).
      destruct Hfirst as [Hlt|[Heq _]], Hj as [Hlt'|[Heq' _]].
      * left. by transitivity (key j).
      * left. by rewrite <- Heq'.
      * left. by rewrite Heq.
      * right. split; [by rewrite Heq|done].
Qed.

Lemma sorted_by_key_stable (n : nat) :
  ∀ s : nat, StronglySorted (stable_order key) (sorted_by_key key (seq s n)).
Proof.
  induction n as [|n IH]; intros s; [constructor|].
  unfold sorted_by_key in *. cbn. apply insert_by_key_stable; [|apply IH].
  apply Forall_forall. intros j Hj.
  rewrite (sorted_by_key_Permutation key (seq (S s) n)) in Hj.
  apply elem_of_seq in Hj. lia.
Qed.

End argsort.

(** X5. On an interval scale, [argsort] returns a permutation of the
    indexes of the list that sorts the levels in increasing order and
    keeps equal levels in the order of the list. *)
Theorem ScaleInterval_argsort_stable (some_list : list Qc) :
  scale_argsort some_list ≡ₚ seq 0 (length some_list)
  ∧ stably_sorted some_list (scale_argsort some_list).
Proof.
  split; [apply sorted_by_key_Permutation|].
  intros p q i j x y Hpq Hp Hq Hx Hy.
  pose proof (StronglySorted_lookup_lt _ _
                (sorted_by_key_stable (λ i, default 0 (some_list !! i))
                   (length some_list) 0) p q i j Hpq Hp Hq) as Horder.
  unfold stable_order in Horder. by rewrite Hx, Hy in Horder.
Qed.

(** ** [BallotLevels]: the inferred scale and the restriction *)

Section levels_ballots.

Local Set Warnings "-clear-no-such-hyp".










(** X7. Restricting a levels ballot to a set of candidates fails exactly
    when its scale cannot be determined, with the same error; otherwise
    the restricted ballot keeps the scale, intersects the declared
    candidates, and evaluates the kept candidates as before and no other
    candidate. *)
Theorem BallotLevels_restrict_getitem (b : BallotLevels.t)
    (cs : gset string) :
  match BallotLevels.scale b with
  | Ok s =>
      ∃ b' : BallotLevels.t,
        BallotLevels.restrict b (Some cs) = Ok b'
        ∧ BallotLevels.scale b' = Ok s
        ∧ BallotLevels.candidates b' = BallotLevels.candidates b ∩ cs
        ∧ BallotLevels.candidates_in_b b'
          = BallotLevels.candidates_in_b b ∩ cs
        ∧ ∀ c : string,
            BallotLevels.__getitem__ b' c
            = if decide (c ∈ cs) then BallotLevels.__getitem__ b c
              else Raise KeyError
  | Raise e => BallotLevels.restrict b (Some cs) = Raise e
  end.
Proof.
  rewrite BallotLevels_restrict_Some.
  destruct (BallotLevels.scale b) as [s|e]; [|done]. cbn.
  eexists. split; [reflexivity|]. split; [reflexivity|].
  split; [reflexivity|]. split.
  - unfold BallotLevels.candidates_in_b. cbn.
    apply set_eq. intros c.
    rewrite elem_of_intersection, !elem_of_dom.
    unfold is_Some. setoid_rewrite map_lookup_filter_Some. cbn.
    naive_solver.
  - intros c. unfold BallotLevels.__getitem__. cbn.
    destruct (decide (c ∈ cs)) as [Hc|Hc].
    + destruct (BallotLevels.as_dict b !! c) as [v|] eqn:Hv.
      * by rewrite (map_lookup_filter_Some_2 _ _ c v).
      * rewrite (proj2 (map_lookup_filter_None _ _ c)); [done|]. by left.
    + rewrite (proj2 (map_lookup_filter_None _ _ c)); [done|].
      right. intros v _. done.
Qed.

End levels_ballots.

(** ** [BallotLevels.as_weak_order]: the classes of a levels ballot *)

Section natural_ordering.

Local Set Warnings "-clear-no-such-hyp".

Lemma Ascii_compare_refl (x : Ascii.ascii) : Ascii.compare x x = Eq.
Proof. unfold Ascii.compare. apply N.compare_refl. Qed.




























End natural_ordering.

Section weak_order_of_levels.

Local Set Warnings "-clear-no-such-hyp".





End weak_order_of_levels.

(** ** [ConverterBallotToLevelsInterval]: conversion of levels ballots *)

Section interval_converter.

Import ConverterBallotToLevelsInterval.

Local Set Warnings "-clear-no-such-hyp".

Lemma comprehension_Ok_total {A B : Type} (f : string → A → result B)
    (g : string → A → B) (items : list (string * A)) :
  (∀ c v, (c, v) ∈ items → f c v = Ok (g c v)) →
  comprehension f items
  = Ok (list_to_map ((λ cv, (cv.1, g cv.1 cv.2)) <$> items)).
Proof.
  induction items as [|[c v] items IH]; intros Hf; [done|].
  cbn. rewrite Hf by by left. cbn. rewrite IH; [done|].
  intros c' v' Hin. apply Hf. by right.
Qed.

Lemma dict_comprehension_total {A B : Type} (f : string → A → result B)
    (g : string → A → B) (d : gmap string A) :
  (∀ c v, d !! c = Some v → f c v = Ok (g c v)) →
  ∃ m : gmap string B,
    dict_comprehension f d = Ok m ∧ ∀ c, m !! c = g c <$> d !! c.
Proof.
  intros Hf. eexists. split.
  - apply comprehension_Ok_total.
    intros c v Hcv%elem_of_map_to_list. by apply Hf.
  - intros c.
    assert (((λ cv : string * A, (cv.1, g cv.1 cv.2)) <$> map_to_list d).*1
            = (map_to_list d).*1) as Hkeys.
    { rewrite <- list_fmap_compose. by apply list_fmap_ext. }
    destruct (d !! c) as [v|] eqn:Hv; cbn.
    + apply elem_of_list_to_map_1.
      * rewrite Hkeys. apply NoDup_fst_map_to_list.
      * apply list_elem_of_fmap. exists (c, v).
        split; [done|by apply elem_of_map_to_list].
    + apply not_elem_of_list_to_map_1. rewrite Hkeys.
      intros ([c' v'] & -> & Hin%elem_of_map_to_list)%list_elem_of_fmap.
      cbn in Hv. by rewrite Hin in Hv.
Qed.

Lemma affine_Ok (self : t) (L H a b : Qc) :
  has_value (low self) L → has_value (high self) H → b ≠ 0 →
  affine self (Ok a) (Ok b) = Ok (LFloat (L + (H - L) * a / b)).
Proof.
  unfold has_value, affine, py_sub. intros HL HH Hb.
  rewrite HH, HL. cbn. unfold py_truediv. by rewrite decide_False.
Qed.

Lemma affine_ZeroDivisionError (self : t) (L H a : Qc) :
  has_value (low self) L → has_value (high self) H →
  affine self (Ok a) (Ok 0) = Raise ZeroDivisionError.
Proof.
  unfold has_value, affine, py_sub. intros HL HH.
  rewrite HH, HL. cbn. unfold py_truediv. by rewrite decide_True.
Qed.

Lemma levels_restricted_full (d : gmap string level) (X : gset string)
    (sc : Scale) (candidates : option (gset string)) :
  ∃ l : BallotLevels.t,
    levels_restricted d X sc candidates = Ok (Levels l)
    ∧ BallotLevels._input_scale l = Some sc
    ∧ BallotLevels.candidates l = restricted X candidates
    ∧ ∀ c, BallotLevels.as_dict l !! c
           = if decide (kept candidates c) then d !! c else None.
Proof.
  destruct candidates as [cs|]; cbn.
  - eexists. split; [reflexivity|]. split; [reflexivity|].
    split; [reflexivity|]. intros c. cbn.
    destruct (decide (c ∈ cs)) as [Hc|Hc].
    + destruct (d !! c) as [v|] eqn:Hd.
      * by apply map_lookup_filter_Some.
      * apply map_lookup_filter_None. by left.
    + apply map_lookup_filter_None. right. intros v _. exact Hc.
  - eexists. split; [reflexivity|]. split; [reflexivity|].
    split; [reflexivity|]. intros c. reflexivity.
Qed.

Lemma values_numbers (x : BallotLevels.t) (c : string) (v : level) :
  forallb is_number (BallotLevels.values x) = true →
  BallotLevels.as_dict x !! c = Some v → ∃ q : Qc, has_value v q.
Proof.
  intros Hnumbers%forallb_Forall_true Hv%values_elem_of.
  rewrite Forall_forall in Hnumbers.
  apply is_number_has_value. by apply Hnumbers.
Qed.


Lemma low_Ok_bounded (s : Scale) (v : level) :
  Scale_.low s = Ok v → Scale_.is_bounded s = true.
Proof. by destruct s. Qed.

Lemma call_levels_bounded (self : t) (x : BallotLevels.t) (s : Scale)
    (candidates : option (gset string)) :
  BallotLevels.scale x = Ok s → Scale_.is_bounded s = true →
  call_levels self x candidates
  = except_TypeError_AttributeError
      (call_cardinal self x candidates)
      (if Scale_.is_ScaleFromList s then
         call_from_list self x s candidates
       else
         borda ← BallotLevels.borda x (borda_unordered_give_points self);
         call_borda self borda (BallotLevels.candidates x)
           (BallotLevels.candidates_in_b x) candidates).
Proof.
  intros Hs Hbounded. unfold call_levels, bound_scale.
  rewrite Hs. cbn. rewrite Hbounded. cbn. by rewrite Hs.
Qed.








Lemma map_to_list_nonempty {A : Type} (d : gmap string A) :
  d ≠ ∅ →
  ∃ (c : string) (v : A) (rest : list (string * A)),
    map_to_list d = (c, v) :: rest ∧ d !! c = Some v.
Proof.
  intros Hne. destruct (map_to_list d) as [|[c v] rest] eqn:Hd.
  - by apply map_to_list_empty_iff in Hd.
  - exists c, v, rest. split; [done|].
    apply elem_of_map_to_list. rewrite Hd. by left.
Qed.

(** X11. A levels ballot with numeric evaluations whose scale has equal
    bounds, such as the scale inferred from a single evaluation, cannot be
    converted: the conversion raises [ZeroDivisionError]. *)
Theorem ToLevelsInterval_degenerate_scale (self : t) (x : BallotLevels.t)
    (s : Scale) (vlo vhi : level) (q L H : Qc)
    (candidates : option (gset string)) :
  BallotLevels.scale x = Ok s →
  Scale_.low s = Ok vlo → Scale_.high s = Ok vhi →
  has_value vlo q → has_value vhi q →
  has_value (low self) L → has_value (high self) H →
  forallb is_number (BallotLevels.values x) = true →
  BallotLevels.as_dict x ≠ ∅ →
  __call__ self (PyBallot (Levels x)) candidates = Raise ZeroDivisionError.
Proof.
  intros Hs Hlo Hhi Hqlo Hqhi HL HH Hnumbers Hne.
  unfold __call__. cbn.
  rewrite (call_levels_bounded self x s) by eauto using low_Ok_bounded.
  assert (call_cardinal self x candidates = Raise ZeroDivisionError) as ->;
    [|done].
  unfold call_cardinal, dict_comprehension. rewrite Hs. cbn.
  rewrite Hlo, Hhi. cbn.
  destruct (map_to_list_nonempty _ Hne) as (c & v & rest & -> & Hv).
  destruct (values_numbers x c v Hnumbers Hv) as [qv Hqv].
  cbn.
  assert (affine self (py_sub v vlo) (py_sub vhi vlo)
          = Raise ZeroDivisionError) as ->; [|done].
  unfold py_sub. unfold has_value in Hqv, Hqlo, Hqhi.
  rewrite Hqv, Hqlo, Hqhi. cbn.
  replace (q - q) with (0 : Qc) by ring.
  by apply (affine_ZeroDivisionError self L H).
Qed.

(** The ballot [{'a': 5}] infers the range from 5 to 5. *)
Lemma ToLevelsInterval_degenerate_scale_witness :
  __call__ (to_unit_interval true) (PyBallot (Levels levels_a_5)) None
  = Raise ZeroDivisionError.
Proof.
  apply (ToLevelsInterval_degenerate_scale (to_unit_interval true)
           levels_a_5 (ScaleRange (LInt 5) (LInt 5)) (LInt 5) (LInt 5)
           (Qc_of_Z 5) 0 1).
  - by_computation.
  - reflexivity.
  - reflexivity.
  - reflexivity.
  - reflexivity.
  - reflexivity.
  - reflexivity.
  - by_computation.
  - by_computation.
Defined.

Ltac invert_bind H :=
  let a := fresh "a" in
  let Ha := fresh "H" a in
  apply bind_Ok in H as (a & Ha & H).

Lemma levels_restricted_on (d : gmap string level) (X : gset string)
    (sc : Scale) (candidates : option (gset string)) (out : Ballot) :
  levels_restricted d X sc candidates = Ok out →
  levels_on sc (restricted X candidates) out.
Proof.
  destruct (levels_restricted_full d X sc candidates)
    as (l & -> & Hsc & HX & _).
  intros [= <-]. by exists l.
Qed.

Lemma call_veto_on (self : t) (n : BallotOneName.t)
    (candidates : option (gset string)) (out : Ballot) :
  call_veto self n candidates = Ok out →
  levels_on (scale self)
    (restricted (BallotOneName.candidates n) candidates) out.
Proof.
  unfold call_veto.
  destruct (BallotOneName.candidate n); apply levels_restricted_on.
Qed.

Lemma call_one_name_on (self : t) (n : BallotOneName.t)
    (candidates : option (gset string)) (out : Ballot) :
  call_one_name self n candidates = Ok out →
  levels_on (scale self)
    (restricted (BallotOneName.candidates n) candidates) out.
Proof.
  unfold call_one_name.
  destruct (BallotOneName.candidate n); apply levels_restricted_on.
Qed.

Lemma call_borda_on (self : t) (borda : gmap string Qc)
    (X Xb : gset string) (candidates : option (gset string))
    (out : Ballot) :
  call_borda self borda X Xb candidates = Ok out →
  levels_on (scale self) (restricted X candidates) out.
Proof.
  unfold call_borda. intros Hout. invert_bind Hout.
  by apply levels_restricted_on in Hout.
Qed.

Lemma call_cardinal_on (self : t) (x : BallotLevels.t)
    (candidates : option (gset string)) (out : Ballot) :
  call_cardinal self x candidates = Ok out →
  levels_on (scale self)
    (restricted (BallotLevels.candidates x) candidates) out.
Proof.
  unfold call_cardinal. intros Hout. invert_bind Hout.
  by apply levels_restricted_on in Hout.
Qed.

Lemma call_from_list_on (self : t) (x : BallotLevels.t) (s : Scale)
    (candidates : option (gset string)) (out : Ballot) :
  call_from_list self x s candidates = Ok out →
  levels_on (scale self)
    (restricted (BallotLevels.candidates x) candidates) out.
Proof.
  unfold call_from_list. intros Hout. invert_bind Hout.
  by apply levels_restricted_on in Hout.
Qed.

Lemma bound_scale_on (self : t) (x : BallotLevels.t)
    (candidates : option (gset string)) (r : Ballot + BallotLevels.t) :
  bound_scale self x candidates = Ok r →
  match r with
  | inl out =>
      levels_on (ScaleInterval (low self) (high self))
        (restricted (BallotLevels.candidates x) candidates) out
  | inr x' => BallotLevels.candidates x' = BallotLevels.candidates x
  end.
Proof.
  unfold bound_scale. intros Hr. invert_bind Hr.
  destruct (negb (Scale_.is_bounded a)); [|by injection Hr as <-].
  destruct (forallb is_number (BallotLevels.values x)).
  - do 4 invert_bind Hr. destruct a3.
    + invert_bind Hr. injection Hr as <-.
      by eapply levels_restricted_on.
    + do 2 invert_bind Hr. by injection Hr as <-.
  - invert_bind Hr. by injection Hr as <-.
Qed.

Lemma call_levels_on (self : t) (x : BallotLevels.t)
    (candidates : option (gset string)) (out : Ballot) :
  call_levels self x candidates = Ok out →
  levels_on (scale self)
    (restricted (BallotLevels.candidates x) candidates) out
  ∨ levels_on (ScaleInterval (low self) (high self))
      (restricted (BallotLevels.candidates x) candidates) out.
Proof.
  unfold call_levels. intros Hout. invert_bind Hout.
  apply bound_scale_on in Ha. destruct a as [r|x'].
  - injection Hout as <-. by right.
  - left. rewrite <- Ha. unfold except_TypeError_AttributeError in Hout.
    destruct (call_cardinal self x' candidates) as [o|e] eqn:Hcardinal.
    + injection Hout as <-. by eapply call_cardinal_on.
    + destruct e; try discriminate; invert_bind Hout;
        (destruct (Scale_.is_ScaleFromList a);
         [by eapply call_from_list_on
         |invert_bind Hout; by eapply call_borda_on]).
Qed.

(** X12. Whatever ballot the input stands for, a conversion that returns
    gives a levels ballot whose scale is the scale of the converter, or
    the interval between its bounds, and whose declared candidates are
    those of the input ballot, restricted to the candidates given. *)
Theorem ToLevelsInterval_returns_levels (self : t) (x : pyobj)
    (b out : Ballot) (candidates : option (gset string)) :
  converter_ballot.ConverterBallotGeneral.__call__
    converter_ballot.ConverterBallotGeneral.default x None = Ok b →
  __call__ self x candidates = Ok out →
  levels_on (scale self) (restricted (Ballot_candidates b) candidates) out
  ∨ levels_on (ScaleInterval (low self) (high self))
      (restricted (Ballot_candidates b) candidates) out.
Proof.
  intros Hb. unfold __call__. rewrite Hb. cbn.
  destruct b as [o|l|n|n|n|cs]; cbn.
  - intros Hout. left. by eapply call_borda_on.
  - apply call_levels_on.
  - intros Hout. left. by eapply call_one_name_on.
  - intros Hout. left. by eapply call_one_name_on.
  - intros Hout. left. by eapply call_veto_on.
  - discriminate.
Qed.

(** The veto against a among a, b and c, restricted to b and c. *)
Lemma ToLevelsInterval_returns_levels_witness :
  levels_on (scale (to_unit_interval true))
    (restricted (Ballot_candidates veto_a_abc) (Some {[ "b"; "c" ]}))
    (Levels (BallotLevels.mk {[ "b" := LFloat 1; "c" := LFloat 1 ]}
               {[ "b"; "c" ]} (Some unit_interval)))
  ∨ levels_on
      (ScaleInterval (low (to_unit_interval true))
         (high (to_unit_interval true)))
      (restricted (Ballot_candidates veto_a_abc) (Some {[ "b"; "c" ]}))
      (Levels (BallotLevels.mk {[ "b" := LFloat 1; "c" := LFloat 1 ]}
                 {[ "b"; "c" ]} (Some unit_interval))).
Proof.
  apply (ToLevelsInterval_returns_levels (to_unit_interval true)
           (PyBallot veto_a_abc) veto_a_abc).
  - reflexivity.
  - by_computation.
Defined.

Lemma levels_Ok_list (s : Scale) (ls : list level) :
  Scale_.levels s = Ok ls →
  Scale_.is_bounded s = true ∧ Scale_.is_ScaleFromList s = true
  ∧ Scale_.low s = match ls with
                   | [] => Raise IndexError
                   | v :: _ => Ok v
                   end.
Proof. destruct s; cbn; try discriminate; by intros [= ->]. Qed.

(** X13. A levels ballot whose evaluations are labels, not numbers, of a
    list scale with at least two levels is converted by the index of the
    labels: every kept candidate gets the level
    [low + (high - low) * i / (n - 1)], where [i] is the index of its
    label in the list of [n] levels. *)
Theorem ToLevelsInterval_list_scale (self : t) (x : BallotLevels.t)
    (s : Scale) (ls : list level) (L H : Qc)
    (candidates : option (gset string)) :
  BallotLevels.scale x = Ok s →
  Scale_.levels s = Ok ls →
  (2 ≤ length ls)%nat →
  (∀ c v, BallotLevels.as_dict x !! c = Some v →
          is_number v = false ∧ is_Some (Scale_.index_from 0 v ls)) →
  has_value (low self) L → has_value (high self) H →
  ∃ l : BallotLevels.t,
    __call__ self (PyBallot (Levels x)) candidates = Ok (Levels l)
    ∧ BallotLevels._input_scale l = Some (scale self)
    ∧ BallotLevels.candidates l
      = restricted (BallotLevels.candidates x) candidates
    ∧ ∀ c, BallotLevels.as_dict l !! c
           = if decide (kept candidates c)
             then BallotLevels.as_dict x !! c ≫= by_index L H ls
             else None.
Proof.
  intros Hs Hls Hlen Hlabels HL HH.
  destruct (levels_Ok_list s ls Hls) as (Hbounded & Hlist & Hlow).
  unfold __call__. cbn.
  rewrite (call_levels_bounded self x s) by done. rewrite Hlist.
  destruct (decide (BallotLevels.as_dict x = ∅)) as [Hempty|Hne].
  - unfold call_cardinal, dict_comprehension.
    rewrite Hempty, map_to_list_empty. cbn.
    destruct (levels_restricted_full ∅ (BallotLevels.candidates x)
                (scale self) candidates) as (l & -> & Hsc & Hcands & Hl).
    exists l. split; [done|]. split; [done|]. split; [done|].
    intros c. rewrite Hl, lookup_empty. by destruct (decide _).
  - assert (call_cardinal self x candidates = Raise TypeError) as ->.
    { unfold call_cardinal, dict_comprehension. rewrite Hs. cbn.
      destruct (map_to_list_nonempty _ Hne) as (c & v & rest & -> & Hv).
      destruct (Hlabels c v Hv) as [Hstr _].
      destruct v as [z|q|label]; try discriminate.
      cbn. rewrite Hlow.
      destruct ls as [|v0 ls']; [cbn in Hlen; lia|].
      unfold affine, py_sub. unfold has_value in HL, HH.
      rewrite HH, HL. reflexivity. }
    cbn. unfold call_from_list.
    destruct (dict_comprehension_total
                (λ (c : string) (_ : level),
                   affine self
                     (xc ← BallotLevels.__getitem__ x c;
                      i ← Scale_.as_dict s xc;
                      Ok (Qc_of_Z (Z.of_nat i)))
                     (ls0 ← Scale_.levels s;
                      Ok (Qc_of_Z (Z.of_nat (length ls0) - 1))))
                (λ (_ : string) (v : level),
                   default v (by_index L H ls v))
                (BallotLevels.as_dict x)) as (d & -> & Hd).
    { intros c v Hv. destruct (Hlabels c v Hv) as [_ [i Hi]].
      unfold BallotLevels.__getitem__, Scale_.as_dict, by_index.
      rewrite Hv, Hls. cbn. rewrite Hi. cbn.
      apply (affine_Ok self L H); [done..|].
      rewrite <- Z2Qc_inj_0. intros Hzero%Z2Qc_inj_iff. lia. }
    cbn.
    destruct (levels_restricted_full d (BallotLevels.candidates x)
                (scale self) candidates) as (l & -> & Hsc & Hcands & Hl).
    exists l. split; [done|]. split; [done|]. split; [done|].
    intros c. rewrite Hl, Hd. destruct (decide _); [|done].
    destruct (BallotLevels.as_dict x !! c) as [v|] eqn:Hv; [|done]. cbn.
    destruct (Hlabels c v Hv) as [_ [i Hi]].
    unfold by_index. by rewrite Hi.
Qed.

(** The documented conversion of the appreciations [Excellent] and
    [Very Good] to the unit interval. *)
Lemma ToLevelsInterval_list_scale_witness :
  ∃ l : BallotLevels.t,
    __call__ (to_unit_interval true) (PyBallot (Levels levels_verbal)) None
    = Ok (Levels l)
    ∧ BallotLevels._input_scale l = Some (scale (to_unit_interval true))
    ∧ BallotLevels.candidates l
      = restricted (BallotLevels.candidates levels_verbal) None
    ∧ ∀ c, BallotLevels.as_dict l !! c
           = if decide (kept None c)
             then BallotLevels.as_dict levels_verbal !! c
                  ≫= by_index 0 1 appreciations
             else None.
Proof.
  apply (ToLevelsInterval_list_scale (to_unit_interval true) levels_verbal
           (ScaleFromList appreciations) appreciations 0 1 None).
  - reflexivity.
  - reflexivity.
  - cbn. lia.
  - intros c v Hv.
    destruct (decide (c = "a")) as [->|Ha];
      [|destruct (decide (c = "b")) as [->|Hb]].
    + assert (BallotLevels.as_dict levels_verbal !! "a"
              = Some (LStr "Excellent")) as Ha by by_computation.
      rewrite Ha in Hv. injection Hv as <-.
      split; [reflexivity|by eexists].
    + assert (BallotLevels.as_dict levels_verbal !! "b"
              = Some (LStr "Very Good")) as Hb by by_computation.
      rewrite Hb in Hv. injection Hv as <-.
      split; [reflexivity|by eexists].
    + exfalso. revert Hv. unfold levels_verbal. cbn.
      rewrite lookup_insert_ne by done. by rewrite lookup_singleton_ne.
  - reflexivity.
  - reflexivity.
Defined.

End interval_converter.

(** ** [ConverterBallotToLevels]: the choice of the converter *)

(** X14. A converter that [ConverterBallotToLevels.__init__] builds has a
    scale, which is an interval, a range or a list scale; so the branch of
    [__call__] that keeps a levels ballot as it is when the converter has
    no scale is never taken, and every call is answered by the converter
    that the class of the scale selects. *)
Theorem ConverterBallotToLevels_delegates
    (Range_call ListNumeric_call :
       Scale → bool → pyobj → option (gset string) → result Ballot)
    (scale : option Scale) (flag : bool) (self : ConverterBallotToLevels) :
  ConverterBallotToLevels_init scale flag = Ok self →
  ∃ sc : Scale,
    scale = Some sc ∧ sc ≠ ScaleBase
    ∧ ToLevels_scale self = Some sc
    ∧ ∀ (x : pyobj) (candidates : option (gset string)),
        ConverterBallotToLevels_call Range_call ListNumeric_call
          self x candidates
        = selected_converter Range_call ListNumeric_call sc flag x
            candidates.
Proof.
  unfold ConverterBallotToLevels_init.
  destruct scale as [[|lo hi|lo hi|ls|ls]|]; cbn.
  - discriminate.
  - intros [= <-]. eexists. by repeat split.
  - intros [= <-]. eexists. by repeat split.
  - destruct (forallb is_number ls) eqn:Hls; cbn; intros [= <-];
      eexists; repeat split; try done;
      intros x candidates; unfold ConverterBallotToLevels_call; cbn;
      by rewrite Hls.
  - destruct (forallb is_number ls) eqn:Hls; cbn; intros [= <-];
      eexists; repeat split; try done;
      intros x candidates; unfold ConverterBallotToLevels_call; cbn;
      by rewrite Hls.
  - discriminate.
Qed.

(** The converter to the interval from 0 to 10 of the documentation. *)
Lemma ConverterBallotToLevels_delegates_witness :
  ∃ sc : Scale,
    Some (ScaleInterval (LFloat 0) (LFloat (Qc_of_Z 10))) = Some sc
    ∧ sc ≠ ScaleBase
    ∧ ToLevels_scale
        (mk_ConverterBallotToLevels
           (Some (ScaleInterval (LFloat 0) (LFloat (Qc_of_Z 10)))) true
           (AuxInterval
              (ConverterBallotToLevelsInterval.mk
                 (ScaleInterval (LFloat 0) (LFloat (Qc_of_Z 10)))
                 (LFloat 0) (LFloat (Qc_of_Z 10)) true)))
      = Some sc
    ∧ ∀ (x : pyobj) (candidates : option (gset string)),
        ConverterBallotToLevels_call missing_converter missing_converter
          (mk_ConverterBallotToLevels
             (Some (ScaleInterval (LFloat 0) (LFloat (Qc_of_Z 10)))) true
             (AuxInterval
                (ConverterBallotToLevelsInterval.mk
                   (ScaleInterval (LFloat 0) (LFloat (Qc_of_Z 10)))
                   (LFloat 0) (LFloat (Qc_of_Z 10)) true)))
          x candidates
        = selected_converter missing_converter missing_converter sc true x
            candidates.
Proof.
  apply (ConverterBallotToLevels_delegates missing_converter
           missing_converter
           (Some (ScaleInterval (LFloat 0) (LFloat (Qc_of_Z 10)))) true).
  reflexivity.
Defined.

(** ** [RuleMajorityJudgment.scores_]: the median splits the weight *)

Section median.

Import RuleMajorityJudgment.

Context {L : Type} `{!ScaleOps L} `{!EqDecision L} {B : Type}.

Implicit Types (self : RuleMajorityJudgment.t L B) (pairs : list (L * Qc)).

Local Set Warnings "-clear-no-such-hyp".

Lemma total_weight_nonneg pairs :
  Forall (λ lw, 0 ≤ lw.2) pairs → 0 ≤ total_weight pairs.
Proof.
  unfold total_weight. induction 1 as [|[l w] pairs Hw _ IH]; cbn; [done|].
  by apply Qcplus_nonneg_nonneg.
Qed.

Lemma total_weight_pos pairs :
  Forall (λ lw, 0 < lw.2) pairs → pairs ≠ [] → 0 < total_weight pairs.
Proof.
  intros Hpairs Hne. destruct Hpairs as [|[l w] pairs Hw Hpairs]; [done|].
  unfold total_weight. cbn. fold (total_weight pairs).
  apply Qcplus_pos_nonneg; [done|].
  apply total_weight_nonneg.
  eapply Forall_impl; [exact Hpairs|]. intros lw. apply Qclt_le_weak.
Qed.

Lemma total_weight_filter_le (P : L * Qc → Prop) `{∀ lw, Decision (P lw)}
    pairs :
  Forall (λ lw, 0 ≤ lw.2) pairs →
  total_weight (filter P pairs) ≤ total_weight pairs.
Proof.
  induction 1 as [|[l w] pairs Hw _ IH]; [done|].
  rewrite filter_cons. unfold total_weight in *.
  destruct (decide (P (l, w))); cbn.
  - by apply Qcplus_le_mono_l.
  - rewrite <- (Qcplus_0_l (foldr _ _ (filter P pairs))).
    etransitivity; [apply Qcplus_le_mono_l; exact IH|].
    by apply Qcplus_le_mono_r.
Qed.

Lemma filter_none {A : Type} (P : A → Prop) `{∀ x, Decision (P x)}
    (l : list A) :
  Forall (λ x, ¬ P x) l → filter P l = [].
Proof.
  induction 1 as [|x l Hx _ IH]; [done|].
  by rewrite filter_cons, decide_False.
Qed.

Lemma Qc_half_ratio (a t : Qc) : 0 < t → a ≤ t / 2 → a / t ≤ 1 / 2.
Proof.
  intros Ht Ha. replace (1 / 2 : Qc) with (t / 2 / t).
  - apply Qcmult_le_mono_nonneg_r; [|done].
    by apply Qclt_le_weak, Qcinv_pos.
  - field. split; [done|]. intros ->. by apply Qclt_nge in Ht.
Qed.

Lemma Qc_half_ratio_lt (a t : Qc) : 0 < t → a < t / 2 → a / t < 1 / 2.
Proof.
  intros Ht Ha. replace (1 / 2 : Qc) with (t / 2 / t).
  - apply Qcmult_lt_mono_pos_r; [|done]. by apply Qcinv_pos.
  - field. split; [done|]. intros ->. by apply Qclt_nge in Ht.
Qed.

Lemma Qc_ratio_nonneg (a t : Qc) : 0 < t → 0 ≤ a → 0 ≤ a / t.
Proof.
  intros Ht Ha. apply Qcmult_nonneg_nonneg; [done|].
  by apply Qclt_le_weak, Qcinv_pos.
Qed.

Lemma pairs_in_weights self (profile : list (B * Qc * option string))
    (c : string) :
  Forall (λ bwv, 0 < bwv.1.2) profile →
  Forall (λ lw, 0 < lw.2) (pairs_in self profile c).
Proof.
  induction 1 as [|[[ballot weight] voter] profile Hw _ IH]; [constructor|].
  unfold pairs_in. cbn [omap list_omap].
  destruct (scorer self ballot voter (candidates_ self) !! c); cbn;
    [constructor|]; done.
Qed.

(** In a list sorted by the scale, the levels below the level at index
    [i] come before it and the levels above come after it. *)
Lemma sorted_split (sorted : list (L * Qc)) (i : nat) (m : L) (w : Qc) :
  ScaleLaws → sorted_by_scale sorted.*1 → sorted !! i = Some (m, w) →
  filter (λ lw, scale_lt lw.1 m = true) sorted
  = filter (λ lw, scale_lt lw.1 m = true) (take i sorted)
  ∧ filter (λ lw, scale_gt lw.1 m = true) sorted
    = filter (λ lw, scale_gt lw.1 m = true) (drop (S i) sorted).
Proof.
  intros laws Hsorted Hi.
  pose proof (StronglySorted_lookup_lt _ _ Hsorted) as Horder.
  cbn in Horder.
  rewrite <- (take_drop_middle sorted i (m, w) Hi) at 1 3.
  rewrite !filter_app, !filter_cons. cbn [fst].
  rewrite (lt_irrefl laws), (gt_lt laws), (lt_irrefl laws).
  rewrite !decide_False by done.
  split.
  - rewrite (filter_none _ (drop (S i) sorted)); [by rewrite app_nil_r|].
    apply Forall_forall. intros [l v] [k Hk]%list_elem_of_lookup.
    rewrite lookup_drop in Hk. cbn.
    rewrite (Horder i (S i + k)%nat m l); [done|lia|..].
    + by rewrite list_lookup_fmap, Hi.
    + by rewrite list_lookup_fmap, Hk.
  - rewrite (filter_none _ (take i sorted)); [done|].
    apply Forall_forall. intros [l v] [k Hk]%list_elem_of_lookup.
    apply lookup_take_Some in Hk as [Hk Hlt]. cbn.
    rewrite (gt_lt laws).
    rewrite (Horder k i l m); [done|lia|..].
    + by rewrite list_lookup_fmap, Hk.
    + by rewrite list_lookup_fmap, Hi.
Qed.

Lemma median_splits (sorted pairs : list (L * Qc)) (m : L) :
  ScaleLaws →
  sorted ≡ₚ pairs → sorted_by_scale sorted.*1 → weighted_median sorted m →
  Forall (λ lw, 0 < lw.2) pairs → pairs ≠ [] →
  0 ≤ proportion_above m pairs ∧ proportion_above m pairs ≤ 1 / 2
  ∧ 0 ≤ proportion_below m pairs ∧ proportion_below m pairs < 1 / 2.
Proof.
  intros laws Hperm Hsorted (i & w & Hi & Hreach & Hbefore) Hweights Hne.
  pose proof (total_weight_pos pairs Hweights Hne) as Hpos.
  assert (Forall (λ lw : L * Qc, 0 ≤ lw.2) sorted) as Hnonneg.
  { rewrite Hperm. eapply Forall_impl; [exact Hweights|].
    intros lw. apply Qclt_le_weak. }
  destruct (sorted_split sorted i m w laws Hsorted Hi) as [Hbelow Habove].
  unfold proportion_above, proportion_below.
  rewrite <- (total_weight_Permutation
                (filter (λ lw, scale_gt lw.1 m = true) sorted)
                (filter (λ lw, scale_gt lw.1 m = true) pairs))
    by by rewrite Hperm.
  rewrite <- (total_weight_Permutation
                (filter (λ lw, scale_lt lw.1 m = true) sorted)
                (filter (λ lw, scale_lt lw.1 m = true) pairs))
    by by rewrite Hperm.
  rewrite <- (total_weight_Permutation sorted pairs Hperm) in *.
  rewrite Hbelow, Habove.
  assert (Forall (λ lw : L * Qc, 0 ≤ lw.2) (take i sorted)) as Htake
    by by apply Forall_take.
  assert (Forall (λ lw : L * Qc, 0 ≤ lw.2) (drop (S i) sorted)) as Hdrop
    by by apply Forall_drop.
  assert (∀ P : L * Qc → Prop, ∀ HP : ∀ lw, Decision (P lw),
            ∀ l : list (L * Qc),
              Forall (λ lw : L * Qc, 0 ≤ lw.2) l →
              0 ≤ total_weight (filter P l)) as Hfilter.
  { intros P HP l Hl. apply total_weight_nonneg.
    rewrite Forall_forall in Hl. apply Forall_forall.
    intros lw [_ Hlw]%list_elem_of_filter. by apply Hl. }
  split; [|split; [|split]].
  - apply Qc_ratio_nonneg; [done|by apply Hfilter].
  - apply Qc_half_ratio; [done|].
    etransitivity; [by apply total_weight_filter_le|].
    assert (total_weight sorted
            = total_weight (take (S i) sorted)
              + total_weight (drop (S i) sorted)) as Htotal.
    { by rewrite <- total_weight_app, take_drop. }
    revert Hreach. rewrite Htotal.
    generalize (total_weight (take (S i) sorted)) as t1.
    generalize (total_weight (drop (S i) sorted)) as t2.
    intros t2 t1 Hreach.
    apply (Qcplus_le_mono_r _ _ ((t1 + t2) / 2)).
    replace ((t1 + t2) / 2 + (t1 + t2) / 2) with (t2 + t1) by by field.
    by apply Qcplus_le_mono_l.
  - apply Qc_ratio_nonneg; [done|by apply Hfilter].
  - apply Qc_half_ratio_lt; [done|].
    eapply Qcle_lt_trans; [by apply total_weight_filter_le|].
    destruct i as [|j].
    + rewrite take_0. unfold total_weight at 1. cbn.
      apply Qcmult_pos_pos; [done|by compute].
    + apply Hbefore. lia.
Qed.

End median.

(** X15. On a lawful scale, when the scorer only scores candidates of the
    election, every ballot has a positive int as its weight and no
    candidate receives a total weight above 2^53, the score of a candidate
    with evaluations is built from a median that splits the weight: the
    proportion of the weight strictly above the median is at most one
    half and the proportion strictly below is less than one half. *)
Theorem majority_judgment_median_splits {L : Type} `{!ScaleOps L}
    `{!EqDecision L} {B : Type} (self : RuleMajorityJudgment.t L B) :
  RuleMajorityJudgment.ScaleLaws →
  RuleMajorityJudgment.scores_candidates self
    (RuleMajorityJudgment.profile_converted_ self) →
  integer_weights (RuleMajorityJudgment.profile_converted_ self) →
  Forall (λ bwv, 0 < bwv.1.2) (RuleMajorityJudgment.profile_converted_ self) →
  (∀ c : string,
     RuleMajorityJudgment.total_weight (RuleMajorityJudgment.pairs_of self c)
     ≤ float_exact_bound) →
  ∃ scores : gmap string (RuleMajorityJudgment.score L),
    RuleMajorityJudgment.scores_ self = Ok scores
    ∧ ∀ c : string,
        c ∈ RuleMajorityJudgment.candidates_ self →
        RuleMajorityJudgment.pairs_of self c ≠ [] →
        ∃ (m : L) (p q : Qc),
          scores !! c = Some (RuleMajorityJudgment.tuple_score m p q)
          ∧ p = RuleMajorityJudgment.proportion_above m
                  (RuleMajorityJudgment.pairs_of self c)
          ∧ q = RuleMajorityJudgment.proportion_below m
                  (RuleMajorityJudgment.pairs_of self c)
          ∧ 0 ≤ p ∧ p ≤ 1 / 2 ∧ 0 ≤ q ∧ q < 1 / 2.
Proof.
  intros laws Hscorer _ Hweights _.
  assert (∀ c, Forall (λ lw : L * Qc, 0 < lw.2)
                 (RuleMajorityJudgment.pairs_of self c)) as Hpairs.
  { intros c. by apply pairs_in_weights. }
  destruct (scores_documented laws self Hscorer)
    as (scores & Hscores & _ & Hdoc).
  { intros c _.
    destruct (RuleMajorityJudgment.pairs_of self c) as [|lw pairs] eqn:Hc;
      [by left|right].
    rewrite <- Hc. apply total_weight_pos; [done|]. by rewrite Hc. }
  exists scores. split; [done|]. intros c Hc Hne.
  destruct (Hdoc c Hc) as (s & Hs & Hds).
  unfold RuleMajorityJudgment.documented_score in Hds.
  destruct (RuleMajorityJudgment.pairs_of self c) as [|lw pairs] eqn:Hpc;
    [done|].
  destruct Hds as (sorted & m & Hperm & Hsorted & Hmedian & ->).
  exists m. eexists _, _. split; [done|]. split; [done|]. split; [done|].
  apply (median_splits sorted); try done. rewrite <- Hpc. apply Hpairs.
Qed.

(** The documented profile: four ballots of weight 1 on the interval
    scale. *)
Lemma majority_judgment_median_splits_witness :
  ∃ scores : gmap string (RuleMajorityJudgment.score Qc),
    RuleMajorityJudgment.scores_ rule_doc = Ok scores
    ∧ ∀ c : string,
        c ∈ RuleMajorityJudgment.candidates_ rule_doc →
        RuleMajorityJudgment.pairs_of rule_doc c ≠ [] →
        ∃ (m p q : Qc),
          scores !! c = Some (RuleMajorityJudgment.tuple_score m p q)
          ∧ p = RuleMajorityJudgment.proportion_above m
                  (RuleMajorityJudgment.pairs_of rule_doc c)
          ∧ q = RuleMajorityJudgment.proportion_below m
                  (RuleMajorityJudgment.pairs_of rule_doc c)
          ∧ 0 ≤ p ∧ p ≤ 1 / 2 ∧ 0 ≤ q ∧ q < 1 / 2.
Proof.
  apply (majority_judgment_median_splits rule_doc ScaleInterval_laws).
  - unfold RuleMajorityJudgment.scores_candidates.
    repeat (constructor; [by_computation|]). constructor.
  - repeat (constructor; [split; [reflexivity|by_computation]|]).
    constructor.
  - repeat (constructor; [by_computation|]). constructor.
  - intros c. destruct (decide (c = "a")) as [->|Ha];
      [by_computation|destruct (decide (c = "b")) as [->|Hb]];
      [by_computation|].
    assert (RuleMajorityJudgment.pairs_of rule_doc c = []) as ->; [|done].
    unfold RuleMajorityJudgment.pairs_of, RuleMajorityJudgment.pairs_in,
      rule_doc, ScorerLevels. cbn.
    rewrite !lookup_insert_ne, !lookup_singleton_ne by done. done.
Defined.

(** ** [RuleMajorityJudgment.compare_scores] on an interval scale *)

Section compare_on_interval.

Import RuleMajorityJudgment.

Local Set Warnings "-clear-no-such-hyp".

Lemma Qc_trichotomy (x y : Qc) : x < y ∨ x = y ∨ y < x.
Proof.
  destruct (Qclt_le_dec x y) as [Hlt|Hle]; [by left|right].
  apply Qcle_lt_or_eq in Hle as [Hlt|Heq]; [by right|by left].
Qed.

Lemma Qc_lt_irrefl (x : Qc) : ¬ x < x.
Proof. by apply Qcle_ngt. Qed.

Lemma Qc_lt_asym (x y : Qc) : x < y → ¬ y < x.
Proof. intros Hxy Hyx. apply (Qc_lt_irrefl x). by transitivity y. Qed.

Lemma score_lt_irrefl (a : Qc * Qc * Qc) : ¬ score_lt a a.
Proof.
  unfold score_lt. intros [H|[_ [H|[_ H]]]]; by apply Qc_lt_irrefl in H.
Qed.

Lemma score_lt_trans (a b c : Qc * Qc * Qc) :
  score_lt a b → score_lt b c → score_lt a c.
Proof.
  destruct a as [[m1 x1] y1], b as [[m2 x2] y2], c as [[m3 x3] y3].
  unfold score_lt. cbn.
  intros [Hm|[-> Hxy]] [Hm'|[-> Hxy']].
  - left. by transitivity m2.
  - by left.
  - by left.
  - right. split; [done|].
    destruct Hxy as [Hx|[-> Hy]], Hxy' as [Hx'|[-> Hy']].
    + left. by transitivity x2.
    + by left.
    + by left.
    + right. split; [done|]. by transitivity y2.
Qed.

Lemma score_lt_total (a b : Qc * Qc * Qc) :
  score_lt a b ∨ a = b ∨ score_lt b a.
Proof.
  destruct a as [[m1 x1] y1], b as [[m2 x2] y2]. unfold score_lt. cbn.
  destruct (Qc_trichotomy m1 m2) as [Hm|[->|Hm]];
    [by left; left| |by right; right; left].
  destruct (Qc_trichotomy x1 x2) as [Hx|[->|Hx]];
    [by left; right; split; [|left]|
    |by right; right; right; split; [|left]].
  destruct (Qc_trichotomy y1 y2) as [Hy|[->|Hy]].
  - left. right. split; [done|]. right. by split.
  - right. by left.
  - right. right. right. split; [done|]. right. by split.
Qed.

(** The comparison of two scores with medians, in closed form. *)
Lemma compare_scores_interval (a b : Qc * Qc * Qc) :
  compare_scores (with_median a) (with_median b)
  = Ok (if decide (a = b) then 0%Z
        else if decide (score_lt a b) then (-1)%Z else 1%Z).
Proof.
  destruct a as [[m1 x1] y1], b as [[m2 x2] y2]. unfold with_median. cbn.
  rewrite (compare_scores_lexicographic ScaleInterval_laws). f_equal.
  destruct (decide ((Some m1, x1, y1) = (Some m2, x2, y2))) as [Heq|Hne].
  - simplify_eq. by rewrite decide_True.
  - assert ((m1, x1, y1) ≠ (m2, x2, y2)) as Hne'.
    { intros Heq. apply Hne. congruence. }
    rewrite (decide_False (P := (m1, x1, y1) = (m2, x2, y2))) by done.
    unfold score_lt. cbn.
    change (scale_lt m1 m2) with (bool_decide (m1 < m2)).
    change (scale_lt m2 m1) with (bool_decide (m2 < m1)).
    destruct (bool_decide (m1 < m2)) eqn:Hlt.
    + apply bool_decide_eq_true in Hlt. rewrite decide_True; [done|by left].
    + apply bool_decide_eq_false in Hlt.
      destruct (bool_decide (m2 < m1)) eqn:Hgt.
      * apply bool_decide_eq_true in Hgt. rewrite decide_False; [done|].
        intros [H|[-> _]]; [done|]. by apply Qc_lt_irrefl in Hgt.
      * apply bool_decide_eq_false in Hgt.
        assert (m1 = m2) as ->.
        { by destruct (Qc_trichotomy m1 m2) as [?|[?|?]]. }
        destruct (decide (x1 < x2 ∨ x1 = x2 ∧ y1 < y2)) as [Hxy|Hxy].
        -- rewrite decide_True; [done|]. by right.
        -- rewrite decide_False; [done|]. intros [H|[_ H]]; done.
Qed.

End compare_on_interval.

(** X16. On an interval scale, [compare_scores] orders the scores that
    have a median: it answers 0 exactly on equal scores, swapping the
    arguments negates the answer, the answers -1 compose, and the answer
    is always -1, 0 or 1; a score without median only compares with an
    equal score, any other comparison raises [TypeError]. *)
Theorem compare_scores_interval_order (a b c : Qc * Qc * Qc) :
  (∃ z : Z,
     RuleMajorityJudgment.compare_scores (with_median a) (with_median b)
     = Ok z
     ∧ RuleMajorityJudgment.compare_scores (with_median b) (with_median a)
       = Ok (- z)%Z
     ∧ (z = 0%Z ↔ a = b)
     ∧ (z = (-1)%Z ∨ z = 0%Z ∨ z = 1%Z))
  ∧ (RuleMajorityJudgment.compare_scores (with_median a) (with_median b)
     = Ok (-1)%Z →
     RuleMajorityJudgment.compare_scores (with_median b) (with_median c)
     = Ok (-1)%Z →
     RuleMajorityJudgment.compare_scores (with_median a) (with_median c)
     = Ok (-1)%Z)
  ∧ (∀ (x y : Qc) (s : RuleMajorityJudgment.score Qc),
       (None, x, y) ≠ s →
       RuleMajorityJudgment.compare_scores (None, x, y) s = Raise TypeError
       ∧ RuleMajorityJudgment.compare_scores s (None, x, y)
         = Raise TypeError).
Proof.
  split; [|split].
  - rewrite !compare_scores_interval.
    destruct (decide (a = b)) as [->|Hne].
    + exists 0%Z. rewrite !(decide_True (P := b = b)) by done.
      split; [done|]. split; [done|]. split; [done|]. right. by left.
    + rewrite (decide_False (P := b = a)) by (intros ->; done).
      assert (∀ s t, score_lt s t → ¬ score_lt t s) as Hasym.
      { intros s t Hst Hts.
        by apply (score_lt_irrefl s), (score_lt_trans s t s). }
      destruct (score_lt_total a b) as [Hab|[Heq|Hba]]; [|done|].
      * exists (-1)%Z.
        rewrite (decide_True (P := score_lt a b)) by done.
        rewrite (decide_False (P := score_lt b a)) by by apply Hasym.
        split; [done|]. split; [done|]. split; [|by left].
        split; [done|]. intros ->. done.
      * exists 1%Z.
        rewrite (decide_False (P := score_lt a b)) by by apply Hasym.
        rewrite (decide_True (P := score_lt b a)) by done.
        split; [done|]. split; [done|]. split; [|by right; right].
        split; [done|]. intros ->. done.
  - rewrite !compare_scores_interval.
    destruct (decide (a = b)) as [|Hab]; [discriminate|].
    destruct (decide (score_lt a b)) as [Hlt|]; [|discriminate]. intros _.
    destruct (decide (b = c)) as [|Hbc]; [discriminate|].
    destruct (decide (score_lt b c)) as [Hlt'|]; [|discriminate]. intros _.
    pose proof (score_lt_trans a b c Hlt Hlt') as Hac.
    rewrite decide_False.
    + by rewrite decide_True.
    + intros ->. by apply (score_lt_irrefl c).
  - intros x y [[[m|] x'] y'] Hne;
      unfold RuleMajorityJudgment.compare_scores;
      rewrite !decide_False by (intros Heq; by apply Hne); done.
Qed.

(** ** [RuleSimplifiedDodgson.scores_] *)

Section dodgson.

Import RuleSimplifiedDodgson.

Local Set Warnings "-clear-no-such-hyp".

Lemma sum_negative (l : list Qc) :
  Forall (λ v, v < 0) l →
  RuleMajorityJudgment.sum l ≤ 0
  ∧ (RuleMajorityJudgment.sum l = 0 ↔ l = []).
Proof.
  unfold RuleMajorityJudgment.sum. rewrite foldl_Qcplus, Qcplus_0_l.
  induction 1 as [|v l Hv Hl [IH _]]; [done|]. cbn.
  assert (v + foldr Qcplus 0 l < 0) as Hlt
    by by apply Qcplus_neg_nonpos.
  split; [by apply Qclt_le_weak|]. split; [|done].
  intros Heq. rewrite Heq in Hlt. by apply Qclt_nge in Hlt.
Qed.

Lemma losses_negative (m : matrix) (c : string) :
  Forall (λ v, v < 0) (losses m c).
Proof.
  unfold losses. apply Forall_forall.
  intros v ([[i j] v'] & -> & Hin)%list_elem_of_fmap.
  apply list_elem_of_filter in Hin as [(_ & _ & Hv) _]. exact Hv.
Qed.

Lemma losses_nil (m : matrix) (c : string) :
  losses m c = []
  ↔ ∀ (j : string) (v : Qc),
      j ≠ c → as_dict_ m !! (c, j) = Some v → 0 ≤ v.
Proof.
  unfold losses. split.
  - intros Hnil%fmap_nil_inv j v Hj Hv.
    apply Qcle_ngt. intros Hneg.
    assert ((c, j, v) ∈ filter
              (λ ijv : string * string * Qc,
                 ijv.1.1 = c ∧ ijv.1.2 ≠ c ∧ ijv.2 < 0)
              (map_to_list (as_dict_ m))) as Hin.
    { apply list_elem_of_filter. split; [done|].
      by apply elem_of_map_to_list. }
    rewrite Hnil in Hin. by apply elem_of_nil in Hin.
  - intros Hrow.
    rewrite (filter_none _ (map_to_list (as_dict_ m))); [done|].
    apply Forall_forall.
    intros [[i j] v] Hin%elem_of_map_to_list (Hi & Hj & Hv). cbn in *.
    subst i. apply (Qclt_nge v 0); [done|]. by eapply Hrow.
Qed.

(** X17. The scores of the simplified Dodgson rule: every candidate of
    the matrix has a score, no other has; a score is never positive, and
    it is 0 exactly when no coefficient of the row of the candidate,
    outside the diagonal, is negative. *)
Theorem SimplifiedDodgson_scores (m : matrix) (c : string) :
  c ∈ candidates_ m →
  dom (scores_ m) = candidates_ m
  ∧ ∃ s : Qc,
      scores_ m !! c = Some s
      ∧ s ≤ 0
      ∧ (s = 0
         ↔ ∀ (j : string) (v : Qc),
             j ≠ c → as_dict_ m !! (c, j) = Some v → 0 ≤ v).
Proof.
  intros Hc. split.
  - apply set_eq. intros c'. rewrite elem_of_dom. unfold scores_, is_Some.
    setoid_rewrite lookup_set_to_map; [|by intros ?? _ _ [= ->]].
    split.
    + by intros (s & c'' & Hin & [= -> _]).
    + intros Hin. eexists. by exists c'.
  - exists (RuleMajorityJudgment.sum (losses m c)).
    destruct (sum_negative _ (losses_negative m c)) as [Hle Hzero].
    split; [|split; [done|]].
    + unfold scores_. apply lookup_set_to_map; [by intros ?? _ _ [= ->]|].
      by exists c.
    + by rewrite Hzero, losses_nil.
Qed.

(** In the documented matrix, b loses to a by a quarter. *)
Lemma SimplifiedDodgson_scores_witness :
  dom (scores_ matrix_doc) = candidates_ matrix_doc
  ∧ ∃ s : Qc,
      scores_ matrix_doc !! "b" = Some s
      ∧ s ≤ 0
      ∧ (s = 0
         ↔ ∀ (j : string) (v : Qc),
             j ≠ "b" → as_dict_ matrix_doc !! ("b", j) = Some v → 0 ≤ v).
Proof.
  apply (SimplifiedDodgson_scores matrix_doc "b"). by_computation.
Defined.

End dodgson.

(** ** [RuleMajorityJudgment.scores_]: the two ways to fail *)

Section failures.

Import RuleMajorityJudgment.

Context {L : Type} `{!ScaleOps L} `{!EqDecision L} {B : Type}.

Implicit Types (self : RuleMajorityJudgment.t L B) (pairs : list (L * Qc)).

Local Set Warnings "-clear-no-such-hyp".

Lemma append_Ok (cands : gset string)
    (st : gmap string (list L) * gmap string (list Qc))
    (g : string → list (L * Qc)) (c : string) (level : L) (weight : Qc) :
  holds cands st g → c ∈ cands →
  ∃ st', append st c level weight = Ok st'
         ∧ holds cands st' (λ c', g c' ++ received [(c, level)] weight c').
Proof.
  intros Hst Hc.
  destruct (collect_ballot_holds cands weight [(c, level)] st g Hst)
    as (st' & Hst' & Hholds).
  { by repeat constructor. }
  cbn in Hst'. destruct (append st c level weight) as [st1|e]; [|done].
  cbn in Hst'. injection Hst' as ->. by exists st'.
Qed.

Lemma collect_ballot_KeyError (cands : gset string) (weight : Qc)
    (items : list (string * L)) :
  ∀ st g,
    holds cands st g →
    Exists (λ cl, cl.1 ∉ cands) items →
    collect_ballot items weight st = Raise KeyError.
Proof.
  induction items as [|[c level] items IH]; intros st g Hst Hbad.
  - by apply Exists_nil in Hbad.
  - cbn [collect_ballot]. destruct (decide (c ∈ cands)) as [Hc|Hc].
    + destruct (append_Ok cands st g c level weight Hst Hc)
        as (st' & -> & Hst').
      cbn [mbind result_bind]. apply (IH st' _ Hst').
      apply Exists_cons in Hbad as [Hbad|Hbad]; done.
    + unfold append. destruct (Hst c) as [-> _].
      by rewrite decide_False.
Qed.

Lemma collect_KeyError self (profile : list (B * Qc * option string)) :
  ∀ st g,
    holds (candidates_ self) st g →
    ¬ scores_candidates self profile →
    collect self profile st = Raise KeyError.
Proof.
  induction profile as [|[[ballot weight] voter] profile IH];
    intros st g Hst Hbad.
  - exfalso. apply Hbad. constructor.
  - cbn [collect].
    set (items := map_to_list (scorer self ballot voter (candidates_ self))).
    destruct (decide (Forall (λ cl : string * L, cl.1 ∈ candidates_ self)
                        items)) as [Hitems|Hitems].
    + destruct (collect_ballot_holds (candidates_ self) weight items
                  st g Hst Hitems) as (st1 & -> & Hst1).
      cbn [mbind result_bind]. apply (IH st1 _ Hst1).
      intros Hrest. apply Hbad. constructor; [|done].
      intros c [level Hc]%elem_of_dom.
      rewrite Forall_forall in Hitems.
      apply (Hitems (c, level)). by apply elem_of_map_to_list.
    + apply not_Forall_Exists in Hitems; [|apply _].
      by rewrite (collect_ballot_KeyError _ _ _ st g Hst Hitems).
Qed.

Lemma total_weight_zero pairs :
  Forall (λ lw, lw.2 = 0) pairs → total_weight pairs = 0.
Proof.
  unfold total_weight. induction 1 as [|[l w] pairs Hw _ IH]; [done|].
  cbn in *. rewrite Hw, IH. ring.
Qed.

Lemma pairs_in_zero self (profile : list (B * Qc * option string))
    (c : string) :
  Forall (λ bwv, bwv.1.2 = 0) profile →
  Forall (λ lw, lw.2 = 0) (pairs_in self profile c).
Proof.
  induction 1 as [|[[ballot weight] voter] profile Hw _ IH]; [constructor|].
  unfold pairs_in. cbn [omap list_omap].
  destruct (scorer self ballot voter (candidates_ self) !! c); cbn;
    [constructor|]; done.
Qed.

(** With evaluations but no weight at all, the proportions cannot be
    computed. *)
Lemma score_of_evaluated_zero self pairs :
  ScaleLaws → pairs ≠ [] → Forall (λ lw, lw.2 = 0) pairs →
  score_of_evaluated self pairs.*1 pairs.*2 = Raise ZeroDivisionError.
Proof.
  intros laws Hne Hzero.
  destruct (reorder_permutation pairs (scale_argsort pairs.*1))
    as (sorted & Hsorted & Hperm).
  { rewrite (argsort_perm laws). by rewrite length_fmap. }
  pose proof (reorder_fmap fst _ _ _ Hsorted) as Hlevels.
  pose proof (reorder_fmap snd _ _ _ Hsorted) as Hweights.
  assert (Forall (λ lw : L * Qc, lw.2 = 0) sorted) as Hzero'
    by by rewrite Hperm.
  unfold score_of_evaluated. rewrite Hlevels. cbn [mbind result_bind].
  rewrite Hweights. cbn [mbind result_bind].
  rewrite sum_total_weight, (total_weight_zero sorted Hzero').
  destruct sorted as [|[l w] sorted'].
  { by apply Permutation_nil_l in Hperm. }
  apply Forall_cons in Hzero' as Hhead. destruct Hhead as [Hw _].
  cbn in Hw. subst w.
  cbn [fmap list_fmap find_median fst snd].
  rewrite decide_True by by compute.
  rewrite (select_spec (λ level, scale_gt level l) ((l, 0) :: sorted') []).
  rewrite (select_spec (λ level, scale_lt level l) ((l, 0) :: sorted') []).
  cbn [mbind result_bind]. rewrite !sum_total_weight.
  assert (∀ P : L * Qc → Prop, ∀ HP : ∀ lw, Decision (P lw),
            total_weight (filter P ((l, 0) :: sorted')) = 0) as Hfilter.
  { intros P HP. apply total_weight_zero.
    rewrite Forall_forall in Hzero'. apply Forall_forall.
    intros lw [_ Hlw]%list_elem_of_filter. by apply Hzero'. }
  rewrite !Hfilter.
  rewrite decide_False by apply Qc_lt_irrefl.
  unfold py_truediv. by rewrite decide_True.
Qed.

Lemma comprehension_raises {A C : Type} (f : string → A → result C)
    (items : list (string * A)) (e : exn) :
  Forall (λ cv, f cv.1 cv.2 = Raise e ∨ ∃ y, f cv.1 cv.2 = Ok y) items →
  Exists (λ cv, f cv.1 cv.2 = Raise e) items →
  comprehension f items = Raise e.
Proof.
  induction 1 as [|[c v] items Hhead _ IH]; intros Hbad.
  - by apply Exists_nil in Hbad.
  - cbn in *. destruct Hhead as [->|[y Hy]]; [done|].
    rewrite Hy. cbn. rewrite IH; [done|].
    apply Exists_cons in Hbad as [Hbad|Hbad]; [|done].
    cbn in Hbad. by rewrite Hy in Hbad.
Qed.

End failures.

(** X18. When the scorer gives an evaluation to a candidate that is not
    a candidate of the election, on some ballot of the profile, [scores_]
    raises [KeyError]. *)
Theorem majority_judgment_foreign_candidate {L : Type} `{!ScaleOps L}
    `{!EqDecision L} {B : Type} (self : RuleMajorityJudgment.t L B) :
  ¬ RuleMajorityJudgment.scores_candidates self
      (RuleMajorityJudgment.profile_converted_ self) →
  RuleMajorityJudgment.scores_ self = Raise KeyError.
Proof.
  intros Hbad. unfold RuleMajorityJudgment.scores_.
  by rewrite (collect_KeyError self _ _ _
                (holds_init (RuleMajorityJudgment.candidates_ self)) Hbad).
Qed.

(** An election between a alone, with a ballot that evaluates z. *)
Lemma majority_judgment_foreign_candidate_witness :
  RuleMajorityJudgment.scores_ rule_foreign = Raise KeyError.
Proof.
  apply (majority_judgment_foreign_candidate rule_foreign).
  unfold RuleMajorityJudgment.scores_candidates. intros Hall.
  apply Forall_cons in Hall as [Hhead _].
  assert ("z" ∈ ({[ "a" ]} : gset string)) as Hz.
  { apply Hhead. by_computation. }
  by apply elem_of_singleton in Hz.
Defined.

(** X19. On a lawful scale, when every ballot of the profile has weight 0
    and some candidate has an evaluation, [scores_] raises
    [ZeroDivisionError]. *)
Theorem majority_judgment_zero_weights {L : Type} `{!ScaleOps L}
    `{!EqDecision L} {B : Type} (self : RuleMajorityJudgment.t L B)
    (c : string) :
  RuleMajorityJudgment.ScaleLaws →
  RuleMajorityJudgment.scores_candidates self
    (RuleMajorityJudgment.profile_converted_ self) →
  Forall (λ bwv, bwv.1.2 = 0) (RuleMajorityJudgment.profile_converted_ self) →
  c ∈ RuleMajorityJudgment.candidates_ self →
  RuleMajorityJudgment.pairs_of self c ≠ [] →
  RuleMajorityJudgment.scores_ self = Raise ZeroDivisionError.
Proof.
  intros laws Hscorer Hzero Hc Hpairs.
  unfold RuleMajorityJudgment.scores_.
  destruct (collect_holds self (RuleMajorityJudgment.profile_converted_ self)
              _ _ (holds_init (RuleMajorityJudgment.candidates_ self))
              Hscorer) as (st & -> & Hst).
  cbn [mbind result_bind]. unfold set_comprehension.
  assert (∀ c', c' ∈ RuleMajorityJudgment.candidates_ self →
            match st.1 !! c', st.2 !! c' with
            | Some levels, Some weights =>
                RuleMajorityJudgment.score_of self levels weights
            | _, _ => Raise KeyError
            end
            = match RuleMajorityJudgment.pairs_of self c' with
              | [] => Ok (RuleMajorityJudgment.default_median self, 0, 0)
              | _ => Raise ZeroDivisionError
              end) as Hscore.
  { intros c' Hc'. destruct (Hst c') as [-> ->].
    rewrite !decide_True by done. cbn [app].
    change (RuleMajorityJudgment.pairs_in self
              (RuleMajorityJudgment.profile_converted_ self) c')
      with (RuleMajorityJudgment.pairs_of self c').
    pose proof (pairs_in_zero self
                  (RuleMajorityJudgment.profile_converted_ self) c' Hzero)
      as Hzero'.
    change (RuleMajorityJudgment.pairs_in self
              (RuleMajorityJudgment.profile_converted_ self) c')
      with (RuleMajorityJudgment.pairs_of self c') in Hzero'.
    destruct (RuleMajorityJudgment.pairs_of self c') as [|lw pairs] eqn:Hp;
      [done|].
    unfold RuleMajorityJudgment.score_of.
    rewrite <- (score_of_evaluated_zero self (lw :: pairs) laws) by done.
    by destruct lw. }
  apply comprehension_raises.
  - apply Forall_forall.
    intros [c' []] (c'' & [= <-] & Hin%elem_of_elements)%list_elem_of_fmap.
    cbn. rewrite (Hscore c' Hin).
    destruct (RuleMajorityJudgment.pairs_of self c'); [right|left]; eauto.
  - apply Exists_exists. exists (c, ()). split.
    + apply list_elem_of_fmap. exists c. split; [done|].
      by apply elem_of_elements.
    + cbn. rewrite (Hscore c Hc).
      by destruct (RuleMajorityJudgment.pairs_of self c).
Qed.

(** An election between a alone, with one ballot of weight 0. *)
Lemma majority_judgment_zero_weights_witness :
  RuleMajorityJudgment.scores_ rule_weightless = Raise ZeroDivisionError.
Proof.
  apply (majority_judgment_zero_weights rule_weightless "a"
           ScaleInterval_laws).
  - unfold RuleMajorityJudgment.scores_candidates.
    repeat (constructor; [by_computation|]). constructor.
  - repeat (constructor; [by_computation|]). constructor.
  - by apply elem_of_singleton.
  - discriminate.
Defined.

(** ** [Rule.__call__] without candidates: when the warning is logged *)

Section warning.

Local Set Warnings "-clear-no-such-hyp".

Lemma disagree_iff (converted : list Ballot) :
  Exists (λ b, Ballot_candidates b ≠ election_candidates None converted)
    converted
  ↔ disagree converted.
Proof.
  unfold disagree, election_candidates.
  set (U := ⋃ (Ballot_candidates <$> converted)).
  assert (∀ b, b ∈ converted → Ballot_candidates b ⊆ U) as Hsub.
  { intros b Hb c Hc. apply elem_of_union_list.
    exists (Ballot_candidates b). split; [|done].
    apply list_elem_of_fmap. by exists b. }
  split.
  - intros (b & Hb & Hne)%Exists_exists.
    destruct (decide (set_Forall (λ c, c ∈ Ballot_candidates b) U))
      as [Hall|Hnot].
    + exfalso. apply Hne. apply set_eq. intros c. split; [by apply Hsub|].
      apply Hall.
    + apply not_set_Forall_Exists in Hnot; [|apply _].
      destruct Hnot as (c & Hc & Hcb). cbn in Hcb.
      apply elem_of_union_list in Hc as (X & HX & HcX).
      apply list_elem_of_fmap in HX as (b' & -> & Hb').
      exists b, b'. split; [done|]. split; [done|].
      intros Heq. apply Hcb. by rewrite Heq.
  - intros (b & b' & Hb & Hb' & Hne). apply Exists_exists.
    destruct (decide (Ballot_candidates b = U)) as [Heq|Hneq].
    + exists b'. split; [done|]. intros Heq'. apply Hne. by rewrite Heq, Heq'.
    + by exists b.
Qed.

End warning.

(** X20. When a rule is called without candidates, the warning on the
    candidates of the ballots is logged exactly when two converted
    ballots do not declare the same candidates; the log is left as it is
    when all the converted ballots declare the same candidates. *)
Theorem Rule_warns_when_ballots_disagree (self : Rule.t)
    (ballots : list pyobj) (weights : option (list Qc))
    (voters : option (list (option string))) (log : list string)
    (profile : Profile.t) (converted : list Ballot) :
  Profile.__init__ ballots weights voters = Ok profile →
  Profile.convert_all (λ b, Rule.converter self b None)
    (PyBallot <$> Profile.ballots profile) = Ok converted →
  ∃ (self' : Rule.t) (log' : list string),
    Rule.__call__ self ballots weights voters None log = Ok (self', log')
    ∧ log' = (if decide (disagree converted)
              then log ++ [warning_candidates] else log).
Proof.
  intros Hprofile Hconverted.
  destruct (Rule_call_spec self ballots weights voters None log
              profile converted Hprofile Hconverted)
    as (self' & log' & Hcall & _ & _ & Hlog).
  exists self', log'. split; [done|]. rewrite Hlog.
  destruct (decide (Exists _ converted)) as [Hex|Hex].
  - by rewrite decide_True by by apply disagree_iff.
  - by rewrite decide_False by by rewrite <- disagree_iff.
Qed.

(** Two orders, over a and b and over a, b and c. *)
Lemma Rule_warns_when_ballots_disagree_witness :
  ∃ (self' : Rule.t) (log' : list string),
    Rule.__call__ rule_unloaded two_orders None None None []
    = Ok (self', log')
    ∧ log' = (if decide
                   (disagree
                      [ Order (BallotOrder.mk [ {["a"]}; {["b"]} ]
                                 {[ "a"; "b" ]});
                        Order order_a_of_abc ])
              then [] ++ [warning_candidates] else []).
Proof.
  by apply (Rule_warns_when_ballots_disagree rule_unloaded two_orders
              None None []
              (Profile.mk
                 [ Order (BallotOrder.mk [ {["a"]}; {["b"]} ]
                            {[ "a"; "b" ]});
                   Order order_a_of_abc ] [1; 1] [None; None])).
Defined.

(** ** [RuleMajorityJudgment.__init__]: the failures of the constructor *)

(** X21. The constructor of [RuleMajorityJudgment] raises [ValueError]
    on any keyword argument other than [scale]; and, when no converter is
    given, it raises [NotImplementedError] for every scorer whose scale
    is the base scale, which is the scale that [Scorer.__init__] gives to
    a scorer built without scale. *)
Theorem RuleMajorityJudgment_init_failures
    (ScorerLevels_init : option Scale → Scorer.t)
    (default_median : option level) (kwargs : gmap string (option Scale)) :
  (delete "scale" kwargs ≠ ∅ →
   ∀ converter scorer,
     RuleMajorityJudgment_init ScorerLevels_init converter scorer
       default_median kwargs
     = Raise ValueError)
  ∧ (delete "scale" kwargs = ∅ →
     ∀ (ballot : option Ballot) (voter : option string)
       (candidates : option (gset string)),
       RuleMajorityJudgment_init ScorerLevels_init None
         (Some (Scorer.__init__ ballot voter candidates None))
         default_median kwargs
       = Raise NotImplementedError)
  ∧ (delete "scale" kwargs = ∅ →
     ∀ (converter : pyobj → option (gset string) → result Ballot)
       (scorer : Scorer.t),
       RuleMajorityJudgment_init ScorerLevels_init (Some converter)
         (Some scorer) default_median kwargs
       = Ok (mk_RuleMajorityJudgment_parameters scorer default_median
               (inl converter))).
Proof.
  unfold RuleMajorityJudgment_init. split; [|split].
  - intros Hkwargs converter scorer. by rewrite decide_True.
  - intros Hkwargs ballot voter candidates.
    rewrite decide_False by (intros Hne; by apply Hne).
    by destruct ballot.
  - intros Hkwargs converter scorer.
    by rewrite decide_False by (intros Hne; by apply Hne).
Qed.

(** ** [ConverterBallotToLevelsListNonNumeric]: from ranks to labels *)

Section non_numeric_list.

Local Set Warnings "-clear-no-such-hyp".

Lemma py_list_index_Ok (ls : list level) (z : Z) :
  (- Z.of_nat (length ls) ≤ z < Z.of_nat (length ls))%Z →
  ∃ lbl : level,
    py_list_index ls (LInt z) = Ok lbl
    ∧ ls !! Z.to_nat (z mod Z.of_nat (length ls)) = Some lbl.
Proof.
  intros Hz. unfold py_list_index.
  set (n := Z.of_nat (length ls)) in *.
  assert ((if decide (z < 0)%Z then z + n else z)%Z = (z mod n)%Z) as ->.
  { destruct (decide (z < 0)%Z).
    - apply (Z.mod_unique_pos z n (-1)); lia.
    - symmetry. apply Z.mod_small. lia. }
  assert (0 ≤ z mod n < n)%Z as Hmod by (apply Z.mod_pos_bound; lia).
  rewrite decide_True by done.
  destruct (lookup_lt_is_Some_2 ls (Z.to_nat (z mod n))) as [lbl Hlbl];
    [unfold n in *; lia|].
  exists lbl. by rewrite Hlbl.
Qed.

End non_numeric_list.

(** X22. When the range converter turns the input into a levels ballot
    of integers [v] with [-n ≤ v < n], where [n] is the number of labels
    of the scale, [ConverterBallotToLevelsListNonNumeric] returns the
    levels ballot on its scale in which every kept candidate has the
    label at index [v] of the list, an index [v < 0] counting from the
    end of the list; the declared candidates are restricted as well. *)
Theorem ListNonNumeric_labels
    (Range_call : Scale → bool → pyobj → option (gset string) → result Ballot)
    (self : ConverterBallotToLevelsListNonNumeric) (ls : list level)
    (x : pyobj) (ranks : BallotLevels.t)
    (candidates : option (gset string)) :
  Scale_.levels (ListNonNumeric_scale self) = Ok ls →
  Range_call (ScaleRange (LInt 0) (LInt (Z.of_nat (length ls) - 1)))
    (ListNonNumeric_borda_unordered_give_points self) x None
  = Ok (Levels ranks) →
  (∀ c v, BallotLevels.as_dict ranks !! c = Some v →
          ∃ z : Z, v = LInt z
                   ∧ (- Z.of_nat (length ls) ≤ z < Z.of_nat (length ls))%Z) →
  ∃ l : BallotLevels.t,
    ConverterBallotToLevelsListNonNumeric_call Range_call self x candidates
    = Ok (Levels l)
    ∧ BallotLevels._input_scale l = Some (ListNonNumeric_scale self)
    ∧ BallotLevels.candidates l
      = restricted (BallotLevels.candidates ranks) candidates
    ∧ ∀ c, BallotLevels.as_dict l !! c
           = if decide (kept candidates c)
             then BallotLevels.as_dict ranks !! c ≫= label_at ls
             else None.
Proof.
  intros Hls Hranks Hints.
  unfold ConverterBallotToLevelsListNonNumeric_call.
  rewrite Hls. cbn. rewrite Hranks. cbn.
  destruct (dict_comprehension_total
              (λ (_ : string) (v : level), py_list_index ls v)
              (λ (_ : string) (v : level), default v (label_at ls v))
              (BallotLevels.as_dict ranks)) as (d & -> & Hd).
  { intros c v Hv. destruct (Hints c v Hv) as (z & -> & Hz).
    destruct (py_list_index_Ok ls z Hz) as (lbl & -> & Hlbl).
    unfold label_at. by rewrite Hlbl. }
  cbn.
  destruct (levels_restricted_full d (BallotLevels.candidates ranks)
              (ListNonNumeric_scale self) candidates)
    as (l & Hl & Hsc & Hcands & Hlookup).
  unfold ConverterBallotToLevelsInterval.levels_restricted in Hl.
  exists l. split; [exact Hl|]. split; [done|]. split; [done|].
  intros c. rewrite Hlookup, Hd. destruct (decide _); [|done].
  destruct (BallotLevels.as_dict ranks !! c) as [v|] eqn:Hv; [|done]. cbn.
  destruct (Hints c v Hv) as (z & -> & Hz).
  destruct (py_list_index_Ok ls z Hz) as (lbl & _ & Hlbl).
  unfold label_at. by rewrite Hlbl.
Qed.

(** The appreciations of the documentation, for ranks 4 and -1: both are
    the last label. *)
Lemma ListNonNumeric_labels_witness :
  ∃ l : BallotLevels.t,
    ConverterBallotToLevelsListNonNumeric_call ranks_converter
      (ConverterBallotToLevelsListNonNumeric_init
         (ScaleFromList appreciations) true)
      (PyDict ∅) None
    = Ok (Levels l)
    ∧ BallotLevels._input_scale l = Some (ScaleFromList appreciations)
    ∧ BallotLevels.candidates l
      = restricted (BallotLevels.candidates ranks_4_and_last) None
    ∧ ∀ c, BallotLevels.as_dict l !! c
           = if decide (kept None c)
             then BallotLevels.as_dict ranks_4_and_last !! c
                  ≫= label_at appreciations
             else None.
Proof.
  apply (ListNonNumeric_labels ranks_converter
           (ConverterBallotToLevelsListNonNumeric_init
              (ScaleFromList appreciations) true)
           appreciations (PyDict ∅) ranks_4_and_last None).
  - reflexivity.
  - reflexivity.
  - intros c v Hv.
    destruct (decide (c = "a")) as [->|Ha];
      [|destruct (decide (c = "b")) as [->|Hb]].
    + assert (BallotLevels.as_dict ranks_4_and_last !! "a"
              = Some (LInt 4)) as Ha by by_computation.
      rewrite Ha in Hv. injection Hv as <-.
      exists 4%Z. split; [done|]. cbn. lia.
    + assert (BallotLevels.as_dict ranks_4_and_last !! "b"
              = Some (LInt (-1))) as Hb by by_computation.
      rewrite Hb in Hv. injection Hv as <-.
      exists (-1)%Z. split; [done|]. cbn. lia.
    + exfalso. revert Hv. unfold ranks_4_and_last. cbn.
      rewrite lookup_insert_ne by done. by rewrite lookup_singleton_ne.
Defined.
